(** * EC2 / EBS utilisation reports: a shallow embedding of
      [ec2ebs.py] (class [AWSMetricsCollector]) and [ec2_ebs.py]
      (the notebook export the class was written from).

    Both programs fetch the instance and volume inventory, query one
    CloudWatch metric per resource, aggregate per resource with pandas,
    left-join the aggregates on the inventory and write two CSV files.

    Modelling choices.
    - A pandas [DataFrame] is a list of column labels together with a list
      of rows; a row is a finite map from column label to cell.  A frame
      may have columns and no rows, as in pandas.
    - A float cell is an exact rational ([Num]); [NaN] is a cell of its
      own; the square root taken by [std] is kept symbolic ([Root]).
      IEEE rounding is outside the model.
    - The AWS responses are the input: a [cloud] gives the answer of every
      API call.  Instances, volumes, attachments and datapoints are records
      with the fields the programs read; fields the API may leave out are
      options.  Columns of the inventory that neither program reads are
      left out of the frames.
    - Effects: the log, the files written and the API calls issued are an
      explicit [world]; a computation returns an exception or a value
      together with the new world.  What the notebook prints is not
      modelled. *)

From Stdlib Require Import QArith Qreduction.
From stdpp Require Import gmap strings list fin_maps sorting.

Local Open Scope string_scope.
Local Open Scope list_scope.

(** ** Cells *)

Record attachment := Attachment { a_InstanceId : string; a_VolumeId : string }.

Inductive cell :=
| NaN
| Num (q : Q)
| Root (q : Q)
| Str (s : string)
| Flag (b : bool)
| Time (t : Z)
| Atts (l : list attachment).

#[global] Instance Q_eq_dec : EqDecision Q.
Proof. solve_decision. Defined.
#[global] Instance attachment_eq_dec : EqDecision attachment.
Proof. solve_decision. Defined.
#[global] Instance cell_eq_dec : EqDecision cell.
Proof. solve_decision. Defined.

Definition qadd (a b : Q) : Q := Qred (Qplus a b).
Definition qsub (a b : Q) : Q := Qred (Qminus a b).
Definition qmul (a b : Q) : Q := Qred (Qmult a b).
Definition qdiv (a b : Q) : Q := Qred (Qdiv a b).
Definition qmax (a b : Q) : Q := if Qle_bool a b then b else a.
Definition qsum (l : list Q) : Q := foldr qadd (0 # 1)%Q l.
Definition qcount (l : list Q) : Q := inject_Z (Z.of_nat (length l)).

(** [Series.mean], [Series.max], [Series.count] and [Series.std] (sample
    standard deviation, [ddof = 1]) of a non-empty group of floats. *)
Definition q_mean (l : list Q) : Q := qdiv (qsum l) (qcount l).
Definition q_max (l : list Q) : cell :=
  match l with
  | [] => NaN
  | x :: l' => Num (foldl qmax x l')
  end.
Definition q_var (l : list Q) : Q :=
  qdiv (qsum (map (fun x => qmul (qsub x (q_mean l)) (qsub x (q_mean l))) l))
       (qsub (qcount l) (1 # 1)%Q).
Definition q_std (l : list Q) : cell :=
  match l with
  | [] | [_] => NaN
  | _ => Root (q_var l)
  end.

Inductive agg := Mean | Std | Max | Count.

Definition agg_cell (a : agg) (l : list Q) : cell :=
  match a with
  | Mean => match l with [] => NaN | _ => Num (q_mean l) end
  | Std => q_std l
  | Max => q_max l
  | Count => Num (qcount l)
  end.

(** [a + b] and [a / k] on float cells; NaN is absorbing. *)
Definition cell_add (a b : cell) : cell :=
  match a, b with
  | Num x, Num y => Num (qadd x y)
  | _, _ => NaN
  end.
Definition cell_div (k : Q) (a : cell) : cell :=
  match a with
  | Num x => Num (qdiv x k)
  | _ => NaN
  end.
Definition cell_num (a : cell) : option Q :=
  match a with Num x => Some x | _ => None end.
Definition cell_str (a : cell) : option string :=
  match a with Str s => Some s | _ => None end.

(** ** Exceptions *)

Inductive exn :=
| ClientError (msg : string)
| KeyError (missing : list string)
| AttributeError (name : string)
| TypeError (msg : string).

#[global] Instance exn_eq_dec : EqDecision exn.
Proof. solve_decision. Defined.

Definition exn_str (e : exn) : string :=
  match e with
  | ClientError msg => msg
  | KeyError ks => String.concat ", " ks
  | AttributeError n => n
  | TypeError msg => msg
  end.

Definition res (A : Type) : Type := exn + A.

(** ** Data frames *)

Abbreviation row := (gmap string cell).

Record DataFrame := mkDF { columns : list string; rows : list row }.

(** [pd.DataFrame()] *)
Definition empty_df : DataFrame := mkDF [] [].

(** [df.empty]: some axis has length 0. *)
Definition df_empty (df : DataFrame) : bool :=
  bool_decide (columns df = []) || bool_decide (rows df = []).

Definition add_col (cols : list string) (c : string) : list string :=
  if decide (c ∈ cols) then cols else cols ++ [c].
Definition union_cols (a b : list string) : list string := foldl add_col a b.

Definition nan_row (cols : list string) : row :=
  list_to_map ((fun c => (c, NaN)) <$> cols).
(** A row extended with NaN in the columns it lacks. *)
Definition pad (cols : list string) (r : row) : row := r ∪ nan_row cols.

(** [pd.DataFrame(records)] for a list of dicts: the columns are the keys
    in order of first appearance, a missing key is NaN. *)
Definition from_records (recs : list (list (string * cell))) : DataFrame :=
  let cols := foldl (fun acc d => union_cols acc d.*1) [] recs in
  mkDF cols ((fun d => pad cols (list_to_map d)) <$> recs).

(** [pd.concat([a, b], ignore_index=True)] *)
Definition pd_concat (a b : DataFrame) : DataFrame :=
  let cols := union_cols (columns a) (columns b) in
  mkDF cols (pad cols <$> (rows a ++ rows b)).

(** [df[c]] as a list of cells. *)
Definition get_column (c : string) (df : DataFrame) : res (list cell) :=
  if decide (c ∈ columns df)
  then inr ((fun r => default NaN (r !! c)) <$> rows df)
  else inl (KeyError [c]).

(** [df[cols]] *)
Definition restrict (cols : list string) (r : row) : row :=
  list_to_map ((fun c => (c, default NaN (r !! c))) <$> cols).
Definition select (cols : list string) (df : DataFrame) : res DataFrame :=
  match filter (fun c => c ∉ columns df) cols with
  | [] => inr (mkDF cols (restrict cols <$> rows df))
  | missing => inl (KeyError missing)
  end.

(** [df[c] = v] for a scalar [v]. *)
Definition set_scalar (c : string) (v : cell) (df : DataFrame) : DataFrame :=
  mkDF (add_col (columns df) c) ((fun r : row => <[c := v]> r) <$> rows df).

(** [df[c] = s] for a series [s] aligned with the rows of [df]. *)
Definition set_series (c : string) (s : list cell) (df : DataFrame) : DataFrame :=
  mkDF (add_col (columns df) c)
       (zip_with (fun (r : row) v => <[c := v]> r) (rows df) s).

(** [df.fillna(v)] *)
Definition fill (v : cell) (x : cell) : cell :=
  match x with NaN => v | _ => x end.
Definition fillna (v : cell) (df : DataFrame) : DataFrame :=
  mkDF (columns df) ((fun r : row => fill v <$> r) <$> rows df).

(** [df.at[idx, c] = v] on an existing column. *)
Definition set_at (idx : nat) (c : string) (v : cell) (df : DataFrame) : DataFrame :=
  mkDF (columns df) (alter (fun r : row => <[c := v]> r) idx (rows df)).

(** Strings are ordered as Python orders them, by code point. *)
Definition str_le (a b : string) : Prop := String.leb a b = true.
#[global] Instance str_le_dec a b : Decision (str_le a b).
Proof. unfold str_le. apply _. Defined.

Definition key_of (key : string) (r : row) : option string :=
  r !! key ≫= cell_str.

(** The group keys of [df.groupby(key)]: distinct, sorted.  The key column
    of every frame the programs group holds strings. *)
Definition group_keys (key : string) (df : DataFrame) : list string :=
  merge_sort str_le (remove_dups (omap (key_of key) (rows df))).

Definition group_values (key val k : string) (df : DataFrame) : list Q :=
  omap (fun r => r !! val ≫= cell_num)
       (filter (fun r => key_of key r = Some k) (rows df)).

(** [df.groupby(key).<val>.agg([...]).reset_index()] followed by the
    assignment of the new column labels [key :: names]. *)
Definition group_row (key val : string) (stats : list (agg * string))
    (df : DataFrame) (k : string) : row :=
  list_to_map
    ((key, Str k) ::
     ((fun an : agg * string => (an.2, agg_cell an.1 (group_values key val k df))) <$> stats)).
Definition groupby_agg (key val : string) (stats : list (agg * string))
    (df : DataFrame) : res DataFrame :=
  if decide (key ∈ columns df) then
    if decide (val ∈ columns df) then
      inr (mkDF (key :: stats.*2) (group_row key val stats df <$> group_keys key df))
    else inl (AttributeError val)
  else inl (KeyError [key]).

(** [pd.merge(left, right, on=key, how='left')]: every left row, in order,
    once per matching right row, or once with NaN when none matches. *)
Definition right_cols (key : string) (right : DataFrame) : list string :=
  filter (fun c => c ≠ key) (columns right).
Definition join_row (key : string) (right : DataFrame) (l : row) : list row :=
  match filter (fun r => r !! key = l !! key) (rows right) with
  | [] => [l ∪ nan_row (right_cols key right)]
  | ms => (fun r => l ∪ r) <$> ms
  end.
Definition merge_left (key : string) (left right : DataFrame) : res DataFrame :=
  if decide (key ∈ columns left) then
    if decide (key ∈ columns right) then
      inr (mkDF (columns left ++ right_cols key right)
                (rows left ≫= join_row key right))
    else inl (KeyError [key])
  else inl (KeyError [key]).


(** ** The cloud and the world *)

Record instance := Instance_ {
  i_ImageId : string;
  i_InstanceId : string;
  i_InstanceType : string;
  i_PrivateDnsName : option string;
  i_PrivateIpAddress : option string;
  i_PublicDnsName : option string;
  i_PublicIpAddress : option string }.

Record volume := Volume {
  v_AvailabilityZone : string;
  v_CreateTime : Z;
  v_Encrypted : bool;
  v_Size : Z;
  v_VolumeId : string;
  v_Iops : option Z;
  v_VolumeType : string;
  v_Throughput : option Z;
  v_Attachments : list attachment }.

Record datapoint := Datapoint { d_Timestamp : Z; d_Maximum : Q; d_Unit : string }.

(** The answers of the provider: [describe_instances] gives the instances
    grouped by reservation; [get_metric_statistics namespace metric
    dimension value] gives the datapoints of one resource. *)
Record cloud := Cloud {
  region_name : string;
  describe_instances : res (list (list instance));
  describe_volumes : res (list volume);
  get_metric_statistics : string -> string -> string -> string -> res (list datapoint) }.

Inductive level := INFO | ERROR.

Inductive api_call :=
| DescribeInstances
| DescribeVolumes
| GetMetricStatistics (namespace metric dimension value : string).

Record world := World {
  log : list (level * string);
  files : list (string * DataFrame);
  calls : list api_call }.

Definition world0 : world := World [] [] [].

(** The dicts of the responses, as [pd.DataFrame] receives them. *)
Definition opt_field {A} (k : string) (f : A -> cell) (o : option A) : list (string * cell) :=
  match o with Some x => [(k, f x)] | None => [] end.
Definition num_of_Z (z : Z) : cell := Num (inject_Z z).

Definition instance_record (i : instance) : list (string * cell) :=
  [("ImageId", Str (i_ImageId i)); ("InstanceId", Str (i_InstanceId i));
   ("InstanceType", Str (i_InstanceType i))]
  ++ opt_field "PrivateDnsName" Str (i_PrivateDnsName i)
  ++ opt_field "PrivateIpAddress" Str (i_PrivateIpAddress i)
  ++ opt_field "PublicDnsName" Str (i_PublicDnsName i)
  ++ opt_field "PublicIpAddress" Str (i_PublicIpAddress i).

Definition volume_record (v : volume) : list (string * cell) :=
  [("Attachments", Atts (v_Attachments v));
   ("AvailabilityZone", Str (v_AvailabilityZone v));
   ("CreateTime", Time (v_CreateTime v));
   ("Encrypted", Flag (v_Encrypted v));
   ("Size", num_of_Z (v_Size v));
   ("VolumeId", Str (v_VolumeId v))]
  ++ opt_field "Iops" num_of_Z (v_Iops v)
  ++ [("VolumeType", Str (v_VolumeType v))]
  ++ opt_field "Throughput" num_of_Z (v_Throughput v).

Definition datapoint_record (d : datapoint) : list (string * cell) :=
  [("Timestamp", Time (d_Timestamp d)); ("Maximum", Num (d_Maximum d));
   ("Unit", Str (d_Unit d))].

(** ** Computations: exceptions over an explicit world *)

Definition M (A : Type) : Type := world -> res A * world.

Definition ret {A} (a : A) : M A := fun w => (inr a, w).
Definition raise {A} (e : exn) : M A := fun w => (inl e, w).
Definition lift {A} (r : res A) : M A := fun w => (r, w).
Definition bind {A B} (m : M A) (f : A -> M B) : M B :=
  fun w => match m w with
           | (inl e, w') => (inl e, w')
           | (inr a, w') => f a w'
           end.
(** [try: m except Exception as e: h e] *)
Definition try_except {A} (m : M A) (h : exn -> M A) : M A :=
  fun w => match m w with
           | (inl e, w') => h e w'
           | (inr a, w') => (inr a, w')
           end.

#[global] Instance M_ret : MRet M := @ret.
#[global] Instance M_bind : MBind M := fun A B f m => bind m f.

Fixpoint for_each {A S} (l : list A) (body : A -> S -> M S) (s : S) : M S :=
  match l with
  | [] => ret s
  | x :: l' => s' ← body x s; for_each l' body s'
  end.

Definition logger (lvl : level) (msg : string) : M unit :=
  fun w => (inr tt, World (log w ++ [(lvl, msg)]) (files w) (calls w)).
Definition to_csv (name : string) (df : DataFrame) : M unit :=
  fun w => (inr tt, World (log w) (files w ++ [(name, df)]) (calls w)).
Definition called (a : api_call) : M unit :=
  fun w => (inr tt, World (log w) (files w) (calls w ++ [a])).

Section WithCloud.
Variable c : cloud.

Definition api_describe_instances : M (list (list instance)) :=
called DescribeInstances;; lift (describe_instances c).
Definition api_describe_volumes : M (list volume) :=
called DescribeVolumes;; lift (describe_volumes c).
(** The dimension value must be a string: boto3 rejects any other value
  before it sends the request. *)
Definition api_get_metric_statistics (namespace metric dimension : string)
  (value : cell) : M (list datapoint) :=
match value with
| Str v =>
    called (GetMetricStatistics namespace metric dimension v);;
    lift (get_metric_statistics c namespace metric dimension v)
| _ => raise (TypeError "Invalid type for parameter Dimensions[0].Value")
end.
End WithCloud.

Definition ec2_columns : list string :=
  ["ImageId"; "InstanceId"; "InstanceType"; "PrivateDnsName";
   "PrivateIpAddress"; "PublicDnsName"; "PublicIpAddress"].
Definition final_columns : list string :=
  ["AvailabilityZone"; "CreateTime"; "Encrypted"; "Size"; "VolumeId";
   "Iops"; "VolumeType"; "Throughput"; "MeanIOPS"; "MaxIOPS"; "InstanceId"].
Definition cpu_stats : list (agg * string) :=
  [(Mean, "meanCPU"); (Std, "stdCPU"); (Max, "maxCPU"); (Count, "countCPU")].
Definition read_stats : list (agg * string) :=
  [(Mean, "meanReadIOPS"); (Max, "maxReadIOPS"); (Count, "countReadIOPS")].
Definition write_stats : list (agg * string) :=
  [(Mean, "meanWriteIOPS"); (Max, "maxWriteIOPS"); (Count, "countWriteIOPS")].

(** [df['Maximum'] = df['Maximum'] / 3600] *)
Definition per_second (df : DataFrame) : res DataFrame :=
  match get_column "Maximum" df with
  | inl e => inl e
  | inr s => inr (set_series "Maximum" (cell_div (3600 # 1)%Q <$> s) df)
  end.

(** [df[c] = df[a] + df[b]] *)
Definition set_sum (c a b : string) (df : DataFrame) : res DataFrame :=
  match get_column a df with
  | inl e => inl e
  | inr sa =>
      match get_column b df with
      | inl e => inl e
      | inr sb => inr (set_series c (zip_with cell_add sa sb) df)
      end
  end.

(** ** [ec2ebs.py]: class [AWSMetricsCollector] *)

Module Collector.
Section WithCloud.
Variable c : cloud.

Definition get_ec2_instances : M DataFrame :=
try_except
  (response ← api_describe_instances c;
   let instances := List.concat response in
   let df := from_records (instance_record <$> instances) in
   if df_empty df then
     logger INFO ("No EC2 instances found in region " +:+ region_name c);;
     mret empty_df
   else
     df' ← lift (select ec2_columns df);
     mret (fillna (Str "") df'))
  (fun e =>
     logger ERROR ("Error retrieving EC2 instances: " +:+ exn_str e);;
     raise e).

Definition get_ebs_volumes : M DataFrame :=
try_except
  (response ← api_describe_volumes c;
   let df := from_records (volume_record <$> response) in
   mret (fillna (Num 0) df))
  (fun e =>
     logger ERROR ("Error retrieving EBS volumes: " +:+ exn_str e);;
     raise e).

Definition fetch_one (namespace metric_name dimension_name : string)
  (value : cell) (df_metrics : DataFrame) : M DataFrame :=
try_except
  (stats ← api_get_metric_statistics c namespace metric_name dimension_name value;
   match stats with
   | [] => mret df_metrics
   | _ =>
       let df_temp := from_records (datapoint_record <$> stats) in
       let df_temp := set_scalar dimension_name value df_temp in
       mret (pd_concat df_metrics df_temp)
   end)
  (fun e =>
     logger ERROR ("Error retrieving CloudWatch metrics for " +:+ dimension_name
                   +:+ " " +:+ default "" (cell_str value) +:+ ": " +:+ exn_str e);;
     mret df_metrics).

Definition get_cloudwatch_metrics (namespace metric_name dimension_name : string)
  (dimension_values : list cell) : M DataFrame :=
for_each dimension_values (fetch_one namespace metric_name dimension_name) empty_df.

Definition process_ec2_metrics (df_ec2 : DataFrame) : M DataFrame :=
if df_empty df_ec2 then mret empty_df
else
  ids ← lift (get_column "InstanceId" df_ec2);
  cpu_metrics ← get_cloudwatch_metrics "AWS/EC2" "CPUUtilization" "InstanceId" ids;
  if negb (df_empty cpu_metrics) then
    df_agg ← lift (groupby_agg "InstanceId" "Maximum" cpu_stats cpu_metrics);
    merged ← lift (merge_left "InstanceId" df_ec2 df_agg);
    mret (fillna (Num (0 # 1)) merged)
  else mret df_ec2.

(** The loop over [df_result.iterrows()]. *)
Definition attach_step (ir : nat * row) (df_result : DataFrame) : M DataFrame :=
match ir.2 !! "Attachments" with
| None => raise (KeyError ["Attachments"])
| Some (Atts (a :: _)) =>
    mret (set_at ir.1 "InstanceId" (Str (a_InstanceId a)) df_result)
| Some _ => mret df_result
end.
Definition extract_instance_ids (df_result : DataFrame) : M DataFrame :=
let df_result := set_scalar "InstanceId" (Str "") df_result in
for_each (imap pair (rows df_result)) attach_step df_result.

(** Lines 163-198: both tables after the conversion to rates, the two
  joins, the fill and the sums. *)
Definition to_rate (df : DataFrame) : M DataFrame :=
if negb (df_empty df) then lift (per_second df) else mret df.
Definition aggregate (stats : list (agg * string)) (ops : DataFrame) : M DataFrame :=
if negb (df_empty ops) then lift (groupby_agg "VolumeId" "Maximum" stats ops)
else mret empty_df.
Definition join_if (df_result df_agg : DataFrame) : M DataFrame :=
if negb (df_empty df_agg) then lift (merge_left "VolumeId" df_result df_agg)
else mret df_result.
Definition total_iops (df_result : DataFrame) : M DataFrame :=
if decide ("maxReadIOPS" ∈ columns df_result ∧ "maxWriteIOPS" ∈ columns df_result) then
  df_result ← lift (set_sum "MaxIOPS" "maxReadIOPS" "maxWriteIOPS" df_result);
  lift (set_sum "MeanIOPS" "meanReadIOPS" "meanWriteIOPS" df_result)
else mret df_result.

Definition combine_ebs (df_volumes read_ops write_ops : DataFrame) : M DataFrame :=
read_ops ← to_rate read_ops;
write_ops ← to_rate write_ops;
df_read ← aggregate read_stats read_ops;
df_write ← aggregate write_stats write_ops;
let df_result := df_volumes in
df_result ← join_if df_result df_read;
df_result ← join_if df_result df_write;
let df_result := fillna (Num (0 # 1)) df_result in
total_iops df_result.

Definition process_ebs_metrics (df_volumes : DataFrame) : M DataFrame :=
if df_empty df_volumes then mret empty_df
else
  volume_ids ← lift (get_column "VolumeId" df_volumes);
  read_ops ← get_cloudwatch_metrics "AWS/EBS" "VolumeReadOps" "VolumeId" volume_ids;
  write_ops ← get_cloudwatch_metrics "AWS/EBS" "VolumeWriteOps" "VolumeId" volume_ids;
  df_result ← combine_ebs df_volumes read_ops write_ops;
  df_result ← extract_instance_ids df_result;
  lift (select final_columns df_result).

Definition ec2_report_name : string := "ec2_report-" +:+ region_name c +:+ ".csv".
Definition ebs_report_name : string := "ebs_report-" +:+ region_name c +:+ ".csv".

Definition ec2_part : M unit :=
logger INFO "Retrieving EC2 instances...";;
df_ec2 ← get_ec2_instances;
if negb (df_empty df_ec2) then
  df_ec2_processed ← process_ec2_metrics df_ec2;
  to_csv ec2_report_name df_ec2_processed;;
  logger INFO "EC2 report generated successfully"
else mret tt.

Definition ebs_part : M unit :=
logger INFO "Retrieving EBS volumes...";;
df_volumes ← get_ebs_volumes;
if negb (df_empty df_volumes) then
  df_volumes_processed ← process_ebs_metrics df_volumes;
  to_csv ebs_report_name df_volumes_processed;;
  logger INFO "EBS report generated successfully"
else mret tt.

Definition generate_reports : M unit :=
try_except
  (ec2_part;; ebs_part)
  (fun e =>
     logger ERROR ("Error generating reports: " +:+ exn_str e);;
     raise e).

Definition main : M unit :=
try_except
  generate_reports
  (fun e =>
     logger ERROR ("Failed to generate reports: " +:+ exn_str e);;
     raise e).
End WithCloud.
End Collector.

(** ** [ec2_ebs.py]: the notebook export *)

Module Script.
Section WithCloud.
Variable c : cloud.

(** Lines 33-44. *)
Definition instances_frame : M DataFrame :=
  response ← api_describe_instances c;
  let rs := response in
  let df := foldl (fun df j => pd_concat df (from_records (instance_record <$> j)))
                  empty_df rs in
  df ← lift (select ec2_columns df);
  mret (fillna (Str "") df).

(** Lines 51-54. *)
Definition volumes_frame : M DataFrame :=
  response ← api_describe_volumes c;
  let rs := response in
  mret (fillna (Num (0 # 1)) (from_records (volume_record <$> rs))).

(** One metric query and the [pd.concat] that follows it. *)
Definition fetch_one (namespace metric_name dimension_name : string)
    (value : cell) (acc : DataFrame) : M DataFrame :=
  stats ← api_get_metric_statistics c namespace metric_name dimension_name value;
  let df2 := from_records (datapoint_record <$> stats) in
  let df2 := set_scalar dimension_name value df2 in
  mret (pd_concat acc df2).

(** Lines 66-88. *)
Definition fetch_cpu (df : DataFrame) : M DataFrame :=
  ids ← lift (get_column "InstanceId" df);
  for_each ids (fetch_one "AWS/EC2" "CPUUtilization" "InstanceId") empty_df.

(** Lines 98-108. *)
Definition ec2_table (df dfutil : DataFrame) : M DataFrame :=
  df_agg ← lift (groupby_agg "InstanceId" "Maximum" cpu_stats dfutil);
  df_ec2 ← lift (merge_left "InstanceId" df df_agg);
  mret (fillna (Num (0 # 1)) df_ec2).

(** Lines 117-160: read and write are queried in turn for each volume. *)
Definition fetch_iops (df_v : DataFrame) : M (DataFrame * DataFrame) :=
  ids ← lift (get_column "VolumeId" df_v);
  for_each ids
    (fun volid (acc : DataFrame * DataFrame) =>
       dfiops_read ← fetch_one "AWS/EBS" "VolumeReadOps" "VolumeId" volid acc.1;
       dfiops_write ← fetch_one "AWS/EBS" "VolumeWriteOps" "VolumeId" volid acc.2;
       mret (dfiops_read, dfiops_write))
    (empty_df, empty_df).

(** Lines 163-201. *)
Definition combine_ebs (df_v dfiops_read dfiops_write : DataFrame) : M DataFrame :=
  dfiops_read ← lift (per_second dfiops_read);
  dfiops_write ← lift (per_second dfiops_write);
  df_agg_read ← lift (groupby_agg "VolumeId" "Maximum" read_stats dfiops_read);
  df_agg_write ← lift (groupby_agg "VolumeId" "Maximum" write_stats dfiops_write);
  df_v2 ← lift (merge_left "VolumeId" df_v df_agg_read);
  df_v3 ← lift (merge_left "VolumeId" df_v2 df_agg_write);
  df_v3 ← lift (set_sum "MaxIOPS" "maxReadIOPS" "maxWriteIOPS" df_v3);
  df_v3 ← lift (set_sum "MeanIOPS" "meanReadIOPS" "meanWriteIOPS" df_v3);
  mret (fillna (Num (0 # 1)) df_v3).

(** [np.where(df['VolumeId'] == vid, iid, df['InstanceId'])] assigned to
    [df['InstanceId']]. *)
Definition where_volume (w : attachment) (df : DataFrame) : DataFrame :=
  mkDF (columns df)
       ((fun r : row =>
           if decide (r !! "VolumeId" = Some (Str (a_VolumeId w)))
           then <["InstanceId" := Str (a_InstanceId w)]> r else r) <$> rows df).

(** Lines 210-217. *)
Definition attach_step (v : cell) (df_v3 : DataFrame) : M DataFrame :=
  match v with
  | Atts l => mret (foldl (fun df w => where_volume w df) df_v3 l)
  | _ => raise (TypeError "object is not iterable")
  end.
Definition extract_instance_ids (df_v3 : DataFrame) : M DataFrame :=
  let df_v3 := set_scalar "InstanceId" (Str "") df_v3 in
  atts ← lift (get_column "Attachments" df_v3);
  for_each atts attach_step df_v3.

Definition ebs_table (df_v dfiops_read dfiops_write : DataFrame) : M DataFrame :=
  df_v3 ← combine_ebs df_v dfiops_read dfiops_write;
  df_v3 ← extract_instance_ids df_v3;
  lift (select final_columns df_v3).

Definition script : M unit :=
  df ← instances_frame;
  df_v ← volumes_frame;
  dfutil ← fetch_cpu df;
  df_ec2 ← ec2_table df dfutil;
  iops ← fetch_iops df_v;
  df_v4 ← ebs_table df_v iops.1 iops.2;
  to_csv ("ec2_report-" +:+ region_name c +:+ ".csv") df_ec2;;
  to_csv ("ebs_report-" +:+ region_name c +:+ ".csv") df_v4.
End WithCloud.
End Script.

(** ** Notions used in the statements *)

(** What the join with a table of aggregates adds to an inventory row. *)
Definition agg_part (key val : string) (stats : list (agg * string))
    (df : DataFrame) (l : row) : row :=
  match l !! key with
  | Some (Str k) =>
      if decide (k ∈ group_keys key df) then group_row key val stats df k
      else nan_row stats.*2
  | _ => nan_row stats.*2
  end.

(** The datapoints a metric query contributes: none when it faults. *)
Definition answers (c : cloud) (namespace metric dimension id : string) : list datapoint :=
  match get_metric_statistics c namespace metric dimension id with
  | inr ds => ds
  | inl _ => []
  end.
Definition faults (c : cloud) (namespace metric dimension id : string) : Prop :=
  ∃ e, get_metric_statistics c namespace metric dimension id = inl e.

Definition dp_cols : list string := ["Timestamp"; "Maximum"; "Unit"].
Definition metric_cols (dimension : string) : list string := add_col dp_cols dimension.
Definition dp_row (dimension id : string) (d : datapoint) : row :=
  <[dimension := Str id]> (list_to_map (datapoint_record d)).
(** The rows of the metric table for the resources [ids], in fetch order,
    when [ans id] are the datapoints of [id]. *)
Definition metric_rows_of (ans : string -> list datapoint) (dimension : string)
    (ids : list string) : list row :=
  ids ≫= (fun id => dp_row dimension id <$> ans id).
Definition metric_rows (c : cloud) (namespace metric dimension : string)
    (ids : list string) : list row :=
  metric_rows_of (answers c namespace metric dimension) dimension ids.

(** The frame built from the answer of one query, with its dimension column. *)
Definition fetched_table (dimension id : string) (ds : list datapoint) : DataFrame :=
  set_scalar dimension (Str id) (from_records (datapoint_record <$> ds)).

(** The shape of a table of datapoints. *)
Definition metric_frame (dimension : string) (df : DataFrame) : Prop :=
  columns df ⊆ metric_cols dimension ∧
  Forall (fun r : row => ∀ x, x ∈ metric_cols dimension → is_Some (r !! x)) (rows df) ∧
  (rows df ≠ [] → metric_cols dimension ⊆ columns df).

(** The log entries of the metric queries that fault. *)
Definition fetch_errors (c : cloud) (namespace metric dimension : string)
    (ids : list string) : list (level * string) :=
  ids ≫= (fun id =>
    match get_metric_statistics c namespace metric dimension id with
    | inl e => [(ERROR, "Error retrieving CloudWatch metrics for " +:+ dimension
                        +:+ " " +:+ id +:+ ": " +:+ exn_str e)]
    | inr _ => []
    end).


(** The row of the instance frame for one instance, after
    [df[columns].fillna('')]. *)
Definition inventory_row (i : instance) : row :=
  list_to_map
    [("ImageId", Str (i_ImageId i)); ("InstanceId", Str (i_InstanceId i));
     ("InstanceType", Str (i_InstanceType i));
     ("PrivateDnsName", Str (default "" (i_PrivateDnsName i)));
     ("PrivateIpAddress", Str (default "" (i_PrivateIpAddress i)));
     ("PublicDnsName", Str (default "" (i_PublicDnsName i)));
     ("PublicIpAddress", Str (default "" (i_PublicIpAddress i)))].

(** The column [col] is a key of some record of the response. *)
Definition has_column {A} (record : A -> list (string * cell)) (xs : list A)
    (col : string) : Prop :=
  Exists (fun x => col ∈ (record x).*1) xs.

(** The instance frame, the table of CPU datapoints and the joined table
    in closed form. *)
Definition instance_frame (instances : list instance) : DataFrame :=
  mkDF ec2_columns (inventory_row <$> instances).
Definition cpu_table (c : cloud) (instances : list instance) : DataFrame :=
  mkDF (metric_cols "InstanceId")
       (metric_rows c "AWS/EC2" "CPUUtilization" "InstanceId" (i_InstanceId <$> instances)).
Definition ec2_row (c : cloud) (instances : list instance) (i : instance) : row :=
  fill (Num (0 # 1)) <$>
    (inventory_row i ∪
     agg_part "InstanceId" "Maximum" cpu_stats (cpu_table c instances) (inventory_row i)).
Definition joined_ec2 (c : cloud) (instances : list instance) : DataFrame :=
  mkDF (ec2_columns ++ cpu_stats.*2) (ec2_row c instances <$> instances).
Definition ec2_report (c : cloud) (instances : list instance) : DataFrame :=
  if decide (rows (cpu_table c instances) = []) then instance_frame instances
  else joined_ec2 c instances.
Definition cpu_calls (instances : list instance) : list api_call :=
  GetMetricStatistics "AWS/EC2" "CPUUtilization" "InstanceId" <$> (i_InstanceId <$> instances).
Definition cpu_errors (c : cloud) (instances : list instance) : list (level * string) :=
  fetch_errors c "AWS/EC2" "CPUUtilization" "InstanceId" (i_InstanceId <$> instances).

(** The loop of the notebook over the reservations. *)
Definition script_fold (acc : DataFrame) (rs : list (list instance)) : DataFrame :=
  foldl (fun df j => pd_concat df (from_records (instance_record <$> j))) acc rs.

(** The volume frame: [pd.DataFrame(response['Volumes']).fillna(0)]. *)
Definition volume_frame (vols : list volume) : DataFrame :=
  fillna (Num (0 # 1)) (from_records (volume_record <$> vols)).
Definition volume_row (cols : list string) (v : volume) : row :=
  fill (Num (0 # 1)) <$> pad cols (list_to_map (volume_record v)).
Definition volume_columns : list string :=
  ["Attachments"; "AvailabilityZone"; "CreateTime"; "Encrypted"; "Size";
   "VolumeId"; "Iops"; "VolumeType"; "Throughput"].

(** A period total as a rate per second. *)
Definition rate_dp (d : datapoint) : datapoint :=
  Datapoint (d_Timestamp d) (qdiv (d_Maximum d) (3600 # 1)) (d_Unit d).
Definition rates (ans : string -> list datapoint) (id : string) : list datapoint :=
  rate_dp <$> ans id.

(** The tables of read and write rates, and the volume rows after the two
    joins. *)
Definition read_answers (c : cloud) : string -> list datapoint :=
  answers c "AWS/EBS" "VolumeReadOps" "VolumeId".
Definition write_answers (c : cloud) : string -> list datapoint :=
  answers c "AWS/EBS" "VolumeWriteOps" "VolumeId".
Definition rate_table (ans : string -> list datapoint) (vols : list volume) : DataFrame :=
  mkDF (metric_cols "VolumeId")
       (metric_rows_of (rates ans) "VolumeId" (v_VolumeId <$> vols)).
Definition read_part (c : cloud) (vols : list volume) (l : row) : row :=
  agg_part "VolumeId" "Maximum" read_stats (rate_table (read_answers c) vols) l.
Definition write_part (c : cloud) (vols : list volume) (l : row) : row :=
  agg_part "VolumeId" "Maximum" write_stats (rate_table (write_answers c) vols) l.
Definition joined_row (c : cloud) (vols : list volume) (l : row) : row :=
  (l ∪ read_part c vols l) ∪ write_part c vols (l ∪ read_part c vols l).
Definition joined_ebs (c : cloud) (vols : list volume) : DataFrame :=
  mkDF ((columns (volume_frame vols) ++ read_stats.*2) ++ write_stats.*2)
       (joined_row c vols <$> rows (volume_frame vols)).

(** [df[x] = df[a] + df[b]] when both columns exist. *)
Definition add_columns (x a b : string) (df : DataFrame) : DataFrame :=
  mkDF (add_col (columns df) x)
       ((fun r : row =>
           <[x := cell_add (default NaN (r !! a)) (default NaN (r !! b))]> r) <$> rows df).

(** The API calls of the two programs for the volumes. *)
Definition read_calls (vols : list volume) : list api_call :=
  GetMetricStatistics "AWS/EBS" "VolumeReadOps" "VolumeId" <$> (v_VolumeId <$> vols).
Definition write_calls (vols : list volume) : list api_call :=
  GetMetricStatistics "AWS/EBS" "VolumeWriteOps" "VolumeId" <$> (v_VolumeId <$> vols).
Definition iops_calls (vols : list volume) : list api_call :=
  vols ≫= (fun v => [GetMetricStatistics "AWS/EBS" "VolumeReadOps" "VolumeId" (v_VolumeId v);
                     GetMetricStatistics "AWS/EBS" "VolumeWriteOps" "VolumeId" (v_VolumeId v)]).
Definition read_errors (c : cloud) (vols : list volume) : list (level * string) :=
  fetch_errors c "AWS/EBS" "VolumeReadOps" "VolumeId" (v_VolumeId <$> vols).
Definition write_errors (c : cloud) (vols : list volume) : list (level * string) :=
  fetch_errors c "AWS/EBS" "VolumeWriteOps" "VolumeId" (v_VolumeId <$> vols).

(** Both operands are floats, or both are missing. *)
Definition balanced (a b : string) (r : row) : Prop :=
  (∃ p q, r !! a = Some (Num p) ∧ r !! b = Some (Num q)) ∨
  (r !! a = Some NaN ∧ r !! b = Some NaN).

(** The instance id the class reports for a volume row: that of the first
    attachment. *)
Definition first_attachment (r : row) : cell :=
  match r !! "Attachments" with
  | Some (Atts (a :: _)) => Str (a_InstanceId a)
  | _ => Str ""
  end.
(** The instance id the notebook reports for a volume row, when [L] lists
    the attachments of all volumes in order: that of the last attachment
    naming the volume of the row. *)
Definition last_attachment (L : list attachment) (r : row) : cell :=
  match last (filter (fun w => r !! "VolumeId" = Some (Str (a_VolumeId w))) L) with
  | Some w => Str (a_InstanceId w)
  | None => Str ""
  end.
Definition with_instance_id (f : row -> cell) (df : DataFrame) : DataFrame :=
  mkDF (add_col (columns df) "InstanceId")
       ((fun r : row => <["InstanceId" := f r]> r) <$> rows df).
Definition all_attachments (df : DataFrame) : list attachment :=
  rows df ≫= (fun r : row => match r !! "Attachments" with
                             | Some (Atts l) => l
                             | _ => []
                             end).

(** One turn of the loop of the class, on the row [r] itself. *)
Definition resolved (r : row) : row :=
  match r !! "Attachments" with
  | Some (Atts (a :: _)) => <["InstanceId" := Str (a_InstanceId a)]> r
  | _ => r
  end.

(** The notebook: all assignments of [np.where], in order. *)
Definition where_all (L : list attachment) (df : DataFrame) : DataFrame :=
  foldl (λ d a, Script.where_volume a d) df L.

(** The volume table of each program before the selection of the report
    columns, and the report, when both tables of rates have a row. *)
Definition collector_table (c : cloud) (vols : list volume) : DataFrame :=
  with_instance_id first_attachment
    (add_columns "MeanIOPS" "meanReadIOPS" "meanWriteIOPS"
       (add_columns "MaxIOPS" "maxReadIOPS" "maxWriteIOPS"
          (fillna (Num (0 # 1)) (joined_ebs c vols)))).
Definition script_summed (c : cloud) (vols : list volume) : DataFrame :=
  fillna (Num (0 # 1))
    (add_columns "MeanIOPS" "meanReadIOPS" "meanWriteIOPS"
       (add_columns "MaxIOPS" "maxReadIOPS" "maxWriteIOPS" (joined_ebs c vols))).
Definition script_table (c : cloud) (vols : list volume) : DataFrame :=
  with_instance_id (last_attachment (all_attachments (script_summed c vols)))
    (script_summed c vols).
Definition report_of (table : DataFrame) : DataFrame :=
  mkDF final_columns (restrict final_columns <$> rows table).

(** The row of a volume after the joins, the fill and the sums. *)
Definition summed_row (c : cloud) (vols : list volume) (v : volume) : row :=
  <["MeanIOPS" := cell_add
      (default NaN ((fill (Num (0 # 1)) <$> joined_row c vols
                       (volume_row (columns (volume_frame vols)) v)) !! "meanReadIOPS"))
      (default NaN ((fill (Num (0 # 1)) <$> joined_row c vols
                       (volume_row (columns (volume_frame vols)) v)) !! "meanWriteIOPS"))]>
  (<["MaxIOPS" := cell_add
      (default NaN ((fill (Num (0 # 1)) <$> joined_row c vols
                       (volume_row (columns (volume_frame vols)) v)) !! "maxReadIOPS"))
      (default NaN ((fill (Num (0 # 1)) <$> joined_row c vols
                       (volume_row (columns (volume_frame vols)) v)) !! "maxWriteIOPS"))]>
   (fill (Num (0 # 1)) <$> joined_row c vols (volume_row (columns (volume_frame vols)) v))).

(** Volume ids are distinct and every attachment names its own volume. *)
Definition own_attachments (vs : list volume) : Prop :=
  NoDup (v_VolumeId <$> vs) ∧
  Forall (λ v, Forall (λ a, a_VolumeId a = v_VolumeId v) (v_Attachments v)) vs.

(** The body of the loop of the notebook over the volumes. *)
Definition iops_body (c : cloud) (volid : cell) (acc : DataFrame * DataFrame) :
    M (DataFrame * DataFrame) :=
  dfiops_read ← Script.fetch_one c "AWS/EBS" "VolumeReadOps" "VolumeId" volid acc.1;
  dfiops_write ← Script.fetch_one c "AWS/EBS" "VolumeWriteOps" "VolumeId" volid acc.2;
  mret (dfiops_read, dfiops_write).

(** A computation that leaves the files alone, whatever it returns. *)
Definition keeps_files {A} (m : M A) : Prop :=
  ∀ w r w', m w = (r, w') → files w' = files w.

(** Row [k] of the table is the row of instance [k], with its inventory
    cells unchanged. *)
Definition follows_inventory (xs : list instance) (df : DataFrame) : Prop :=
  List.length (rows df) = List.length xs ∧
  Forall2 (fun i r => inventory_row i ⊆ r) xs (rows df).
Definition no_data (c : cloud) (i : instance) : Prop :=
  answers c "AWS/EC2" "CPUUtilization" "InstanceId" (i_InstanceId i) = [].
Definition zero_aggregates (r : row) : Prop :=
  ∀ n, n ∈ cpu_stats.*2 → r !! n = Some (Num (0 # 1)).
Definition no_aggregates (r : row) : Prop :=
  ∀ n, n ∈ cpu_stats.*2 → r !! n = None.

(** Reading a cell of a table, and of a report a run has written. *)
Definition cell_at (df : DataFrame) (i : nat) (col : string) : option cell :=
  rows df !! i ≫= fun r : row => r !! col.
Definition written (x : res unit * world) (name : string) : option DataFrame :=
  snd <$> List.find (fun f : string * DataFrame => String.eqb f.1 name) (files x.2).
Definition report_cell (x : res unit * world) (name : string) (i : nat)
    (col : string) : option cell :=
  written x name ≫= fun df => cell_at df i col.

(** Lines 51-201 of the notebook, for the volumes alone. *)
Definition notebook_combined (c : cloud) : res DataFrame :=
  fst ((df_v ← Script.volumes_frame c;
        iops ← Script.fetch_iops c df_v;
        Script.combine_ebs df_v iops.1 iops.2) world0).
(** Lines 141-198 of the class, for the volumes alone. *)
Definition collector_combined (c : cloud) : res DataFrame :=
  fst ((df_volumes ← Collector.get_ebs_volumes c;
        volume_ids ← lift (get_column "VolumeId" df_volumes);
        read_ops ← Collector.get_cloudwatch_metrics c "AWS/EBS" "VolumeReadOps" "VolumeId"
                     volume_ids;
        write_ops ← Collector.get_cloudwatch_metrics c "AWS/EBS" "VolumeWriteOps" "VolumeId"
                      volume_ids;
        Collector.combine_ebs df_volumes read_ops write_ops) world0).

(** The columns of [cols] that no record of the response carries: the labels
    a column selection does not find. *)
Definition missing_columns {A} (record : A → list (string * cell)) (xs : list A)
    (cols : list string) : list string :=
  filter (fun col => ¬ Exists (fun x => col ∈ (record x).*1) xs) cols.

(** The rates of a resource: its period totals divided by the period. *)
Definition rate_values (ans : string → list datapoint) (id : string) : list Q :=
  (fun d => qdiv (d_Maximum d) (3600 # 1)) <$> ans id.

(** ** Sample responses *)

Definition sample_instance (id : string) : instance :=
  Instance_ "ami-0abc" id "t3.micro" (Some "ip-10-0-0-1.ec2.internal") (Some "10.0.0.1")
            (Some "") (Some "203.0.113.7").
Definition sample_volume (id : string) (atts : list attachment) : volume :=
  Volume "us-east-1a" 1700000000%Z false 8%Z id (Some 3000%Z) "gp3" (Some 125%Z) atts.
Definition sample_points (totals : list Z) : list datapoint :=
  (fun z => Datapoint 0%Z (inject_Z z) "Count") <$> totals.
Definition sample_cloud (rs : list (list instance)) (vols : list volume)
    (metrics : string -> string -> res (list datapoint)) : cloud :=
  Cloud "us-east-1" (inr rs) (inr vols) (fun _ metric _ id => metrics metric id).

(** Two instances, one without datapoints; two volumes with reads and writes. *)
Definition demo_cloud : cloud :=
  sample_cloud [[sample_instance "i-1"; sample_instance "i-2"]]
    [sample_volume "v-1" [Attachment "i-1" "v-1"]; sample_volume "v-2" []]
    (fun metric id =>
       if decide (metric = "CPUUtilization") then
         if decide (id = "i-1") then inr (sample_points [10; 20; 30]%Z) else inr []
       else if decide (metric = "VolumeReadOps") then inr (sample_points [3600; 7200]%Z)
       else inr (sample_points [3600]%Z)).

(** One instance without datapoints, no volume. *)
Definition idle_cloud : cloud :=
  sample_cloud [[sample_instance "i-1"]] [] (fun _ _ => inr []).

(** One volume with no read datapoint and the write total 3600. *)
Definition write_only_cloud : cloud :=
  sample_cloud [[sample_instance "i-1"]] [sample_volume "v-1" []]
    (fun metric id =>
       if decide (metric = "CPUUtilization") then inr (sample_points [10]%Z)
       else if decide (metric = "VolumeReadOps") then inr []
       else inr (sample_points [3600]%Z)).

(** The same volume next to one that has read datapoints. *)
Definition mixed_cloud : cloud :=
  sample_cloud [[sample_instance "i-1"]]
    [sample_volume "v-1" []; sample_volume "v-2" []]
    (fun metric id =>
       if decide (metric = "CPUUtilization") then inr (sample_points [10]%Z)
       else if decide (metric = "VolumeReadOps") then
         if decide (id = "v-1") then inr [] else inr (sample_points [3600]%Z)
       else inr (sample_points [3600]%Z)).

(** A volume attached to two instances. *)
Definition multi_attach_cloud : cloud :=
  sample_cloud [[sample_instance "i-1"; sample_instance "i-2"]]
    [sample_volume "v-1" [Attachment "i-1" "v-1"; Attachment "i-2" "v-1"]]
    (fun metric id =>
       if decide (metric = "CPUUtilization") then inr (sample_points [10]%Z)
       else inr (sample_points [3600]%Z)).

(** The CPU query of the only instance faults. *)
Definition faulty_cloud : cloud :=
  sample_cloud [[sample_instance "i-1"]] [sample_volume "v-1" []]
    (fun metric id =>
       if decide (metric = "CPUUtilization") then inl (ClientError "Throttling")
       else inr (sample_points [3600]%Z)).

(** The CPU query of the first of two instances faults. *)
Definition half_faulty_cloud : cloud :=
  sample_cloud [[sample_instance "i-1"; sample_instance "i-2"]] [sample_volume "v-1" []]
    (fun metric id =>
       if decide (metric = "CPUUtilization") then
         if decide (id = "i-1") then inl (ClientError "Throttling")
         else inr (sample_points [10; 20; 30]%Z)
       else inr (sample_points [3600]%Z)).

(** The inventory call for the instances faults. *)
Definition instances_down_cloud : cloud :=
  Cloud "us-east-1" (inl (ClientError "RequestLimitExceeded")) (inr [])
        (fun _ _ _ _ => inr []).

(** The inventory call for the volumes faults. *)
Definition volumes_down_cloud : cloud :=
  Cloud "us-east-1" (inr [[sample_instance "i-1"]]) (inl (ClientError "RequestLimitExceeded"))
        (fun _ _ _ _ => inr (sample_points [10]%Z)).

(** One instance with datapoints and no volume. *)
Definition no_volume_cloud : cloud :=
  sample_cloud [[sample_instance "i-1"]] [] (fun _ _ => inr (sample_points [10]%Z)).

(** No instance and no volume. *)
Definition empty_cloud : cloud := sample_cloud [] [] (fun _ _ => inr []).

Definition private_instance (id : string) : instance :=
  Instance_ "ami-0abc" id "t3.micro" (Some "ip-10-0-0-2.ec2.internal") (Some "10.0.0.2")
            (Some "") None.
(** Two reservations; the second instance has no public address. *)
Definition partly_private_cloud : cloud :=
  sample_cloud [[sample_instance "i-1"]; [private_instance "i-2"]]
    [sample_volume "v-1" []] (fun _ _ => inr (sample_points [10]%Z)).
(** No instance has a public address. *)
Definition private_cloud : cloud :=
  sample_cloud [[private_instance "i-1"]; [private_instance "i-2"]]
    [sample_volume "v-1" []] (fun _ _ => inr (sample_points [10]%Z)).

(** The CPU query of the first instance and the read query of the first
    volume fault; everything else answers. *)
Definition isolated_fault_cloud : cloud :=
  sample_cloud [[sample_instance "i-1"; sample_instance "i-2"]]
    [sample_volume "v-1" [Attachment "i-1" "v-1"]; sample_volume "v-2" []]
    (fun metric id =>
       if decide (metric = "CPUUtilization") then
         if decide (id = "i-1") then inl (ClientError "Throttling")
         else inr (sample_points [10; 20; 30]%Z)
       else if decide (metric = "VolumeReadOps") then
         if decide (id = "v-1") then inl (ClientError "Throttling")
         else inr (sample_points [3600]%Z)
       else inr (sample_points [3600]%Z)).

(** The read query of the only volume faults. *)
Definition read_fault_cloud : cloud :=
  sample_cloud [[sample_instance "i-1"]] [sample_volume "v-1" []]
    (fun metric id =>
       if decide (metric = "VolumeReadOps") then inl (ClientError "Throttling")
       else inr (sample_points [3600]%Z)).

(** The world after more log entries, files and API calls. *)
Definition extend (w : world) (lg : list (level * string))
    (fs : list (string * DataFrame)) (cs : list api_call) : world :=
  World (log w ++ lg) (files w ++ fs) (calls w ++ cs).

(** * Facts about the frame operations *)

Section FrameFacts.
Implicit Types (r l : row) (df : DataFrame) (cols : list string) (c k : string).

Lemma elem_of_add_col cols c x : x ∈ add_col cols c ↔ x ∈ cols ∨ x = c.
Proof.
  unfold add_col. case_decide; [|set_solver].
  split; [by left|]. intros [?| ->]; done.
Qed.

Lemma elem_of_union_cols a b x : x ∈ union_cols a b ↔ x ∈ a ∨ x ∈ b.
Proof.
  unfold union_cols. revert a. induction b as [|y b IH]; intros a; simpl.
  - set_solver.
  - rewrite IH, elem_of_add_col. set_solver.
Qed.

Lemma add_col_in cols c : c ∈ cols → add_col cols c = cols.
Proof. intros. unfold add_col. by case_decide. Qed.

Lemma union_cols_subseteq a b : b ⊆ a → union_cols a b = a.
Proof.
  unfold union_cols. induction b as [|y b IH]; intros H; simpl; [done|].
  rewrite add_col_in by set_solver. apply IH. set_solver.
Qed.

Lemma lookup_nan_row cols c :
  nan_row cols !! c = if decide (c ∈ cols) then Some NaN else None.
Proof.
  unfold nan_row. case_decide as H.
  - apply elem_of_list_to_map_1'.
    + intros y Hy. apply list_elem_of_fmap in Hy as (x & [= -> ->] & _). done.
    + apply list_elem_of_fmap. eauto.
  - apply not_elem_of_list_to_map_1. rewrite <- list_fmap_compose.
    intros Hin. apply list_elem_of_fmap in Hin as (x & -> & Hx). done.
Qed.

Lemma lookup_pad cols r c :
  pad cols r !! c =
    match r !! c with
    | Some v => Some v
    | None => if decide (c ∈ cols) then Some NaN else None
    end.
Proof.
  unfold pad. rewrite lookup_union, lookup_nan_row.
  destruct (r !! c); simpl; [by case_decide|]. by case_decide.
Qed.

Lemma pad_id cols r : (∀ c, c ∈ cols → is_Some (r !! c)) → pad cols r = r.
Proof.
  intros H. apply map_eq. intros c. rewrite lookup_pad.
  destruct (r !! c) eqn:E; [done|]. case_decide as Hc; [|done].
  apply H in Hc. rewrite E in Hc. by destruct Hc.
Qed.

Lemma lookup_restrict cols r c :
  restrict cols r !! c =
    if decide (c ∈ cols) then Some (default NaN (r !! c)) else None.
Proof.
  unfold restrict. case_decide as H.
  - apply elem_of_list_to_map_1'.
    + intros y Hy. apply list_elem_of_fmap in Hy as (x & [= -> ->] & _). done.
    + apply list_elem_of_fmap. eauto.
  - apply not_elem_of_list_to_map_1. rewrite <- list_fmap_compose.
    intros Hin. apply list_elem_of_fmap in Hin as (x & -> & Hx). done.
Qed.

Lemma restrict_pad cols cols' r : restrict cols (pad cols' r) = restrict cols r.
Proof.
  apply map_eq. intros c. rewrite !lookup_restrict. case_decide; [|done].
  f_equal. rewrite lookup_pad. destruct (r !! c); [done|]. by case_decide.
Qed.

Lemma lookup_fill_row v r c : (fill v <$> r) !! c = fill v <$> (r !! c).
Proof. apply lookup_fmap. Qed.

Lemma filter_none {A} (P : A → Prop) `{!∀ x, Decision (P x)} (xs : list A) :
  Forall (λ x, ¬ P x) xs → filter P xs = [].
Proof.
  induction 1 as [|x xs Hx _ IH]; [done|].
  rewrite filter_cons_False by done. done.
Qed.

Lemma select_ok cols df :
  cols ⊆ columns df → select cols df = inr (mkDF cols (restrict cols <$> rows df)).
Proof.
  intros H. unfold select. rewrite filter_none; [done|].
  apply Forall_forall. intros c Hc Hn. apply Hn, H, Hc.
Qed.

Lemma select_missing cols df c :
  c ∈ cols → c ∉ columns df → ∃ ms, select cols df = inl (KeyError ms).
Proof.
  intros Hc Hn. unfold select.
  destruct (filter (λ c0, c0 ∉ columns df) cols) as [|m ms] eqn:E; [|eauto].
  exfalso. by apply (filter_nil_not_elem_of _ _ c E Hn).
Qed.

(** *** Grouping *)

Lemma NoDup_group_keys key df : NoDup (group_keys key df).
Proof.
  unfold group_keys. rewrite merge_sort_Permutation. apply NoDup_remove_dups.
Qed.

Lemma elem_of_group_keys key df k :
  k ∈ group_keys key df ↔ ∃ r, r ∈ rows df ∧ key_of key r = Some k.
Proof.
  unfold group_keys. rewrite merge_sort_Permutation, elem_of_remove_dups.
  rewrite list_elem_of_omap. naive_solver.
Qed.

Lemma group_row_key key val stats df k :
  group_row key val stats df k !! key = Some (Str k).
Proof. unfold group_row. simpl. apply lookup_insert_eq. Qed.

Lemma group_row_stat key val stats df k a n :
  key ∉ stats.*2 → NoDup stats.*2 → (a, n) ∈ stats →
  group_row key val stats df k !! n = Some (agg_cell a (group_values key val k df)).
Proof.
  intros Hk Hnd Hin. unfold group_row. simpl.
  rewrite lookup_insert_ne.
  2:{ intros ->. apply Hk. apply list_elem_of_fmap. by exists (a, n). }
  apply elem_of_list_to_map_1.
  - rewrite <- list_fmap_compose. exact Hnd.
  - apply list_elem_of_fmap. by exists (a, n).
Qed.

Lemma group_row_other key val stats df k c :
  c ≠ key → c ∉ stats.*2 → group_row key val stats df k !! c = None.
Proof.
  intros Hk Hn. unfold group_row. simpl. rewrite lookup_insert_ne by done.
  apply not_elem_of_list_to_map_1. by rewrite <- list_fmap_compose.
Qed.

Lemma filter_group_rows key val stats df (x : option cell) keys :
  NoDup keys →
  filter (λ r : row, r !! key = x) (group_row key val stats df <$> keys) =
    match x with
    | Some (Str k) =>
        if decide (k ∈ keys) then [group_row key val stats df k] else []
    | _ => []
    end.
Proof.
  induction 1 as [|k' keys Hk' Hnd IH].
  - by destruct x as [[]|].
  - rewrite fmap_cons, filter_cons, group_row_key, IH. clear IH.
    destruct (decide (Some (Str k') = x)) as [<-|E].
    + repeat case_decide; try done; set_solver.
    + destruct x as [[| | |k| | |]|]; try done.
      repeat case_decide; try done; set_solver.
Qed.

Lemma groupby_agg_ok key val stats df :
  key ∈ columns df → val ∈ columns df →
  groupby_agg key val stats df =
    inr (mkDF (key :: stats.*2) (group_row key val stats df <$> group_keys key df)).
Proof. intros. unfold groupby_agg. by rewrite !decide_True. Qed.

(** *** Left join with a table of aggregates *)

Lemma right_cols_grouped key (names : list string) (rs : list row) :
  key ∉ names → right_cols key (mkDF (key :: names) rs) = names.
Proof.
  intros Hk. unfold right_cols. simpl. rewrite filter_cons_False by naive_solver.
  induction names as [|n names IH]; [done|].
  rewrite filter_cons_True by set_solver. f_equal. apply IH. set_solver.
Qed.

Lemma merge_left_grouped key val stats left df :
  key ∈ columns left → key ∉ stats.*2 →
  merge_left key left
    (mkDF (key :: stats.*2) (group_row key val stats df <$> group_keys key df)) =
  inr (mkDF (columns left ++ stats.*2)
            ((λ l, l ∪ agg_part key val stats df l) <$> rows left)).
Proof.
  intros Hl Hk. unfold merge_left. rewrite decide_True by done.
  rewrite decide_True by (simpl; set_solver). f_equal.
  rewrite right_cols_grouped by done. f_equal.
  induction (rows left) as [|l ls IH]; [done|].
  rewrite bind_cons, IH, fmap_cons. rewrite <- (app_nil_l (_ <$> ls)) at 2.
  rewrite app_comm_cons. f_equal.
  unfold join_row, agg_part. simpl.
  rewrite filter_group_rows by apply NoDup_group_keys.
  rewrite right_cols_grouped by done.
  destruct (l !! key) as [[| | |k| | |]|]; try done.
  by case_decide.
Qed.
End FrameFacts.

(** * Facts about computations and the metric queries *)

Section MonadFacts.
Lemma bind_run {A B} (m : M A) (f : A → M B) w :
  (m ≫= f) w = match m w with
               | (inl e, w') => (inl e, w')
               | (inr a, w') => f a w'
               end.
Proof. reflexivity. Qed.

Lemma for_each_cons {A S} (x : A) l (body : A → S → M S) s w :
  for_each (x :: l) body s w =
    match body x s w with
    | (inl e, w') => (inl e, w')
    | (inr s', w') => for_each l body s' w'
    end.
Proof. reflexivity. Qed.
End MonadFacts.

Section MetricFrames.
Implicit Types (df : DataFrame).

Lemma union_cols_nil b : NoDup b → union_cols [] b = b.
Proof.
  intros Hb. unfold union_cols.
  enough (∀ a, NoDup (a ++ b) → foldl add_col a b = a ++ b) as H by exact (H [] Hb).
  clear Hb. induction b as [|y b IH]; intros a Ha; simpl.
  - by rewrite app_nil_r.
  - unfold add_col at 2. rewrite decide_False.
    + rewrite IH; rewrite <- app_assoc; done.
    + apply NoDup_app in Ha as (_ & Ha & _). intros Hy. apply (Ha y Hy). left.
Qed.


Lemma from_datapoints (ds : list datapoint) :
  ds ≠ [] →
  from_records (datapoint_record <$> ds) =
    mkDF dp_cols ((fun d => list_to_map (datapoint_record d)) <$> ds).
Proof.
  intros Hne. unfold from_records.
  assert (foldl (λ acc d, union_cols acc d.*1) [] (datapoint_record <$> ds) = dp_cols) as ->.
  { destruct ds as [|d ds]; [done|]. simpl. change (union_cols [] _) with dp_cols.
    clear Hne. induction ds as [|d' ds IH]; [done|]. exact IH. }
  f_equal. rewrite <- list_fmap_compose. apply list_fmap_ext. intros _ d _. simpl.
  apply pad_id. intros x Hx. unfold dp_cols in Hx.
  repeat (apply elem_of_cons in Hx as [->|Hx]); [by eexists..|].
  by apply elem_of_nil in Hx.
Qed.

Lemma fetched_frame dim id (ds : list datapoint) :
  fetched_table dim id ds =
    match ds with
    | [] => mkDF [dim] []
    | _ => mkDF (metric_cols dim) (dp_row dim id <$> ds)
    end.
Proof.
  unfold fetched_table. destruct ds as [|d ds]; [done|].
  rewrite from_datapoints by done. unfold set_scalar. simpl. f_equal.
  by rewrite <- list_fmap_compose.
Qed.

Lemma dp_row_full dim id d x : x ∈ metric_cols dim → is_Some (dp_row dim id d !! x).
Proof.
  unfold metric_cols, dp_row. rewrite elem_of_add_col.
  destruct (decide (x = dim)) as [->|Hne].
  - intros _. rewrite lookup_insert_eq. by eexists.
  - intros [Hx|?]; [|done]. rewrite lookup_insert_ne by done.
    unfold dp_cols in Hx.
    repeat (apply elem_of_cons in Hx as [->|Hx]); [by eexists..|].
    by apply elem_of_nil in Hx.
Qed.

Lemma metric_frame_empty dim : metric_frame dim empty_df.
Proof. split_and!; [set_solver|by constructor|done]. Qed.

Lemma metric_frame_fetched dim id ds : metric_frame dim (fetched_table dim id ds).
Proof.
  rewrite fetched_frame. destruct ds as [|d ds].
  - split_and!; [|by constructor|done]. simpl. intros x Hx.
    apply list_elem_of_singleton in Hx as ->. apply elem_of_add_col. by right.
  - split_and!; [done| |done]. cbn [rows].
    apply Forall_fmap, Forall_forall. intros d' _ x Hx. by apply dp_row_full.
Qed.

Lemma metric_frame_concat dim a b :
  metric_frame dim a → metric_frame dim b →
  metric_frame dim (pd_concat a b) ∧ rows (pd_concat a b) = rows a ++ rows b.
Proof.
  intros (Ha1 & Ha2 & Ha3) (Hb1 & Hb2 & Hb3).
  assert (rows (pd_concat a b) = rows a ++ rows b) as Hrows.
  { unfold pd_concat. simpl. rewrite <- (list_fmap_id (rows a ++ rows b)) at 2.
    apply Forall_fmap_ext_1. rewrite Forall_app. split.
    - eapply Forall_impl; [exact Ha2|]. intros r Hr. apply pad_id. intros x Hx.
      apply Hr. apply elem_of_union_cols in Hx as [?|?]; auto.
    - eapply Forall_impl; [exact Hb2|]. intros r Hr. apply pad_id. intros x Hx.
      apply Hr. apply elem_of_union_cols in Hx as [?|?]; auto. }
  split; [|done]. split_and!.
  - intros x Hx. unfold pd_concat in Hx. simpl in Hx.
    apply elem_of_union_cols in Hx as [?|?]; auto.
  - rewrite Hrows. by apply Forall_app.
  - rewrite Hrows. intros Hne x Hx. unfold pd_concat. simpl.
    apply elem_of_union_cols.
    destruct (rows a) as [|r ra] eqn:Ea.
    + right. apply Hb3; [|done]. by destruct (rows b).
    + left. by apply Ha3.
Qed.

(** A table of datapoints is empty exactly when it has no row. *)
Lemma metric_frame_df_empty dim df :
  metric_frame dim df → df_empty df = bool_decide (rows df = []).
Proof.
  intros (_ & _ & H). unfold df_empty.
  destruct (rows df) as [|r rs] eqn:E.
  - by rewrite orb_true_r.
  - rewrite orb_false_r. apply bool_decide_ext. split; [|done].
    intros Hc. assert ("Maximum" ∈ columns df) as Hin.
    { apply H; [done|]. apply elem_of_add_col. left. set_solver. }
    rewrite Hc in Hin. by apply elem_of_nil in Hin.
Qed.
End MetricFrames.

Section Fetching.
Variable c : cloud.
Implicit Types (df acc : DataFrame) (w : world) (ids : list string).

Lemma extend_nil w : extend w [] [] [] = w.
Proof. destruct w. unfold extend. simpl. by rewrite !app_nil_r. Qed.

Lemma extend_extend w l1 f1 c1 l2 f2 c2 :
  extend (extend w l1 f1 c1) l2 f2 c2 = extend w (l1 ++ l2) (f1 ++ f2) (c1 ++ c2).
Proof. unfold extend. simpl. by rewrite !app_assoc. Qed.

Lemma called_run a w : called a w = (inr tt, extend w [] [] [a]).
Proof. destruct w. unfold called, extend. simpl. by rewrite !app_nil_r. Qed.
Lemma logger_run lvl msg w : logger lvl msg w = (inr tt, extend w [(lvl, msg)] [] []).
Proof. destruct w. unfold logger, extend. simpl. by rewrite !app_nil_r. Qed.
Lemma to_csv_run name df w : to_csv name df w = (inr tt, extend w [] [(name, df)] []).
Proof. destruct w. unfold to_csv, extend. simpl. by rewrite !app_nil_r. Qed.

Lemma collector_fetch_one ns m dim id acc w :
  metric_frame dim acc →
  ∃ df, Collector.fetch_one c ns m dim (Str id) acc w =
          (inr df, extend w (fetch_errors c ns m dim [id]) []
                     [GetMetricStatistics ns m dim id])
        ∧ metric_frame dim df
        ∧ rows df = rows acc ++ (dp_row dim id <$> answers c ns m dim id).
Proof.
  intros Hacc.
  unfold Collector.fetch_one, try_except, api_get_metric_statistics.
  rewrite bind_run, bind_run, called_run. unfold lift, fetch_errors, answers.
  unfold mret, M_ret, ret.
  simpl. destruct (get_metric_statistics c ns m dim id) as [e|[|d ds]] eqn:E.
  - exists acc. rewrite bind_run, logger_run, extend_extend. simpl.
    split_and!; [done|done|by rewrite app_nil_r].
  - exists acc. split_and!; [done|done|by rewrite app_nil_r].
  - exists (pd_concat acc (fetched_table dim id (d :: ds))). split; [done|].
    pose proof (metric_frame_concat dim acc _ Hacc
                  (metric_frame_fetched dim id (d :: ds))) as [H1 H2].
    split; [exact H1|]. rewrite H2, fetched_frame. done.
Qed.

Lemma collector_get_metrics ns m dim ids w :
  ∃ df, Collector.get_cloudwatch_metrics c ns m dim (Str <$> ids) w =
          (inr df, extend w (fetch_errors c ns m dim ids) []
                     (GetMetricStatistics ns m dim <$> ids))
        ∧ metric_frame dim df
        ∧ rows df = metric_rows c ns m dim ids.
Proof.
  unfold Collector.get_cloudwatch_metrics.
  enough (∀ acc w, metric_frame dim acc →
    ∃ df, for_each (Str <$> ids) (Collector.fetch_one c ns m dim) acc w =
            (inr df, extend w (fetch_errors c ns m dim ids) []
                       (GetMetricStatistics ns m dim <$> ids))
          ∧ metric_frame dim df
          ∧ rows df = rows acc ++ metric_rows c ns m dim ids) as H.
  { apply H, metric_frame_empty. }
  clear w. induction ids as [|id ids IH]; intros acc w Hacc.
  - exists acc. simpl. unfold mret, M_ret, ret. rewrite extend_nil.
    split_and!; [done|done|]. unfold metric_rows, metric_rows_of. simpl. by rewrite app_nil_r.
  - rewrite fmap_cons, for_each_cons.
    destruct (collector_fetch_one ns m dim id acc w Hacc) as (df1 & -> & Hf1 & Hr1).
    destruct (IH df1 (extend w (fetch_errors c ns m dim [id]) []
                       [GetMetricStatistics ns m dim id]) Hf1) as (df & -> & Hf & Hr).
    exists df. rewrite extend_extend. split_and!; [|done|].
    + f_equal. f_equal. unfold fetch_errors. simpl. by rewrite app_nil_r.
    + rewrite Hr, Hr1. unfold metric_rows, metric_rows_of. simpl. by rewrite app_assoc.
Qed.

(** The notebook has no handler: a fault leaves the loop. *)
Lemma script_fetch_one ns m dim id acc w :
  Script.fetch_one c ns m dim (Str id) acc w =
    match get_metric_statistics c ns m dim id with
    | inl e => (inl e, extend w [] [] [GetMetricStatistics ns m dim id])
    | inr ds => (inr (pd_concat acc (fetched_table dim id ds)),
                 extend w [] [] [GetMetricStatistics ns m dim id])
    end.
Proof.
  unfold Script.fetch_one, api_get_metric_statistics.
  rewrite bind_run, bind_run, called_run. unfold lift.
  by destruct (get_metric_statistics c ns m dim id).
Qed.
End Fetching.

(** * The instance inventory and the EC2 table *)

Section Inventory.
Variable c : cloud.
Implicit Types (df acc : DataFrame) (w : world).

Lemma elem_of_record_columns (acc : list string) (recs : list (list (string * cell))) col :
  col ∈ foldl (λ a d, union_cols a d.*1) acc recs ↔
  col ∈ acc ∨ Exists (λ d, col ∈ d.*1) recs.
Proof.
  revert acc. induction recs as [|d recs IH]; intros acc; simpl.
  - rewrite Exists_nil. tauto.
  - rewrite IH, elem_of_union_cols, Exists_cons. tauto.
Qed.

Lemma from_records_columns {A} (record : A → list (string * cell)) xs col :
  col ∈ columns (from_records (record <$> xs)) ↔ has_column record xs col.
Proof.
  unfold from_records, has_column. simpl. rewrite elem_of_record_columns.
  rewrite Exists_fmap. split; [intros [H|H]; [by apply elem_of_nil in H|done]|auto].
Qed.

Lemma inventory_row_eq i :
  fill (Str "") <$> restrict ec2_columns (list_to_map (instance_record i)) =
    inventory_row i.
Proof.
  destruct i as [a b t [p1|] [p2|] [p3|] [p4|]]; reflexivity.
Qed.

Lemma instance_frame_empty (xs : list instance) :
  df_empty (from_records (instance_record <$> xs)) = bool_decide (xs = []).
Proof.
  destruct xs as [|x xs]; [done|]. rewrite bool_decide_eq_false_2 by done.
  unfold df_empty. rewrite orb_false_iff. split; [|done].
  apply bool_decide_eq_false_2. intros Hc.
  assert ("ImageId" ∈ columns (from_records (instance_record <$> x :: xs))) as Hin.
  { apply from_records_columns. left. set_solver. }
  rewrite Hc in Hin. by apply elem_of_nil in Hin.
Qed.

Lemma instance_rows (xs : list instance) cols :
  (λ r : row, fill (Str "") <$> r) <$>
    (restrict ec2_columns <$> ((λ d, pad cols (list_to_map d)) <$> (instance_record <$> xs)))
  = inventory_row <$> xs.
Proof.
  rewrite <- !list_fmap_compose. apply list_fmap_ext. intros _ i _.
  unfold compose. by rewrite restrict_pad, inventory_row_eq.
Qed.

Lemma collector_instances_ok rs w :
  describe_instances c = inr rs → List.concat rs ≠ [] →
  Forall (has_column instance_record (List.concat rs)) ec2_columns →
  Collector.get_ec2_instances c w =
    (inr (instance_frame (List.concat rs)), extend w [] [] [DescribeInstances]).
Proof.
  intros Hrs Hne Hcols.
  unfold Collector.get_ec2_instances, try_except, api_describe_instances.
  rewrite bind_run, bind_run, called_run, Hrs. unfold lift.
  rewrite instance_frame_empty, bool_decide_eq_false_2 by done.
  rewrite bind_run. rewrite select_ok.
  2:{ intros col Hcol. apply from_records_columns.
      by apply (proj1 (Forall_forall _ _) Hcols). }
  unfold mret, M_ret, ret, fillna, instance_frame. simpl.
  by rewrite instance_rows.
Qed.

Lemma collector_instances_none rs w :
  describe_instances c = inr rs → List.concat rs = [] →
  Collector.get_ec2_instances c w =
    (inr empty_df,
     extend w [(INFO, "No EC2 instances found in region " +:+ region_name c)] []
            [DescribeInstances]).
Proof.
  intros Hrs He.
  unfold Collector.get_ec2_instances, try_except, api_describe_instances.
  rewrite bind_run, bind_run, called_run, Hrs. unfold lift.
  rewrite instance_frame_empty, bool_decide_eq_true_2 by done.
  rewrite bind_run, logger_run, extend_extend. done.
Qed.

Lemma collector_instances_fault e w :
  describe_instances c = inl e →
  Collector.get_ec2_instances c w =
    (inl e,
     extend w [(ERROR, "Error retrieving EC2 instances: " +:+ exn_str e)] []
            [DescribeInstances]).
Proof.
  intros He.
  unfold Collector.get_ec2_instances, try_except, api_describe_instances.
  rewrite bind_run, bind_run, called_run, He. unfold lift.
  rewrite bind_run, logger_run, extend_extend. done.
Qed.

Lemma agg_part_rows key val stats (a b : DataFrame) l :
  rows a = rows b → agg_part key val stats a l = agg_part key val stats b l.
Proof.
  intros H. unfold agg_part, group_keys, group_row, group_values. by rewrite H.
Qed.

Lemma instance_ids (xs : list instance) :
  get_column "InstanceId" (instance_frame xs) = inr (Str <$> (i_InstanceId <$> xs)).
Proof.
  unfold get_column. rewrite decide_True by (simpl; set_solver). f_equal.
  simpl. rewrite <- !list_fmap_compose. apply list_fmap_ext. by intros _ i _.
Qed.

Lemma collector_process_ec2 (xs : list instance) w :
  xs ≠ [] →
  Collector.process_ec2_metrics c (instance_frame xs) w =
    (inr (ec2_report c xs), extend w (cpu_errors c xs) [] (cpu_calls xs)).
Proof.
  intros Hne. unfold Collector.process_ec2_metrics.
  assert (df_empty (instance_frame xs) = false) as ->.
  { unfold df_empty. simpl. by destruct xs. }
  rewrite bind_run, instance_ids. unfold lift at 1. rewrite bind_run.
  destruct (collector_get_metrics c "AWS/EC2" "CPUUtilization" "InstanceId"
              (i_InstanceId <$> xs) w) as (df & -> & Hf & Hr).
  rewrite (metric_frame_df_empty _ _ Hf). fold (cpu_errors c xs) (cpu_calls xs).
  unfold ec2_report. simpl. rewrite Hr.
  destruct (decide (metric_rows c "AWS/EC2" "CPUUtilization" "InstanceId"
                      (i_InstanceId <$> xs) = [])) as [E|E].
  - by rewrite bool_decide_eq_true_2.
  - rewrite bool_decide_eq_false_2 by done. simpl.
    destruct Hf as (_ & _ & Hc). rewrite Hr in Hc. specialize (Hc E).
    rewrite bind_run. unfold lift.
    rewrite groupby_agg_ok.
    2:{ apply Hc, elem_of_add_col. by right. }
    2:{ apply Hc, elem_of_add_col. left. set_solver. }
    rewrite bind_run, merge_left_grouped; [|simpl; set_solver|simpl; set_solver].
    unfold mret, M_ret, ret, fillna, joined_ec2. simpl. do 3 f_equal.
    rewrite <- !list_fmap_compose. apply list_fmap_ext. intros _ i _. simpl.
    unfold ec2_row. do 2 f_equal. apply agg_part_rows. by rewrite Hr.
Qed.
End Inventory.

Section MetricGroups.
Variable ans : string → list datapoint.
Variable dim : string.
Hypothesis dim_fresh : dim ∉ dp_cols.

Lemma key_of_dp_row id d : key_of dim (dp_row dim id d) = Some id.
Proof. unfold key_of, dp_row. by rewrite lookup_insert_eq. Qed.

Lemma maximum_dp_row id d :
  dp_row dim id d !! "Maximum" ≫= cell_num = Some (d_Maximum d).
Proof.
  unfold dp_row. rewrite lookup_insert_ne; [done|].
  intros ->. apply dim_fresh. set_solver.
Qed.

Lemma omap_cons_eq {A B} (f : A → option B) x l :
  omap f (x :: l) = match f x with Some y => y :: omap f l | None => omap f l end.
Proof. done. Qed.

Lemma elem_of_metric_rows r ids :
  r ∈ metric_rows_of ans dim ids ↔
  ∃ id d, id ∈ ids ∧ d ∈ ans id ∧ r = dp_row dim id d.
Proof.
  unfold metric_rows_of. rewrite list_elem_of_bind. split.
  - intros (id & Hr & Hid). apply list_elem_of_fmap in Hr as (d & -> & Hd). eauto.
  - intros (id & d & Hid & Hd & ->). exists id. split; [|done].
    apply list_elem_of_fmap. eauto.
Qed.

Lemma metric_group_keys cols ids k :
  k ∈ group_keys dim (mkDF cols (metric_rows_of ans dim ids)) ↔
  k ∈ ids ∧ ans k ≠ [].
Proof.
  rewrite elem_of_group_keys. simpl. split.
  - intros (r & Hr & Hk). apply elem_of_metric_rows in Hr as (id & d & Hid & Hd & ->).
    rewrite key_of_dp_row in Hk. injection Hk as <-. split; [done|].
    intros E. rewrite E in Hd. by apply elem_of_nil in Hd.
  - intros [Hk Hne]. destruct (ans k) as [|d ds] eqn:E; [done|].
    exists (dp_row dim k d). split; [|apply key_of_dp_row].
    apply elem_of_metric_rows. exists k, d. rewrite E. split_and!; [done|left|done].
Qed.

Lemma metric_group_values cols ids k :
  group_values dim "Maximum" k (mkDF cols (metric_rows_of ans dim ids)) =
    filter (λ id, id = k) ids ≫= (λ id, d_Maximum <$> ans id).
Proof.
  unfold group_values, metric_rows_of. simpl.
  induction ids as [|id ids IH]; [done|].
  rewrite bind_cons, filter_app, omap_app, IH. clear IH.
  rewrite filter_cons. destruct (decide (id = k)) as [->|Hne].
  - rewrite bind_cons. f_equal.
    induction (ans k) as [|d ds IH]; [done|].
    rewrite fmap_cons, filter_cons_True by (by rewrite key_of_dp_row).
    rewrite omap_cons_eq, maximum_dp_row, IH. done.
  - rewrite <- (app_nil_l (_ ≫= _)) at 2. f_equal.
    induction (ans id) as [|d ds IH]; [done|].
    rewrite fmap_cons, filter_cons_False; [done|].
    rewrite key_of_dp_row. congruence.
Qed.

Lemma metric_group_values_unique cols ids k :
  NoDup ids → k ∈ ids →
  group_values dim "Maximum" k (mkDF cols (metric_rows_of ans dim ids)) =
    d_Maximum <$> ans k.
Proof.
  intros Hnd Hk. rewrite metric_group_values.
  assert (filter (λ id, id = k) ids = [k]) as ->; [|simpl; by rewrite app_nil_r].
  induction Hnd as [|id ids Hid Hnd IH]; [by apply elem_of_nil in Hk|].
  rewrite filter_cons. destruct (decide (id = k)) as [->|Hne].
  - f_equal. apply filter_none. apply Forall_forall. intros x Hx ->. done.
  - apply IH. apply elem_of_cons in Hk as [->|]; done.
Qed.

Lemma metric_rows_nil ids :
  metric_rows_of ans dim ids = [] ↔ ∀ id, id ∈ ids → ans id = [].
Proof.
  clear dim_fresh. unfold metric_rows_of. induction ids as [|id ids IH]; [set_solver|].
  rewrite bind_cons, app_nil, IH. split.
  - intros [H1 H2] id' [->|Hid]%elem_of_cons; [by apply fmap_nil_inv in H1|auto].
  - intros H. split; [rewrite H by left; done|]. intros id' Hid. apply H. by right.
Qed.
End MetricGroups.

Section Ec2Rows.
Variable c : cloud.

Lemma inventory_row_filled i v : map_Forall (λ _ x, fill v x = x) (inventory_row i).
Proof.
  unfold inventory_row. simpl.
  repeat (apply map_Forall_insert_2; [done|]). apply map_Forall_empty.
Qed.

Lemma inventory_row_stats i n : n ∈ cpu_stats.*2 → inventory_row i !! n = None.
Proof.
  simpl. intros Hn.
  repeat (apply elem_of_cons in Hn as [->|Hn]); [done..|]. by apply elem_of_nil in Hn.
Qed.

Lemma inventory_row_id i : inventory_row i !! "InstanceId" = Some (Str (i_InstanceId i)).
Proof. done. Qed.

(** The join and the fill leave the inventory cells of a row as they are. *)
Lemma ec2_row_inventory xs i : inventory_row i ⊆ ec2_row c xs i.
Proof.
  apply map_subseteq_spec. intros col v Hv. unfold ec2_row.
  rewrite lookup_fmap, (lookup_union_Some_l _ _ _ v Hv). simpl. f_equal.
  by apply (inventory_row_filled i (Num (0 # 1)) col v).
Qed.

Lemma ec2_report_rows xs :
  Forall2 (λ i r, inventory_row i ⊆ r) xs (rows (ec2_report c xs)).
Proof.
  unfold ec2_report. case_decide; simpl; apply Forall2_fmap_r, Forall_Forall2_diag,
    Forall_forall; intros i _; unfold compose; [reflexivity|apply ec2_row_inventory].
Qed.

(** An instance without datapoints: every aggregate column is zero. *)
Lemma ec2_row_no_data xs i n :
  answers c "AWS/EC2" "CPUUtilization" "InstanceId" (i_InstanceId i) = [] →
  n ∈ cpu_stats.*2 → ec2_row c xs i !! n = Some (Num (0 # 1)).
Proof.
  intros Hno Hn. unfold ec2_row.
  rewrite lookup_fmap, lookup_union_r by by apply inventory_row_stats.
  unfold agg_part. rewrite inventory_row_id.
  rewrite decide_False.
  2:{ unfold cpu_table, metric_rows. rewrite metric_group_keys by (vm_compute; set_solver).
      intros [_ H]. done. }
  rewrite lookup_nan_row, decide_True by done. done.
Qed.
End Ec2Rows.

(** * The notebook: instances and CPU datapoints *)

Section ScriptEc2.
Variable c : cloud.
Implicit Types (df acc : DataFrame) (w : world).

Lemma script_fold_columns acc rs col :
  col ∈ columns (script_fold acc rs) ↔
  col ∈ columns acc ∨ has_column instance_record (List.concat rs) col.
Proof.
  unfold script_fold. revert acc. induction rs as [|j rs IH]; intros acc.
  - simpl. unfold has_column. rewrite Exists_nil. tauto.
  - cbn [foldl List.concat]. rewrite IH. unfold pd_concat at 1. cbn [columns].
    rewrite elem_of_union_cols, from_records_columns.
    unfold has_column. rewrite Exists_app. tauto.
Qed.

Lemma script_fold_rows acc rs :
  restrict ec2_columns <$> rows (script_fold acc rs) =
    (restrict ec2_columns <$> rows acc) ++
    ((λ i, restrict ec2_columns (list_to_map (instance_record i))) <$> List.concat rs).
Proof.
  unfold script_fold. revert acc. induction rs as [|j rs IH]; intros acc.
  - simpl. by rewrite app_nil_r.
  - cbn [foldl List.concat]. rewrite IH. unfold pd_concat at 1. cbn [rows].
    rewrite !fmap_app, <- app_assoc. f_equal; [|f_equal].
    + rewrite <- list_fmap_compose. apply list_fmap_ext. intros _ r _. apply restrict_pad.
    + unfold from_records. cbn [rows]. rewrite <- !list_fmap_compose.
      apply list_fmap_ext. intros _ i _. unfold compose. by rewrite !restrict_pad.
Qed.

Lemma script_instances_ok rs w :
  describe_instances c = inr rs →
  Forall (has_column instance_record (List.concat rs)) ec2_columns →
  Script.instances_frame c w =
    (inr (instance_frame (List.concat rs)), extend w [] [] [DescribeInstances]).
Proof.
  intros Hrs Hcols. unfold Script.instances_frame, api_describe_instances.
  rewrite bind_run, bind_run, called_run, Hrs. unfold lift.
  fold (script_fold empty_df rs). rewrite bind_run, select_ok.
  2:{ intros col Hcol. apply script_fold_columns. right.
      by apply (proj1 (Forall_forall _ _) Hcols). }
  unfold mret, M_ret, ret, fillna, instance_frame. simpl. do 3 f_equal.
  rewrite script_fold_rows. simpl. rewrite <- !list_fmap_compose.
  apply list_fmap_ext. intros _ i _. unfold compose. apply inventory_row_eq.
Qed.

Lemma script_instances_missing rs w :
  describe_instances c = inr rs →
  ¬ Forall (has_column instance_record (List.concat rs)) ec2_columns →
  ∃ ms, Script.instances_frame c w =
          (inl (KeyError ms), extend w [] [] [DescribeInstances]).
Proof.
  intros Hrs Hcols. apply not_Forall_Exists in Hcols; [|apply _].
  apply Exists_exists in Hcols as (col & Hcol & Hno).
  unfold Script.instances_frame, api_describe_instances.
  rewrite bind_run, bind_run, called_run, Hrs. unfold lift.
  fold (script_fold empty_df rs). rewrite bind_run.
  destruct (select_missing ec2_columns (script_fold empty_df rs) col) as [ms ->].
  - done.
  - rewrite script_fold_columns. intros [H|H]; [by apply elem_of_nil in H|done].
  - by exists ms.
Qed.

Lemma script_instances_fault e w :
  describe_instances c = inl e →
  Script.instances_frame c w = (inl e, extend w [] [] [DescribeInstances]).
Proof.
  intros He. unfold Script.instances_frame, api_describe_instances.
  by rewrite bind_run, bind_run, called_run, He.
Qed.

(** The loop of the notebook over the resources [ids]. *)
Lemma script_fetch_step dim id ds acc :
  dim ∉ dp_cols →
  metric_frame dim acc → ("Maximum" ∈ columns acc → rows acc ≠ []) →
  let df := pd_concat acc (fetched_table dim id ds) in
  metric_frame dim df
  ∧ ("Maximum" ∈ columns df → rows df ≠ [])
  ∧ rows df = rows acc ++ (dp_row dim id <$> ds)
  ∧ dim ∈ columns df.
Proof.
  intros Hdim Hacc Hmax df.
  destruct (metric_frame_concat dim acc _ Hacc (metric_frame_fetched dim id ds))
    as [H1 H2].
  assert (rows df = rows acc ++ (dp_row dim id <$> ds)) as Hrows.
  { unfold df. rewrite H2, fetched_frame. by destruct ds. }
  split_and!; [done| |done|].
  - rewrite Hrows. unfold df, pd_concat. cbn [columns].
    rewrite elem_of_union_cols, fetched_frame. intros [Hin|Hin].
    + apply Hmax in Hin. by destruct (rows acc).
    + destruct ds as [|d ds]; [|by destruct (rows acc)].
      apply list_elem_of_singleton in Hin. subst dim. exfalso. apply Hdim. set_solver.
  - unfold df, pd_concat. cbn [columns]. apply elem_of_union_cols. right.
    rewrite fetched_frame. destruct ds; [set_solver|]. apply elem_of_add_col. by right.
Qed.

Lemma script_fetch ns m dim ids acc w :
  dim ∉ dp_cols →
  metric_frame dim acc → ("Maximum" ∈ columns acc → rows acc ≠ []) →
  (Forall (λ id, ¬ faults c ns m dim id) ids ∧
   ∃ df, for_each (Str <$> ids) (Script.fetch_one c ns m dim) acc w =
           (inr df, extend w [] [] (GetMetricStatistics ns m dim <$> ids))
         ∧ metric_frame dim df
         ∧ ("Maximum" ∈ columns df → rows df ≠ [])
         ∧ rows df = rows acc ++ metric_rows c ns m dim ids
         ∧ (dim ∈ columns acc ∨ ids ≠ [] → dim ∈ columns df)) ∨
  (Exists (faults c ns m dim) ids ∧
   ∃ e w', for_each (Str <$> ids) (Script.fetch_one c ns m dim) acc w = (inl e, w')).
Proof.
  intros Hdim. revert acc w. induction ids as [|id ids IH]; intros acc w Hacc Hmax.
  - left. split; [constructor|]. exists acc. simpl. unfold mret, M_ret, ret.
    rewrite extend_nil. unfold metric_rows, metric_rows_of. simpl. rewrite app_nil_r.
    split_and!; try done. by intros [?|?].
  - rewrite fmap_cons, for_each_cons, script_fetch_one.
    destruct (get_metric_statistics c ns m dim id) as [e|ds] eqn:E.
    + right. split; [left; by exists e|]. eauto.
    + destruct (script_fetch_step dim id ds acc Hdim Hacc Hmax) as (Hf1 & Hmax1 & Hr1 & Hd1).
      destruct (IH _ (extend w [] [] [GetMetricStatistics ns m dim id]) Hf1 Hmax1)
        as [(Hall & df & -> & Hf & Hm & Hr & Hd)|(Hex & e & w' & ->)].
      * left. split.
        { constructor; [|done]. intros [e He]. congruence. }
        exists df. rewrite extend_extend. split_and!; try done.
        -- rewrite Hr, Hr1. unfold metric_rows, metric_rows_of, answers. simpl. rewrite E.
           by rewrite app_assoc.
        -- intros _. apply Hd. by left.
      * right. split; [by right|]. eauto.
Qed.
End ScriptEc2.

Section Ec2Part.
Variable c : cloud.
Implicit Types (df acc : DataFrame) (w : world) (xs : list instance).

Lemma instance_frame_nonempty xs : xs ≠ [] → df_empty (instance_frame xs) = false.
Proof. intros. unfold df_empty. simpl. by destruct xs. Qed.

Lemma collector_ec2_part_ok rs w :
  describe_instances c = inr rs → List.concat rs ≠ [] →
  Forall (has_column instance_record (List.concat rs)) ec2_columns →
  Collector.ec2_part c w =
    (inr tt,
     extend w
       ([(INFO, "Retrieving EC2 instances...")] ++ cpu_errors c (List.concat rs)
        ++ [(INFO, "EC2 report generated successfully")])
       [(Collector.ec2_report_name c, ec2_report c (List.concat rs))]
       (DescribeInstances :: cpu_calls (List.concat rs))).
Proof.
  intros Hrs Hne Hcols. unfold Collector.ec2_part.
  rewrite bind_run, logger_run, bind_run.
  rewrite (collector_instances_ok c rs _ Hrs Hne Hcols).
  rewrite instance_frame_nonempty by done. cbn [negb].
  rewrite bind_run, collector_process_ec2 by done.
  rewrite bind_run, to_csv_run, logger_run, !extend_extend.
  f_equal. f_equal; rewrite ?app_nil_r, <- ?app_assoc. all: done.
Qed.

Lemma collector_ec2_part_none rs w :
  describe_instances c = inr rs → List.concat rs = [] →
  Collector.ec2_part c w =
    (inr tt,
     extend w
       [(INFO, "Retrieving EC2 instances...");
        (INFO, "No EC2 instances found in region " +:+ region_name c)]
       [] [DescribeInstances]).
Proof.
  intros Hrs He. unfold Collector.ec2_part.
  rewrite bind_run, logger_run, bind_run.
  rewrite (collector_instances_none c rs _ Hrs He), extend_extend. done.
Qed.

Lemma collector_ec2_part_fault e w :
  describe_instances c = inl e →
  Collector.ec2_part c w =
    (inl e,
     extend w
       [(INFO, "Retrieving EC2 instances...");
        (ERROR, "Error retrieving EC2 instances: " +:+ exn_str e)]
       [] [DescribeInstances]).
Proof.
  intros He. unfold Collector.ec2_part.
  rewrite bind_run, logger_run, bind_run.
  rewrite (collector_instances_fault c e _ He), extend_extend. done.
Qed.

(** The notebook: the table of CPU datapoints. *)
Lemma script_fetch_cpu xs w :
  (Forall (λ id, ¬ faults c "AWS/EC2" "CPUUtilization" "InstanceId" id) (i_InstanceId <$> xs) ∧
   ∃ df, Script.fetch_cpu c (instance_frame xs) w = (inr df, extend w [] [] (cpu_calls xs))
         ∧ metric_frame "InstanceId" df
         ∧ ("Maximum" ∈ columns df → rows df ≠ [])
         ∧ rows df = rows (cpu_table c xs)
         ∧ (xs ≠ [] → "InstanceId" ∈ columns df)) ∨
  (Exists (faults c "AWS/EC2" "CPUUtilization" "InstanceId") (i_InstanceId <$> xs) ∧
   ∃ e w', Script.fetch_cpu c (instance_frame xs) w = (inl e, w')).
Proof.
  unfold Script.fetch_cpu. rewrite bind_run, instance_ids. unfold lift.
  destruct (script_fetch c "AWS/EC2" "CPUUtilization" "InstanceId"
              (i_InstanceId <$> xs) empty_df w)
    as [(Hall & df & Hrun & Hf & Hm & Hr & Hd)|(Hex & e & w' & Hrun)].
  - vm_compute. set_solver.
  - apply metric_frame_empty.
  - simpl. intros H. by apply elem_of_nil in H.
  - left. split; [done|]. exists df. split_and!; try done.
    intros Hne. apply Hd. right. by destruct xs.
  - right. split; [done|]. eauto.
Qed.

Lemma script_ec2_table xs df w :
  xs ≠ [] → metric_frame "InstanceId" df → ("Maximum" ∈ columns df → rows df ≠ []) →
  rows df = rows (cpu_table c xs) → "InstanceId" ∈ columns df →
  Script.ec2_table (instance_frame xs) df w =
    if decide (rows (cpu_table c xs) = [])
    then (inl (AttributeError "Maximum"), w)
    else (inr (joined_ec2 c xs), w).
Proof.
  intros Hne (_ & _ & Hc) Hmax Hr Hid. unfold Script.ec2_table. rewrite bind_run.
  unfold lift. rewrite <- Hr. case_decide as E.
  - unfold groupby_agg. rewrite decide_True by done. rewrite decide_False; [done|].
    intros H. by apply Hmax in H.
  - rewrite groupby_agg_ok; [|done|].
    2:{ apply Hc; [done|]. apply elem_of_add_col. left. set_solver. }
    rewrite bind_run, merge_left_grouped; [|simpl; set_solver|simpl; set_solver].
    unfold mret, M_ret, ret, fillna, joined_ec2. simpl. do 3 f_equal.
    rewrite <- !list_fmap_compose. apply list_fmap_ext. intros _ i _. simpl.
    unfold ec2_row. do 2 f_equal. apply agg_part_rows. by rewrite Hr.
Qed.
End Ec2Part.

(** * The volume inventory and the rate conversion *)

Section Volumes.
Variable c : cloud.
Implicit Types (df acc : DataFrame) (w : world) (vols : list volume).

Lemma volume_frame_columns vols :
  columns (volume_frame vols) ⊆ volume_columns.
Proof.
  intros col Hcol. unfold volume_frame, fillna in Hcol. cbn [columns] in Hcol.
  apply from_records_columns in Hcol. unfold has_column in Hcol.
  apply Exists_exists in Hcol as (v & _ & Hv).
  destruct v as [az ct en sz vid [io|] vt [tp|] atts]; vm_compute in Hv;
    unfold volume_columns; set_solver.
Qed.

Lemma volume_frame_fixed vols col :
  vols ≠ [] → col ∈ ["Attachments"; "AvailabilityZone"; "CreateTime"; "Encrypted";
                     "Size"; "VolumeId"; "VolumeType"] →
  col ∈ columns (volume_frame vols).
Proof.
  intros Hne Hcol. unfold volume_frame, fillna. cbn [columns].
  apply from_records_columns. destruct vols as [|v vols]; [done|]. left.
  destruct v as [az ct en sz vid [io|] vt [tp|] atts]; vm_compute; set_solver.
Qed.

Lemma volume_frame_rows vols :
  rows (volume_frame vols) = volume_row (columns (volume_frame vols)) <$> vols.
Proof.
  unfold volume_frame, fillna, from_records. cbn [rows columns].
  by rewrite <- !list_fmap_compose.
Qed.

Lemma volume_frame_empty vols : df_empty (volume_frame vols) = bool_decide (vols = []).
Proof.
  destruct vols as [|v vols]; [done|]. rewrite bool_decide_eq_false_2 by done.
  unfold df_empty. rewrite orb_false_iff. split.
  - apply bool_decide_eq_false_2. intros Hc.
    assert ("VolumeId" ∈ columns (volume_frame (v :: vols))) as Hin.
    { apply volume_frame_fixed; [done|set_solver]. }
    rewrite Hc in Hin. by apply elem_of_nil in Hin.
  - rewrite volume_frame_rows. done.
Qed.

Lemma volume_row_id cols v :
  volume_row cols v !! "VolumeId" = Some (Str (v_VolumeId v)).
Proof.
  unfold volume_row. rewrite lookup_fmap, lookup_pad.
  by destruct v as [az ct en sz vid [io|] vt [tp|] atts].
Qed.

Lemma volume_row_attachments cols v :
  volume_row cols v !! "Attachments" = Some (Atts (v_Attachments v)).
Proof.
  unfold volume_row. rewrite lookup_fmap, lookup_pad.
  by destruct v as [az ct en sz vid [io|] vt [tp|] atts].
Qed.

Lemma volume_row_other cols v col :
  cols ⊆ volume_columns → col ∉ volume_columns → volume_row cols v !! col = None.
Proof.
  intros Hcols Hcol. unfold volume_row. rewrite lookup_fmap, lookup_pad.
  rewrite (not_elem_of_list_to_map_1 _ col).
  2:{ intros H. apply Hcol.
      destruct v as [az ct en sz vid [io|] vt [tp|] atts]; vm_compute in H;
        unfold volume_columns; set_solver. }
  rewrite decide_False; [done|]. intros H. apply Hcol, Hcols, H.
Qed.

Lemma volume_ids vols :
  vols ≠ [] →
  get_column "VolumeId" (volume_frame vols) = inr (Str <$> (v_VolumeId <$> vols)).
Proof.
  intros Hne. unfold get_column.
  rewrite decide_True by (apply volume_frame_fixed; [done|set_solver]). f_equal.
  rewrite volume_frame_rows, <- !list_fmap_compose. apply list_fmap_ext.
  intros _ v _. unfold compose. by rewrite volume_row_id.
Qed.

Lemma collector_volumes_ok vols w :
  describe_volumes c = inr vols →
  Collector.get_ebs_volumes c w =
    (inr (volume_frame vols), extend w [] [] [DescribeVolumes]).
Proof.
  intros H. unfold Collector.get_ebs_volumes, try_except, api_describe_volumes.
  by rewrite bind_run, bind_run, called_run, H.
Qed.

Lemma collector_volumes_fault e w :
  describe_volumes c = inl e →
  Collector.get_ebs_volumes c w =
    (inl e,
     extend w [(ERROR, "Error retrieving EBS volumes: " +:+ exn_str e)] []
            [DescribeVolumes]).
Proof.
  intros H. unfold Collector.get_ebs_volumes, try_except, api_describe_volumes.
  rewrite bind_run, bind_run, called_run, H. unfold lift.
  by rewrite bind_run, logger_run, extend_extend.
Qed.

Lemma script_volumes w :
  Script.volumes_frame c w =
    match describe_volumes c with
    | inl e => (inl e, extend w [] [] [DescribeVolumes])
    | inr vols => (inr (volume_frame vols), extend w [] [] [DescribeVolumes])
    end.
Proof.
  unfold Script.volumes_frame, api_describe_volumes.
  rewrite bind_run, bind_run, called_run. unfold lift.
  by destruct (describe_volumes c).
Qed.
End Volumes.

Section Rates.
Variable ans : string → list datapoint.
Variable dim : string.
Hypothesis dim_fresh : dim ∉ dp_cols.

Lemma zip_with_fmap_self {A B} (f : A → B → A) (g : A → B) (l : list A) :
  zip_with f l (g <$> l) = (λ x, f x (g x)) <$> l.
Proof. induction l as [|x l IH]; [done|]. rewrite !fmap_cons. cbn [zip_with]. by rewrite IH. Qed.

Lemma rate_dp_row id d :
  <["Maximum" := cell_div (3600 # 1) (default NaN (dp_row dim id d !! "Maximum"))]>
    (dp_row dim id d) = dp_row dim id (rate_dp d).
Proof.
  assert (dim ≠ "Maximum") as Hne by (intros ->; apply dim_fresh; set_solver).
  unfold dp_row. rewrite lookup_insert_ne by done. simpl.
  rewrite lookup_insert_ne, lookup_insert_eq by done. simpl.
  rewrite insert_insert_ne by done. by f_equal.
Qed.

Lemma per_second_metric df ids :
  metric_frame dim df → rows df = metric_rows_of ans dim ids → rows df ≠ [] →
  ∃ df', per_second df = inr df'
         ∧ metric_frame dim df'
         ∧ rows df' = metric_rows_of (rates ans) dim ids.
Proof.
  intros (Hc1 & Hc2 & Hc3) Hr Hne. unfold per_second, get_column.
  assert ("Maximum" ∈ columns df) as Hmax.
  { apply Hc3; [done|]. apply elem_of_add_col. left. set_solver. }
  rewrite decide_True by done. eexists. split; [reflexivity|].
  assert (rows (set_series "Maximum"
            (cell_div (3600 # 1) <$> ((λ r : row, default NaN (r !! "Maximum")) <$> rows df)) df)
          = metric_rows_of (rates ans) dim ids) as Hrows.
  { unfold set_series. cbn [rows]. rewrite <- list_fmap_compose, zip_with_fmap_self.
    rewrite Hr. unfold metric_rows_of, rates. clear Hr.
    induction ids as [|id ids IH]; [done|].
    rewrite !bind_cons, fmap_app, IH. f_equal.
    rewrite <- !list_fmap_compose. apply list_fmap_ext. intros _ d _.
    unfold compose. apply rate_dp_row. }
  split; [|done]. split_and!.
  - unfold set_series. cbn [columns]. by rewrite add_col_in.
  - rewrite Hrows. apply Forall_forall. intros r Hr' x Hx.
    apply elem_of_metric_rows in Hr' as (id & d & _ & _ & ->). by apply dp_row_full.
  - intros _. unfold set_series. cbn [columns]. rewrite add_col_in by done. by apply Hc3.
Qed.

Lemma per_second_missing df :
  "Maximum" ∉ columns df → per_second df = inl (KeyError ["Maximum"]).
Proof. intros H. unfold per_second, get_column. by rewrite decide_False. Qed.

Lemma metric_rows_rates_nil ids :
  metric_rows_of (rates ans) dim ids = [] ↔ metric_rows_of ans dim ids = [].
Proof.
  rewrite !metric_rows_nil. unfold rates. split; intros H id Hid.
  - apply (fmap_nil_inv rate_dp), H, Hid.
  - by rewrite (H id Hid).
Qed.
End Rates.

(** * Rates, aggregates and joins for the volumes *)

Section Combine.
Variable c : cloud.
Implicit Types (df : DataFrame) (w : world) (vols : list volume) (l r : row).

Lemma set_sum_ok x a b df :
  a ∈ columns df → b ∈ columns df → set_sum x a b df = inr (add_columns x a b df).
Proof.
  intros Ha Hb. unfold set_sum, get_column. rewrite !decide_True by done.
  unfold set_series, add_columns. do 2 f_equal.
  induction (rows df) as [|r rs IH]; [done|].
  rewrite !fmap_cons. cbn [zip_with]. by rewrite IH.
Qed.

Lemma group_keys_nonempty (ans : string → list datapoint) cols ids :
  metric_rows_of ans "VolumeId" ids ≠ [] →
  group_keys "VolumeId" (mkDF cols (metric_rows_of ans "VolumeId" ids)) ≠ [].
Proof.
  intros Hne Hk. destruct (metric_rows_of ans "VolumeId" ids) as [|r rs] eqn:E; [done|].
  assert (r ∈ metric_rows_of ans "VolumeId" ids) as Hr by (rewrite E; left).
  apply elem_of_metric_rows in Hr as (id & d & Hid & Hd & ->).
  assert (id ∈ group_keys "VolumeId" (mkDF cols (metric_rows_of ans "VolumeId" ids))) as Hin.
  { apply metric_group_keys. split; [done|].
    intros H0. rewrite H0 in Hd. by apply elem_of_nil in Hd. }
  rewrite E, Hk in Hin. by apply elem_of_nil in Hin.
Qed.

(** Grouping a table of rates and joining it to a frame that has the key. *)
Lemma join_rates (ans : string → list datapoint) stats left df vols :
  "VolumeId" ∈ columns left → "VolumeId" ∉ stats.*2 →
  metric_frame "VolumeId" df → rows df = rows (rate_table ans vols) → rows df ≠ [] →
  ∃ g, groupby_agg "VolumeId" "Maximum" stats df = inr g
       ∧ df_empty g = false
       ∧ merge_left "VolumeId" left g =
           inr (mkDF (columns left ++ stats.*2)
                  ((λ l, l ∪ agg_part "VolumeId" "Maximum" stats (rate_table ans vols) l)
                     <$> rows left)).
Proof.
  intros Hl Hk (_ & _ & Hc) Hr Hne. specialize (Hc Hne).
  rewrite groupby_agg_ok.
  2:{ apply Hc, elem_of_add_col. by right. }
  2:{ apply Hc, elem_of_add_col. left. set_solver. }
  eexists. split; [reflexivity|]. split.
  - unfold df_empty. cbn [columns rows]. rewrite orb_false_iff. split; [done|].
    apply bool_decide_eq_false_2. intros H. apply fmap_nil_inv in H. revert H.
    unfold group_keys. rewrite Hr. apply (group_keys_nonempty _ (metric_cols "VolumeId")).
    change (rows (rate_table ans vols) ≠ []). by rewrite <- Hr.
  - rewrite merge_left_grouped by done. do 2 f_equal.
    apply list_fmap_ext. intros _ l _. f_equal. by apply agg_part_rows.
Qed.

Lemma joined_ebs_rows vols :
  (λ l, l ∪ write_part c vols l) <$> ((λ l, l ∪ read_part c vols l) <$> rows (volume_frame vols))
  = joined_row c vols <$> rows (volume_frame vols).
Proof. by rewrite <- list_fmap_compose. Qed.

Lemma metric_frame_nonempty dim df :
  metric_frame dim df → rows df ≠ [] → df_empty df = false.
Proof.
  intros Hf Hne. rewrite (metric_frame_df_empty _ _ Hf). by apply bool_decide_eq_false_2.
Qed.

(** Both programs: rates, aggregates and the two joins, when each table
    has a row. *)
Lemma joined_tables vols dr dw :
  vols ≠ [] →
  metric_frame "VolumeId" dr →
  rows dr = metric_rows_of (read_answers c) "VolumeId" (v_VolumeId <$> vols) → rows dr ≠ [] →
  metric_frame "VolumeId" dw →
  rows dw = metric_rows_of (write_answers c) "VolumeId" (v_VolumeId <$> vols) → rows dw ≠ [] →
  ∃ dr' dw' gr gw m1,
    per_second dr = inr dr' ∧ df_empty dr' = false ∧
    per_second dw = inr dw' ∧ df_empty dw' = false ∧
    groupby_agg "VolumeId" "Maximum" read_stats dr' = inr gr ∧ df_empty gr = false ∧
    groupby_agg "VolumeId" "Maximum" write_stats dw' = inr gw ∧ df_empty gw = false ∧
    merge_left "VolumeId" (volume_frame vols) gr = inr m1 ∧
    merge_left "VolumeId" m1 gw = inr (joined_ebs c vols).
Proof.
  intros Hne Hfr Hrr Hnr Hfw Hrw Hnw.
  assert ("VolumeId" ∉ dp_cols) as Hdim by (vm_compute; set_solver).
  destruct (per_second_metric (read_answers c) "VolumeId" Hdim dr _ Hfr Hrr Hnr)
    as (dr' & Hpr & Hfr' & Hrr').
  destruct (per_second_metric (write_answers c) "VolumeId" Hdim dw _ Hfw Hrw Hnw)
    as (dw' & Hpw & Hfw' & Hrw').
  assert (rows dr' ≠ []) as Hnr'.
  { rewrite Hrr'. rewrite metric_rows_rates_nil. by rewrite <- Hrr. }
  assert (rows dw' ≠ []) as Hnw'.
  { rewrite Hrw'. rewrite metric_rows_rates_nil. by rewrite <- Hrw. }
  destruct (join_rates (read_answers c) read_stats (volume_frame vols) dr' vols)
    as (gr & Hgr & Her & Hmr); try done.
  { apply volume_frame_fixed; [done|set_solver]. }
  { simpl. set_solver. }
  set (m1 := mkDF (columns (volume_frame vols) ++ read_stats.*2)
               ((λ l, l ∪ read_part c vols l) <$> rows (volume_frame vols))).
  destruct (join_rates (write_answers c) write_stats m1 dw' vols)
    as (gw & Hgw & Hew & Hmw); try done.
  { unfold m1. cbn [columns]. apply elem_of_app. left.
    apply volume_frame_fixed; [done|set_solver]. }
  { simpl. set_solver. }
  exists dr', dw', gr, gw, m1. split_and!; try done.
  - by apply (metric_frame_nonempty "VolumeId").
  - by apply (metric_frame_nonempty "VolumeId").
  - rewrite Hmw. unfold m1, joined_ebs. cbn [columns rows]. do 2 f_equal.
    by rewrite <- list_fmap_compose.
Qed.

Lemma collector_combine vols dr dw w :
  vols ≠ [] →
  metric_frame "VolumeId" dr →
  rows dr = metric_rows_of (read_answers c) "VolumeId" (v_VolumeId <$> vols) → rows dr ≠ [] →
  metric_frame "VolumeId" dw →
  rows dw = metric_rows_of (write_answers c) "VolumeId" (v_VolumeId <$> vols) → rows dw ≠ [] →
  Collector.combine_ebs (volume_frame vols) dr dw w =
    (inr (add_columns "MeanIOPS" "meanReadIOPS" "meanWriteIOPS"
            (add_columns "MaxIOPS" "maxReadIOPS" "maxWriteIOPS"
               (fillna (Num (0 # 1)) (joined_ebs c vols)))), w).
Proof.
  intros Hne Hfr Hrr Hnr Hfw Hrw Hnw.
  destruct (joined_tables vols dr dw Hne Hfr Hrr Hnr Hfw Hrw Hnw)
    as (dr' & dw' & gr & gw & m1 & Hpr & Her' & Hpw & Hew' & Hgr & Her & Hgw & Hew & Hm1 & Hm2).
  unfold Collector.combine_ebs, Collector.to_rate, Collector.aggregate, Collector.join_if.
  rewrite (metric_frame_nonempty _ _ Hfr Hnr), (metric_frame_nonempty _ _ Hfw Hnw).
  cbn [negb]. rewrite bind_run, Hpr. unfold lift at 1. rewrite bind_run, Hpw. unfold lift at 1.
  rewrite Her', Hew'. cbn [negb]. rewrite bind_run, Hgr. unfold lift at 1.
  rewrite bind_run, Hgw. unfold lift at 1. rewrite Her, Hew. cbn [negb].
  rewrite bind_run, Hm1. unfold lift at 1. rewrite bind_run, Hm2. unfold lift at 1.
  unfold Collector.total_iops. rewrite decide_True.
  2:{ unfold fillna, joined_ebs. cbn [columns]. simpl. set_solver. }
  rewrite bind_run. rewrite set_sum_ok.
  2,3: unfold fillna, joined_ebs; cbn [columns]; simpl; set_solver.
  unfold lift at 1. rewrite set_sum_ok.
  2,3: unfold add_columns, fillna, joined_ebs; cbn [columns];
       apply elem_of_add_col; left; simpl; set_solver.
  done.
Qed.

Lemma script_combine vols dr dw w :
  vols ≠ [] →
  metric_frame "VolumeId" dr →
  rows dr = metric_rows_of (read_answers c) "VolumeId" (v_VolumeId <$> vols) → rows dr ≠ [] →
  metric_frame "VolumeId" dw →
  rows dw = metric_rows_of (write_answers c) "VolumeId" (v_VolumeId <$> vols) → rows dw ≠ [] →
  Script.combine_ebs (volume_frame vols) dr dw w =
    (inr (fillna (Num (0 # 1))
            (add_columns "MeanIOPS" "meanReadIOPS" "meanWriteIOPS"
               (add_columns "MaxIOPS" "maxReadIOPS" "maxWriteIOPS" (joined_ebs c vols)))), w).
Proof.
  intros Hne Hfr Hrr Hnr Hfw Hrw Hnw.
  destruct (joined_tables vols dr dw Hne Hfr Hrr Hnr Hfw Hrw Hnw)
    as (dr' & dw' & gr & gw & m1 & Hpr & Her' & Hpw & Hew' & Hgr & Her & Hgw & Hew & Hm1 & Hm2).
  unfold Script.combine_ebs.
  rewrite bind_run, Hpr. unfold lift at 1. rewrite bind_run, Hpw. unfold lift at 1.
  rewrite bind_run, Hgr. unfold lift at 1. rewrite bind_run, Hgw. unfold lift at 1.
  rewrite bind_run, Hm1. unfold lift at 1. rewrite bind_run, Hm2. unfold lift at 1.
  rewrite bind_run, set_sum_ok.
  2,3: unfold joined_ebs; cbn [columns]; simpl; set_solver.
  unfold lift at 1. rewrite bind_run, set_sum_ok.
  2,3: unfold add_columns, joined_ebs; cbn [columns];
       apply elem_of_add_col; left; simpl; set_solver.
  done.
Qed.
End Combine.

(** * Sums and fills *)

Section Balance.
Implicit Types (df : DataFrame) (l r : row).

Lemma fill_cell_add x y :
  (∃ p q, x = Num p ∧ y = Num q) ∨ (x = NaN ∧ y = NaN) →
  fill (Num (0 # 1)) (cell_add x y) =
    cell_add (fill (Num (0 # 1)) x) (fill (Num (0 # 1)) y).
Proof. intros [(p & q & -> & ->)|[-> ->]]; done. Qed.

Lemma fill_add_columns x a b df :
  Forall (balanced a b) (rows df) →
  fillna (Num (0 # 1)) (add_columns x a b df) =
    add_columns x a b (fillna (Num (0 # 1)) df).
Proof.
  intros Hb. unfold fillna, add_columns. cbn [columns rows]. f_equal.
  rewrite <- !list_fmap_compose. apply Forall_fmap_ext_1.
  eapply Forall_impl; [exact Hb|]. intros r Hr. unfold compose.
  rewrite fmap_insert, !lookup_fmap. f_equal.
  destruct Hr as [(p & q & -> & ->)|[-> ->]]; done.
Qed.

Lemma balanced_insert a b x v r :
  x ≠ a → x ≠ b → balanced a b r → balanced a b (<[x := v]> r).
Proof.
  intros Ha Hb. unfold balanced. by rewrite !lookup_insert_ne.
Qed.

Lemma agg_part_stat key val stats df l k a n :
  l !! key = Some (Str k) → key ∉ stats.*2 → NoDup stats.*2 → (a, n) ∈ stats →
  agg_part key val stats df l !! n =
    Some (if decide (k ∈ group_keys key df)
          then agg_cell a (group_values key val k df) else NaN).
Proof.
  intros Hl Hk Hnd Hin. unfold agg_part. rewrite Hl. case_decide.
  - by apply group_row_stat.
  - rewrite lookup_nan_row, decide_True; [done|].
    apply list_elem_of_fmap. by exists (a, n).
Qed.

Lemma agg_part_other key val stats df l k n :
  l !! key = Some (Str k) → n ≠ key → n ∉ stats.*2 →
  agg_part key val stats df l !! n = None.
Proof.
  intros Hl Hk Hn. unfold agg_part. rewrite Hl. case_decide.
  - by apply group_row_other.
  - rewrite lookup_nan_row, decide_False; done.
Qed.

Lemma agg_cell_mean_num (qs : list Q) : qs ≠ [] → agg_cell Mean qs = Num (q_mean qs).
Proof. by destruct qs. Qed.
Lemma agg_cell_max_num (qs : list Q) : qs ≠ [] → ∃ q, agg_cell Max qs = Num q.
Proof. destruct qs; [done|]. simpl. eauto. Qed.

Lemma rate_group_values_nonempty (ans : string → list datapoint) vols k :
  k ∈ group_keys "VolumeId" (rate_table ans vols) →
  group_values "VolumeId" "Maximum" k (rate_table ans vols) ≠ [].
Proof.
  unfold rate_table. rewrite metric_group_keys. intros [Hk Hne].
  rewrite metric_group_values by (vm_compute; set_solver).
  induction (v_VolumeId <$> vols) as [|id ids IH]; [by apply elem_of_nil in Hk|].
  rewrite filter_cons. destruct (decide (id = k)) as [->|Hid].
  - rewrite bind_cons. intros [H _]%app_nil. by apply fmap_nil_inv in H.
  - apply IH. apply elem_of_cons in Hk as [->|]; done.
Qed.
End Balance.

Section JoinedRows.
Variable c : cloud.
Variable vols : list volume.
Variable cols : list string.
Hypothesis cols_volume : cols ⊆ volume_columns.

Lemma joined_row_read v a n :
  (a, n) ∈ read_stats →
  joined_row c vols (volume_row cols v) !! n =
    Some (if decide (v_VolumeId v ∈ group_keys "VolumeId" (rate_table (read_answers c) vols))
          then agg_cell a (group_values "VolumeId" "Maximum" (v_VolumeId v)
                             (rate_table (read_answers c) vols))
          else NaN).
Proof.
  intros Hin. unfold joined_row. apply lookup_union_Some_l.
  rewrite lookup_union_r.
  - unfold read_part. apply agg_part_stat; [apply volume_row_id|simpl; set_solver| |done].
    simpl. repeat constructor; set_solver.
  - apply volume_row_other; [done|].
    assert (n ∈ read_stats.*2) as Hn by (apply list_elem_of_fmap; by exists (a, n)).
    simpl in Hn. unfold volume_columns.
    repeat (apply elem_of_cons in Hn as [->|Hn]); [set_solver..|].
    by apply elem_of_nil in Hn.
Qed.

Lemma joined_row_write v a n :
  (a, n) ∈ write_stats →
  joined_row c vols (volume_row cols v) !! n =
    Some (if decide (v_VolumeId v ∈ group_keys "VolumeId" (rate_table (write_answers c) vols))
          then agg_cell a (group_values "VolumeId" "Maximum" (v_VolumeId v)
                             (rate_table (write_answers c) vols))
          else NaN).
Proof.
  intros Hin. unfold joined_row.
  assert (n ∈ write_stats.*2) as Hn by (apply list_elem_of_fmap; by exists (a, n)).
  assert ((n ∉ volume_columns) ∧ (n ∉ read_stats.*2) ∧ n ≠ "VolumeId") as (H1 & H2 & H3).
  { simpl in Hn. unfold volume_columns. simpl.
    repeat (apply elem_of_cons in Hn as [->|Hn]); [set_solver..|].
    by apply elem_of_nil in Hn. }
  rewrite lookup_union_r.
  - unfold write_part. apply agg_part_stat; [|simpl; set_solver| |done].
    + apply lookup_union_Some_l, volume_row_id.
    + simpl. repeat constructor; set_solver.
  - rewrite lookup_union_r by by apply volume_row_other.
    unfold read_part. eapply agg_part_other; [apply volume_row_id|done..].
Qed.

Hypothesis both_or_none :
  ∀ v, v ∈ vols → read_answers c (v_VolumeId v) = [] ↔ write_answers c (v_VolumeId v) = [].

Lemma same_groups v :
  v ∈ vols →
  v_VolumeId v ∈ group_keys "VolumeId" (rate_table (read_answers c) vols) ↔
  v_VolumeId v ∈ group_keys "VolumeId" (rate_table (write_answers c) vols).
Proof.
  intros Hv. unfold rate_table. rewrite !metric_group_keys. unfold rates.
  assert (∀ ds : list datapoint, rate_dp <$> ds ≠ [] ↔ ds ≠ []) as Hnil.
  { intros ds. by destruct ds. }
  rewrite !Hnil. specialize (both_or_none v Hv). tauto.
Qed.

Lemma joined_row_balanced v a n m :
  v ∈ vols → a ∈ [Mean; Max] → (a, n) ∈ read_stats → (a, m) ∈ write_stats →
  balanced n m (joined_row c vols (volume_row cols v)).
Proof.
  intros Hv Ha Hn Hm. unfold balanced.
  rewrite (joined_row_read v a n Hn), (joined_row_write v a m Hm).
  pose proof (same_groups v Hv) as Hg.
  destruct (decide (v_VolumeId v ∈ group_keys "VolumeId" (rate_table (read_answers c) vols)))
    as [Hr|Hr].
  - rewrite decide_True by tauto. left.
    pose proof (rate_group_values_nonempty _ _ _ Hr) as Hnr.
    pose proof (rate_group_values_nonempty _ _ _ (proj1 Hg Hr)) as Hnw.
    apply elem_of_cons in Ha as [->|Ha]; [|apply list_elem_of_singleton in Ha as ->].
    + rewrite !agg_cell_mean_num by done. eauto.
    + destruct (agg_cell_max_num _ Hnr) as [p ->].
      destruct (agg_cell_max_num _ Hnw) as [q ->]. eauto.
  - rewrite decide_False by tauto. by right.
Qed.
End JoinedRows.

Section Combined.
Variable c : cloud.
Variable vols : list volume.
Hypothesis both_or_none :
  ∀ v, v ∈ vols → read_answers c (v_VolumeId v) = [] ↔ write_answers c (v_VolumeId v) = [].

(** Filling before or after the sums gives the same table. *)
Lemma combined_same :
  fillna (Num (0 # 1))
    (add_columns "MeanIOPS" "meanReadIOPS" "meanWriteIOPS"
       (add_columns "MaxIOPS" "maxReadIOPS" "maxWriteIOPS" (joined_ebs c vols))) =
  add_columns "MeanIOPS" "meanReadIOPS" "meanWriteIOPS"
    (add_columns "MaxIOPS" "maxReadIOPS" "maxWriteIOPS"
       (fillna (Num (0 # 1)) (joined_ebs c vols))).
Proof.
  pose proof (volume_frame_columns vols) as Hcols.
  rewrite fill_add_columns.
  - f_equal. apply fill_add_columns. unfold joined_ebs. cbn [rows].
    rewrite volume_frame_rows, <- list_fmap_compose. apply Forall_fmap, Forall_forall.
    intros v Hv. apply (joined_row_balanced c vols _ Hcols both_or_none v Max);
      [done|set_solver..].
  - unfold add_columns, joined_ebs. cbn [rows].
    rewrite volume_frame_rows, <- !list_fmap_compose. apply Forall_fmap, Forall_forall.
    intros v Hv. unfold compose. apply balanced_insert; [done..|].
    apply (joined_row_balanced c vols _ Hcols both_or_none v Mean); [done|set_solver..].
Qed.
End Combined.

(** * The attachment loops *)

Section AttachmentLoops.
Implicit Types (df : DataFrame) (w : world) (r : row) (rs pre : list row).

Lemma collector_attach_loop cols pre rs w :
  Forall (λ r, is_Some (r !! "Attachments")) rs →
  for_each (imap (λ i r, (length pre + i, r)) rs) Collector.attach_step
           (mkDF cols (pre ++ rs)) w =
    (inr (mkDF cols (pre ++ (resolved <$> rs))), w).
Proof.
  revert pre. induction rs as [|r rs IH]; intros pre Hall; [done|].
  apply Forall_cons in Hall as [[v Hv] Hall].
  cbn [imap]. rewrite for_each_cons.
  assert (Collector.attach_step (length pre + 0, r) (mkDF cols (pre ++ r :: rs)) w =
          (inr (mkDF cols ((pre ++ [resolved r]) ++ rs)), w)) as ->.
  { unfold Collector.attach_step, resolved. cbn [fst snd]. rewrite Hv.
    rewrite <- app_assoc. cbn [app].
    destruct v as [| | | | | |[|a atts]]; try done.
    unfold set_at. cbn [columns rows]. unfold mret, M_ret, ret. do 3 f_equal.
    by rewrite alter_app_r. }
  rewrite (imap_ext _ (λ i r0, (length (pre ++ [resolved r]) + i, r0))).
  2:{ intros i x _. rewrite length_app. simpl. f_equal. lia. }
  rewrite IH by done. by rewrite <- app_assoc.
Qed.

Lemma collector_attach_loop_all cols rs w :
  Forall (λ r, is_Some (r !! "Attachments")) rs →
  for_each (imap pair rs) Collector.attach_step (mkDF cols rs) w =
    (inr (mkDF cols (resolved <$> rs)), w).
Proof. intros H. exact (collector_attach_loop cols [] rs w H). Qed.

Lemma resolved_blank r :
  resolved (<["InstanceId" := Str ""]> r) = <["InstanceId" := first_attachment r]> r.
Proof.
  unfold resolved, first_attachment. rewrite lookup_insert_ne by done.
  destruct (r !! "Attachments") as [[| | | | | |[|a atts]]|]; try done.
  by rewrite insert_insert_eq.
Qed.

Lemma collector_extract df w :
  Forall (λ r, is_Some (r !! "Attachments")) (rows df) →
  Collector.extract_instance_ids df w = (inr (with_instance_id first_attachment df), w).
Proof.
  intros Hall. unfold Collector.extract_instance_ids, set_scalar. cbn [rows].
  rewrite collector_attach_loop_all.
  - unfold with_instance_id. do 3 f_equal.
    rewrite <- list_fmap_compose. apply list_fmap_ext. intros _ r _. apply resolved_blank.
  - apply Forall_fmap. eapply Forall_impl; [exact Hall|]. intros r Hr.
    simpl. by rewrite lookup_insert_ne.
Qed.

Lemma where_all_app L1 L2 df : where_all (L1 ++ L2) df = where_all L2 (where_all L1 df).
Proof. unfold where_all. by rewrite foldl_app. Qed.

Lemma script_attach_loop (cells : list cell) df w :
  Forall (λ v, ∃ l, v = Atts l) cells →
  for_each cells Script.attach_step df w =
    (inr (where_all (cells ≫= (λ v, match v with Atts l => l | _ => [] end)) df), w).
Proof.
  revert df. induction cells as [|v cells IH]; intros df Hall; [done|].
  apply Forall_cons in Hall as [[l ->] Hall].
  rewrite for_each_cons. cbn [Script.attach_step]. unfold mret, M_ret, ret.
  rewrite IH by done. by rewrite bind_cons, where_all_app.
Qed.

Lemma where_all_rows L cols rs :
  where_all L (mkDF cols ((λ r : row, <["InstanceId" := Str ""]> r) <$> rs)) =
    mkDF cols ((λ r : row, <["InstanceId" := last_attachment L r]> r) <$> rs).
Proof.
  induction L as [|a L IH] using rev_ind; [done|].
  rewrite where_all_app, IH. unfold where_all. cbn [foldl].
  unfold Script.where_volume. cbn [columns rows]. f_equal.
  rewrite <- list_fmap_compose. apply list_fmap_ext. intros _ r _. unfold compose.
  assert ("InstanceId" ≠ "VolumeId") as Hne by done.
  rewrite lookup_insert_ne by done. unfold last_attachment.
  rewrite filter_app, filter_cons, filter_nil. case_decide as E.
  - rewrite insert_insert_eq. by rewrite last_snoc.
  - by rewrite app_nil_r.
Qed.

Lemma script_extract df w :
  "Attachments" ∈ columns df →
  Forall (λ r, ∃ l, r !! "Attachments" = Some (Atts l)) (rows df) →
  Script.extract_instance_ids df w =
    (inr (with_instance_id (last_attachment (all_attachments df)) df), w).
Proof.
  intros Hcol Hall. unfold Script.extract_instance_ids.
  rewrite bind_run. unfold lift, get_column.
  rewrite decide_True by (unfold set_scalar; cbn [columns]; apply elem_of_add_col; by left).
  rewrite script_attach_loop.
  2:{ unfold set_scalar. cbn [rows]. rewrite <- list_fmap_compose.
      apply Forall_fmap. eapply Forall_impl; [exact Hall|]. intros r [l Hl].
      exists l. unfold compose. by rewrite lookup_insert_ne, Hl. }
  unfold set_scalar at 2. rewrite where_all_rows. unfold with_instance_id. do 3 f_equal.
  apply Forall_fmap_ext_1. eapply Forall_impl; [exact Hall|]. intros r [l Hl].
  f_equal. f_equal. unfold set_scalar, all_attachments. cbn [rows].
  clear. induction (rows df) as [|r rs IH]; [done|].
  rewrite !fmap_cons, !bind_cons, IH. f_equal.
  rewrite lookup_insert_ne by done. simpl.
  by destruct (r !! "Attachments") as [[]|].
Qed.
End AttachmentLoops.

(** * The volume rows of the two programs *)

Section EbsTables.
Variable c : cloud.
Variable vols : list volume.
Implicit Types (df : DataFrame) (w : world) (r : row) (v : volume).

Lemma collector_summed_rows :
  rows (add_columns "MeanIOPS" "meanReadIOPS" "meanWriteIOPS"
          (add_columns "MaxIOPS" "maxReadIOPS" "maxWriteIOPS"
             (fillna (Num (0 # 1)) (joined_ebs c vols)))) = summed_row c vols <$> vols.
Proof.
  unfold add_columns, fillna, joined_ebs. cbn [rows].
  rewrite volume_frame_rows, <- !list_fmap_compose. apply list_fmap_ext.
  intros _ v _. unfold compose, summed_row. by rewrite !lookup_insert_ne.
Qed.

Lemma joined_row_keep r k x : r !! k = Some x → joined_row c vols r !! k = Some x.
Proof. intros H. unfold joined_row. by apply lookup_union_Some_l, lookup_union_Some_l. Qed.

Lemma summed_row_id v : summed_row c vols v !! "VolumeId" = Some (Str (v_VolumeId v)).
Proof.
  unfold summed_row. rewrite !lookup_insert_ne, lookup_fmap by done.
  by rewrite (joined_row_keep _ _ _ (volume_row_id _ v)).
Qed.

Lemma summed_row_attachments v :
  summed_row c vols v !! "Attachments" = Some (Atts (v_Attachments v)).
Proof.
  unfold summed_row. rewrite !lookup_insert_ne, lookup_fmap by done.
  by rewrite (joined_row_keep _ _ _ (volume_row_attachments _ v)).
Qed.

Lemma first_attachment_summed v :
  first_attachment (summed_row c vols v) =
    match v_Attachments v with a :: _ => Str (a_InstanceId a) | [] => Str "" end.
Proof. unfold first_attachment. by rewrite summed_row_attachments. Qed.

Lemma all_attachments_summed (vs : list volume) :
  (summed_row c vols <$> vs) ≫= (λ r : row, match r !! "Attachments" with
                                       | Some (Atts l) => l
                                       | _ => []
                                       end)
  = vs ≫= v_Attachments.
Proof.
  induction vs as [|v vs IH]; [done|].
  by rewrite fmap_cons, !bind_cons, IH, summed_row_attachments.
Qed.

Lemma filter_own_attachments (vs : list volume) v :
  own_attachments vs → v ∈ vs →
  filter (λ a, a_VolumeId a = v_VolumeId v) (vs ≫= v_Attachments) = v_Attachments v.
Proof.
  intros [Hnd Hown] Hv. induction vs as [|u vs IH]; [by apply elem_of_nil in Hv|].
  rewrite fmap_cons in Hnd. apply NoDup_cons in Hnd as [Hu Hnd].
  apply Forall_cons in Hown as [Hou Hown].
  rewrite bind_cons, filter_app.
  apply elem_of_cons in Hv as [->|Hv].
  - assert (filter (λ a, a_VolumeId a = v_VolumeId u) (v_Attachments u) = v_Attachments u) as ->.
    { clear -Hou. induction Hou as [|a l Ha _ IH]; [done|].
      by rewrite filter_cons_True, IH. }
    rewrite filter_none; [by rewrite app_nil_r|].
    apply Forall_forall. intros a Ha Heq. apply Hu.
    apply list_elem_of_bind in Ha as (u' & Ha & Hu').
    apply list_elem_of_fmap. exists u'. split; [|done].
    rewrite <- Heq.
    by apply (proj1 (Forall_forall _ _) (proj1 (Forall_forall _ _) Hown u' Hu')).
  - rewrite filter_none.
    + by apply IH.
    + apply Forall_forall. intros a Ha Heq. apply Hu.
      apply list_elem_of_fmap. exists v. split; [|done].
      rewrite <- Heq. symmetry. by apply (proj1 (Forall_forall _ _) Hou).
Qed.

Lemma last_attachment_summed v :
  own_attachments vols → v ∈ vols →
  last_attachment (vols ≫= v_Attachments) (summed_row c vols v) =
    match last (v_Attachments v) with Some a => Str (a_InstanceId a) | None => Str "" end.
Proof.
  intros Hown Hv. unfold last_attachment. rewrite summed_row_id.
  assert (filter (λ a, Some (Str (v_VolumeId v)) = Some (Str (a_VolumeId a)))
            (vols ≫= v_Attachments) = v_Attachments v) as ->; [|done].
  etrans; [|apply (filter_own_attachments vols v Hown Hv)].
  apply list_filter_iff. intros a. split; [by intros [= ->]|by intros ->].
Qed.
End EbsTables.

(** * The volume report of the class *)

Section EbsParts.
Variable c : cloud.
Variable vols : list volume.
Implicit Types (df : DataFrame) (w : world) (r : row) (v : volume).

Hypothesis vols_nonempty : vols ≠ [].
Hypothesis has_iops : has_column volume_record vols "Iops".
Hypothesis has_throughput : has_column volume_record vols "Throughput".
Hypothesis some_read : Exists (λ v, read_answers c (v_VolumeId v) ≠ []) vols.
Hypothesis some_write : Exists (λ v, write_answers c (v_VolumeId v) ≠ []) vols.

Lemma some_rows (ans : string → list datapoint) :
  Exists (λ v, ans (v_VolumeId v) ≠ []) vols →
  metric_rows_of ans "VolumeId" (v_VolumeId <$> vols) ≠ [].
Proof.
  clear. intros Hex Hnil. apply Exists_exists in Hex as (v & Hv & Hne). apply Hne.
  apply (proj1 (metric_rows_nil ans "VolumeId" _) Hnil).
  apply list_elem_of_fmap. eauto.
Qed.

Lemma final_columns_present (f : row → cell) (t : DataFrame) :
  columns t = add_col (add_col ((columns (volume_frame vols) ++ read_stats.*2)
                                  ++ write_stats.*2) "MaxIOPS") "MeanIOPS" →
  final_columns ⊆ columns (with_instance_id f t).
Proof.
  clear some_read some_write.
  intros Ht col Hcol. unfold with_instance_id. cbn [columns]. rewrite Ht.
  rewrite !elem_of_add_col, !elem_of_app.
  unfold final_columns in Hcol.
  repeat (apply elem_of_cons in Hcol as [->|Hcol]); [..|by apply elem_of_nil in Hcol];
    first
      [ by (do 5 left; apply volume_frame_fixed; [done|set_solver])
      | by (do 5 left; unfold volume_frame, fillna; cbn [columns];
            apply from_records_columns)
      | naive_solver ].
Qed.

Lemma collector_process_ebs w :
  Collector.process_ebs_metrics c (volume_frame vols) w =
    (inr (report_of (collector_table c vols)),
     extend w (read_errors c vols ++ write_errors c vols) []
            (read_calls vols ++ write_calls vols)).
Proof.
  unfold Collector.process_ebs_metrics.
  rewrite volume_frame_empty, bool_decide_eq_false_2 by done.
  rewrite bind_run, volume_ids by done. unfold lift at 1. rewrite bind_run.
  destruct (collector_get_metrics c "AWS/EBS" "VolumeReadOps" "VolumeId"
              (v_VolumeId <$> vols) w) as (dr & -> & Hfr & Hrr).
  rewrite bind_run.
  destruct (collector_get_metrics c "AWS/EBS" "VolumeWriteOps" "VolumeId"
              (v_VolumeId <$> vols)
              (extend w (fetch_errors c "AWS/EBS" "VolumeReadOps" "VolumeId" (v_VolumeId <$> vols))
                 [] (GetMetricStatistics "AWS/EBS" "VolumeReadOps" "VolumeId" <$>
                       (v_VolumeId <$> vols)))) as (dw & -> & Hfw & Hrw).
  rewrite extend_extend. rewrite bind_run, (collector_combine c vols dr dw); try done.
  2:{ rewrite Hrr. by apply some_rows. }
  2:{ rewrite Hrw. by apply some_rows. }
  rewrite bind_run, collector_extract.
  2:{ rewrite collector_summed_rows. apply Forall_fmap, Forall_forall. intros v _.
      unfold compose. by rewrite summed_row_attachments. }
  unfold lift. fold (collector_table c vols).
  rewrite select_ok; [done|]. by apply final_columns_present.
Qed.

Lemma collector_ebs_part_ok w :
  describe_volumes c = inr vols →
  Collector.ebs_part c w =
    (inr tt,
     extend w
       ([(INFO, "Retrieving EBS volumes...")] ++ read_errors c vols ++ write_errors c vols
        ++ [(INFO, "EBS report generated successfully")])
       [(Collector.ebs_report_name c, report_of (collector_table c vols))]
       (DescribeVolumes :: read_calls vols ++ write_calls vols)).
Proof.
  intros Hv. unfold Collector.ebs_part.
  rewrite bind_run, logger_run, bind_run, (collector_volumes_ok c vols _ Hv).
  rewrite volume_frame_empty, bool_decide_eq_false_2 by done. cbn [negb].
  rewrite bind_run, collector_process_ebs.
  rewrite bind_run, to_csv_run, logger_run, !extend_extend.
  f_equal. f_equal; rewrite ?app_nil_r, <- ?app_assoc; done.
Qed.
End EbsParts.

(** * The volume report of the notebook *)

Section ScriptEbs.
Variable c : cloud.
Implicit Types (df : DataFrame) (w : world) (r : row) (v : volume).

Lemma script_fetch_iops_loop (vs : list volume) accr accw w :
  Forall (λ v, ¬ faults c "AWS/EBS" "VolumeReadOps" "VolumeId" (v_VolumeId v) ∧
               ¬ faults c "AWS/EBS" "VolumeWriteOps" "VolumeId" (v_VolumeId v)) vs →
  metric_frame "VolumeId" accr → ("Maximum" ∈ columns accr → rows accr ≠ []) →
  metric_frame "VolumeId" accw → ("Maximum" ∈ columns accw → rows accw ≠ []) →
  ∃ dr dw,
    for_each (Str <$> (v_VolumeId <$> vs)) (iops_body c) (accr, accw) w =
      (inr (dr, dw), extend w [] [] (iops_calls vs))
    ∧ metric_frame "VolumeId" dr ∧ ("Maximum" ∈ columns dr → rows dr ≠ [])
    ∧ rows dr = rows accr ++ metric_rows_of (read_answers c) "VolumeId" (v_VolumeId <$> vs)
    ∧ metric_frame "VolumeId" dw ∧ ("Maximum" ∈ columns dw → rows dw ≠ [])
    ∧ rows dw = rows accw ++ metric_rows_of (write_answers c) "VolumeId" (v_VolumeId <$> vs).
Proof.
  assert ("VolumeId" ∉ dp_cols) as Hdim by (vm_compute; set_solver).
  revert accr accw w. induction vs as [|v vs IH]; intros accr accw w Hall Hfr Hmr Hfw Hmw.
  - exists accr, accw. simpl. unfold mret, M_ret, ret. rewrite extend_nil.
    unfold metric_rows_of. simpl. by rewrite !app_nil_r.
  - apply Forall_cons in Hall as [[Hnr Hnw] Hall].
    rewrite !fmap_cons, for_each_cons. unfold iops_body at 1. cbn [fst snd].
    rewrite bind_run, script_fetch_one.
    destruct (get_metric_statistics c "AWS/EBS" "VolumeReadOps" "VolumeId" (v_VolumeId v))
      as [e|dsr] eqn:Er; [exfalso; apply Hnr; by exists e|].
    rewrite bind_run, script_fetch_one.
    destruct (get_metric_statistics c "AWS/EBS" "VolumeWriteOps" "VolumeId" (v_VolumeId v))
      as [e|dsw] eqn:Ew; [exfalso; apply Hnw; by exists e|].
    unfold mret at 1, M_ret, ret. rewrite extend_extend. cbn [app].
    destruct (script_fetch_step "VolumeId" (v_VolumeId v) dsr accr Hdim Hfr Hmr)
      as (Hfr1 & Hmr1 & Hrr1 & _).
    destruct (script_fetch_step "VolumeId" (v_VolumeId v) dsw accw Hdim Hfw Hmw)
      as (Hfw1 & Hmw1 & Hrw1 & _).
    destruct (IH _ _ (extend w [] []
                [GetMetricStatistics "AWS/EBS" "VolumeReadOps" "VolumeId" (v_VolumeId v);
                 GetMetricStatistics "AWS/EBS" "VolumeWriteOps" "VolumeId" (v_VolumeId v)])
                Hall Hfr1 Hmr1 Hfw1 Hmw1)
      as (dr & dw & -> & Hfr2 & Hmr2 & Hrr2 & Hfw2 & Hmw2 & Hrw2).
    exists dr, dw. rewrite extend_extend. split_and!; try done.
    + rewrite Hrr2, Hrr1. unfold metric_rows_of, read_answers, answers. rewrite bind_cons, Er.
      by rewrite app_assoc.
    + rewrite Hrw2, Hrw1. unfold metric_rows_of, write_answers, answers. rewrite bind_cons, Ew.
      by rewrite app_assoc.
Qed.

Lemma script_fetch_iops (vols : list volume) w :
  vols ≠ [] →
  Forall (λ v, ¬ faults c "AWS/EBS" "VolumeReadOps" "VolumeId" (v_VolumeId v) ∧
               ¬ faults c "AWS/EBS" "VolumeWriteOps" "VolumeId" (v_VolumeId v)) vols →
  ∃ dr dw,
    Script.fetch_iops c (volume_frame vols) w =
      (inr (dr, dw), extend w [] [] (iops_calls vols))
    ∧ metric_frame "VolumeId" dr ∧ ("Maximum" ∈ columns dr → rows dr ≠ [])
    ∧ rows dr = metric_rows_of (read_answers c) "VolumeId" (v_VolumeId <$> vols)
    ∧ metric_frame "VolumeId" dw ∧ ("Maximum" ∈ columns dw → rows dw ≠ [])
    ∧ rows dw = metric_rows_of (write_answers c) "VolumeId" (v_VolumeId <$> vols).
Proof.
  intros Hne Hall. unfold Script.fetch_iops.
  rewrite bind_run, volume_ids by done. unfold lift.
  destruct (script_fetch_iops_loop vols empty_df empty_df w Hall)
    as (dr & dw & Hrun & H); try apply metric_frame_empty;
    try (simpl; intros H; by apply elem_of_nil in H).
  exists dr, dw. split; [exact Hrun|exact H].
Qed.
End ScriptEbs.

Section SameReports.
Variable c : cloud.
Variable vols : list volume.
Implicit Types (df : DataFrame) (w : world) (r : row) (v : volume).

Hypothesis vols_nonempty : vols ≠ [].
Hypothesis has_iops : has_column volume_record vols "Iops".
Hypothesis has_throughput : has_column volume_record vols "Throughput".
Hypothesis some_read : Exists (λ v, read_answers c (v_VolumeId v) ≠ []) vols.
Hypothesis some_write : Exists (λ v, write_answers c (v_VolumeId v) ≠ []) vols.
Hypothesis both_or_none :
  ∀ v, v ∈ vols → read_answers c (v_VolumeId v) = [] ↔ write_answers c (v_VolumeId v) = [].

Lemma script_summed_rows : rows (script_summed c vols) = summed_row c vols <$> vols.
Proof.
  unfold script_summed. rewrite (combined_same c vols both_or_none).
  apply collector_summed_rows.
Qed.

Lemma script_ebs_table dr dw w :
  metric_frame "VolumeId" dr →
  rows dr = metric_rows_of (read_answers c) "VolumeId" (v_VolumeId <$> vols) →
  metric_frame "VolumeId" dw →
  rows dw = metric_rows_of (write_answers c) "VolumeId" (v_VolumeId <$> vols) →
  Script.ebs_table (volume_frame vols) dr dw w = (inr (report_of (script_table c vols)), w).
Proof.
  intros Hfr Hrr Hfw Hrw. unfold Script.ebs_table.
  rewrite bind_run, (script_combine c vols dr dw); try done.
  2:{ rewrite Hrr. by apply some_rows. }
  2:{ rewrite Hrw. by apply some_rows. }
  fold (script_summed c vols). rewrite bind_run, script_extract.
  - unfold lift. fold (script_table c vols). rewrite select_ok; [done|].
    apply (final_columns_present vols); done.
  - unfold script_summed, fillna, add_columns, joined_ebs. cbn [columns].
    rewrite !elem_of_add_col, !elem_of_app. do 4 left.
    apply volume_frame_fixed; [done|set_solver].
  - rewrite script_summed_rows. apply Forall_fmap, Forall_forall. intros v _.
    unfold compose. exists (v_Attachments v). apply summed_row_attachments.
Qed.

Hypothesis own : own_attachments vols.
Hypothesis single : Forall (λ v, (List.length (v_Attachments v) ≤ 1)%nat) vols.

Lemma same_volume_table : script_table c vols = collector_table c vols.
Proof.
  unfold script_table, collector_table, all_attachments.
  rewrite script_summed_rows, all_attachments_summed.
  unfold script_summed. rewrite (combined_same c vols both_or_none).
  unfold with_instance_id. f_equal. rewrite collector_summed_rows.
  rewrite <- !list_fmap_compose. apply Forall_fmap_ext_1, Forall_forall. intros v Hv.
  unfold compose. f_equal.
  rewrite first_attachment_summed, (last_attachment_summed c vols v own Hv).
  pose proof (proj1 (Forall_forall _ _) single v Hv) as Hlen.
  cbn beta in Hlen. revert Hlen.
  destruct (v_Attachments v) as [|a [|b l]]; simpl; [done|done|lia].
Qed.
End SameReports.

(** * Whole runs *)

Section Runs.
Variable c : cloud.
Implicit Types (df : DataFrame) (w : world).

Lemma keeps_files_lift {A} (r : res A) : keeps_files (lift r).
Proof. intros w r' w' [= _ <-]. done. Qed.

Lemma keeps_files_ret {A} (a : A) : keeps_files (mret a : M A).
Proof. intros w r' w' [= _ <-]. done. Qed.

Lemma keeps_files_raise {A} e : keeps_files (raise e : M A).
Proof. intros w r' w' [= _ <-]. done. Qed.

Lemma keeps_files_bind {A B} (m : M A) (f : A → M B) :
  keeps_files m → (∀ a, keeps_files (f a)) → keeps_files (m ≫= f).
Proof.
  intros Hm Hf w r w'. rewrite bind_run.
  destruct (m w) as [[e|a] w1] eqn:E.
  - intros [= _ <-]. by eapply Hm.
  - intros H. rewrite (Hf a _ _ _ H). by eapply Hm.
Qed.

Lemma keeps_files_for_each {A S} (l : list A) (body : A → S → M S) s :
  (∀ x s, keeps_files (body x s)) → keeps_files (for_each l body s).
Proof.
  intros Hb. revert s. induction l as [|x l IH]; intros s.
  - apply keeps_files_ret.
  - cbn [for_each]. apply keeps_files_bind; [apply Hb|apply IH].
Qed.

Lemma keeps_files_called a : keeps_files (called a).
Proof. intros w r w' [= _ <-]. done. Qed.

Lemma keeps_files_api ns m dim v : keeps_files (api_get_metric_statistics c ns m dim v).
Proof.
  unfold api_get_metric_statistics. destruct v; try apply keeps_files_raise.
  apply keeps_files_bind; [apply keeps_files_called|intros; apply keeps_files_lift].
Qed.

Lemma keeps_files_script_fetch_one ns m dim v acc :
  keeps_files (Script.fetch_one c ns m dim v acc).
Proof.
  unfold Script.fetch_one.
  apply keeps_files_bind; [apply keeps_files_api|intros; apply keeps_files_ret].
Qed.

Lemma keeps_files_fetch_cpu df : keeps_files (Script.fetch_cpu c df).
Proof.
  unfold Script.fetch_cpu. apply keeps_files_bind; [apply keeps_files_lift|].
  intros ids. apply keeps_files_for_each. intros. apply keeps_files_script_fetch_one.
Qed.

Lemma keeps_files_fetch_iops df : keeps_files (Script.fetch_iops c df).
Proof.
  unfold Script.fetch_iops. apply keeps_files_bind; [apply keeps_files_lift|].
  intros ids. apply keeps_files_for_each. intros x s.
  apply keeps_files_bind; [apply keeps_files_script_fetch_one|]. intros.
  apply keeps_files_bind; [apply keeps_files_script_fetch_one|]. intros.
  apply keeps_files_ret.
Qed.

Lemma keeps_files_ebs_table df dr dw : keeps_files (Script.ebs_table df dr dw).
Proof.
  unfold Script.ebs_table, Script.combine_ebs, Script.extract_instance_ids.
  repeat first
    [ apply keeps_files_lift | apply keeps_files_ret
    | apply keeps_files_bind; [|intros]
    | apply keeps_files_for_each; intros ].
  unfold Script.attach_step. destruct x; try apply keeps_files_raise. apply keeps_files_ret.
Qed.

(** The handlers of [generate_reports] and [main]. *)
Lemma collector_main_run w :
  Collector.main c w =
    match (Collector.ec2_part c ≫= λ _, Collector.ebs_part c) w with
    | (inl e, w') =>
        (inl e, extend w' [(ERROR, "Error generating reports: " +:+ exn_str e);
                           (ERROR, "Failed to generate reports: " +:+ exn_str e)] [] [])
    | (inr a, w') => (inr a, w')
    end.
Proof.
  unfold Collector.main, Collector.generate_reports, try_except.
  destruct ((Collector.ec2_part c ≫= λ _, Collector.ebs_part c) w) as [[e|a] w'] eqn:E.
  - rewrite bind_run, logger_run. unfold raise.
    rewrite bind_run, logger_run, extend_extend. done.
  - done.
Qed.
End Runs.

(** * A selected column that no instance carries *)

Section MissingColumns.
Variable c : cloud.
Implicit Types (df : DataFrame) (w : world) (xs : list instance).

Lemma select_missing_columns {A} (record : A → list (string * cell)) (xs : list A)
    cols df col :
  (∀ x, x ∈ columns df ↔ has_column record xs x) →
  col ∈ cols → ¬ has_column record xs col →
  select cols df = inl (KeyError (missing_columns record xs cols))
  ∧ col ∈ missing_columns record xs cols.
Proof.
  intros Hdf Hcol Hno.
  assert (filter (λ x, x ∉ columns df) cols = missing_columns record xs cols) as Hf.
  { unfold missing_columns. apply list_filter_iff. intros x. by rewrite Hdf. }
  assert (col ∈ missing_columns record xs cols) as Hin.
  { unfold missing_columns. apply list_elem_of_filter. by split. }
  split; [|done]. unfold select. rewrite Hf.
  destruct (missing_columns record xs cols); [by apply elem_of_nil in Hin|done].
Qed.

Lemma collector_instances_missing rs w col :
  describe_instances c = inr rs → List.concat rs ≠ [] →
  col ∈ ec2_columns → ¬ has_column instance_record (List.concat rs) col →
  Collector.get_ec2_instances c w =
    (inl (KeyError (missing_columns instance_record (List.concat rs) ec2_columns)),
     extend w [(ERROR, "Error retrieving EC2 instances: " +:+
                       exn_str (KeyError (missing_columns instance_record (List.concat rs)
                                            ec2_columns)))] []
            [DescribeInstances]).
Proof.
  intros Hrs Hne Hcol Hno.
  unfold Collector.get_ec2_instances, try_except, api_describe_instances.
  rewrite bind_run, bind_run, called_run, Hrs. unfold lift.
  rewrite instance_frame_empty, bool_decide_eq_false_2 by done.
  rewrite bind_run.
  destruct (select_missing_columns instance_record (List.concat rs) ec2_columns
              (from_records (instance_record <$> List.concat rs)) col) as [-> _]; try done.
  { intros x. apply from_records_columns. }
  rewrite bind_run, logger_run, extend_extend. done.
Qed.

Lemma script_instances_missing_columns rs w col :
  describe_instances c = inr rs →
  col ∈ ec2_columns → ¬ has_column instance_record (List.concat rs) col →
  Script.instances_frame c w =
    (inl (KeyError (missing_columns instance_record (List.concat rs) ec2_columns)),
     extend w [] [] [DescribeInstances]).
Proof.
  intros Hrs Hcol Hno.
  unfold Script.instances_frame, api_describe_instances.
  rewrite bind_run, bind_run, called_run, Hrs. unfold lift.
  fold (script_fold empty_df rs). rewrite bind_run.
  destruct (select_missing_columns instance_record (List.concat rs) ec2_columns
              (script_fold empty_df rs) col) as [-> _]; try done.
  intros x. rewrite script_fold_columns. split; [|by right].
  intros [H|H]; [by apply elem_of_nil in H|done].
Qed.
End MissingColumns.

(** * The rates in the report of the class *)

Section VolumeRates.
Variable c : cloud.
Variable vols : list volume.
Implicit Types (df : DataFrame) (w : world) (r : row) (v : volume).

Hypothesis ids_distinct : NoDup (v_VolumeId <$> vols).

Lemma rate_group_cell (ans : string → list datapoint) v a :
  v ∈ vols → a ∈ [Mean; Max] →
  (if decide (v_VolumeId v ∈ group_keys "VolumeId" (rate_table ans vols))
   then agg_cell a (group_values "VolumeId" "Maximum" (v_VolumeId v) (rate_table ans vols))
   else NaN) = agg_cell a (rate_values ans (v_VolumeId v)).
Proof.
  intros Hv Ha.
  assert ("VolumeId" ∉ dp_cols) as Hfresh by (vm_compute; set_solver).
  assert (v_VolumeId v ∈ v_VolumeId <$> vols) as Hid.
  { apply list_elem_of_fmap. eauto. }
  assert (d_Maximum <$> rates ans (v_VolumeId v) = rate_values ans (v_VolumeId v)) as Hr.
  { unfold rates, rate_values. by rewrite <- list_fmap_compose. }
  unfold rate_table. case_decide as Hk.
  - by rewrite (metric_group_values_unique _ _ Hfresh _ _ _ ids_distinct Hid), Hr.
  - rewrite metric_group_keys in Hk. rewrite <- Hr.
    destruct (rates ans (v_VolumeId v)) eqn:E.
    + repeat (apply elem_of_cons in Ha as [->|Ha]); [done..|]. by apply elem_of_nil in Ha.
    + exfalso. apply Hk. split; [done|]. by intros ?; simplify_eq.
Qed.

Lemma summed_row_total v x a nr nw :
  v ∈ vols → a ∈ [Mean; Max] → (a, nr) ∈ read_stats → (a, nw) ∈ write_stats →
  (x = "MeanIOPS" ∧ nr = "meanReadIOPS" ∧ nw = "meanWriteIOPS") ∨
  (x = "MaxIOPS" ∧ nr = "maxReadIOPS" ∧ nw = "maxWriteIOPS") →
  summed_row c vols v !! x =
    Some (cell_add (fill (Num (0 # 1)) (agg_cell a (rate_values (read_answers c) (v_VolumeId v))))
                   (fill (Num (0 # 1)) (agg_cell a (rate_values (write_answers c) (v_VolumeId v))))).
Proof.
  intros Hv Ha Hr Hw Hx.
  pose proof (volume_frame_columns vols) as Hcols.
  assert (summed_row c vols v !! x =
          Some (cell_add
                  (default NaN ((fill (Num (0 # 1)) <$> joined_row c vols
                       (volume_row (columns (volume_frame vols)) v)) !! nr))
                  (default NaN ((fill (Num (0 # 1)) <$> joined_row c vols
                       (volume_row (columns (volume_frame vols)) v)) !! nw)))) as ->.
  { unfold summed_row. destruct Hx as [(-> & -> & ->)|(-> & -> & ->)].
    - by rewrite lookup_insert_eq.
    - by rewrite lookup_insert_ne, lookup_insert_eq by done. }
  rewrite !lookup_fmap.
  rewrite (joined_row_read c vols _ Hcols v a nr Hr).
  rewrite (joined_row_write c vols _ Hcols v a nw Hw).
  cbn [fmap option_fmap option_map default].
  by rewrite !rate_group_cell.
Qed.

Lemma collector_report_cell k v col :
  vols !! k = Some v → col ∈ final_columns →
  cell_at (report_of (collector_table c vols)) k col =
    Some (default NaN
            ((<["InstanceId" := first_attachment (summed_row c vols v)]>
                (summed_row c vols v)) !! col)).
Proof.
  intros Hk Hcol. unfold cell_at, report_of, collector_table, with_instance_id.
  cbn [rows]. rewrite collector_summed_rows.
  rewrite !list_lookup_fmap, Hk. cbn [fmap option_fmap option_map mbind option_bind].
  by rewrite lookup_restrict, decide_True.
Qed.
End VolumeRates.

(** * The claims *)

Section Ec2Claims.
Variable c : cloud.
Implicit Types (df : DataFrame) (w : world) (xs : list instance).

Lemma has_columns_nonempty xs :
  Forall (has_column instance_record xs) ec2_columns → xs ≠ [].
Proof.
  intros H ->. apply Forall_cons in H as [H _]. unfold has_column in H.
  by apply Exists_nil in H.
Qed.

Lemma ec2_report_follows xs : follows_inventory xs (ec2_report c xs).
Proof.
  pose proof (ec2_report_rows c xs) as H. split; [|done].
  symmetry. by eapply Forall2_length.
Qed.

Lemma joined_ec2_follows xs : follows_inventory xs (joined_ec2 c xs).
Proof.
  assert (Forall2 (λ i r, inventory_row i ⊆ r) xs (rows (joined_ec2 c xs))) as H.
  { unfold joined_ec2. cbn [rows]. apply Forall2_fmap_r, Forall_Forall2_diag, Forall_forall.
    intros i _. apply ec2_row_inventory. }
  split; [|done]. symmetry. by eapply Forall2_length.
Qed.

(** What a complete run of the notebook has gone through. *)
Lemma script_success rs w w' :
  describe_instances c = inr rs →
  Forall (has_column instance_record (List.concat rs)) ec2_columns →
  Script.script c w = (inr tt, w') →
  ∃ ebs,
    files w' = files w ++ [("ec2_report-" +:+ region_name c +:+ ".csv",
                            joined_ec2 c (List.concat rs));
                           ("ebs_report-" +:+ region_name c +:+ ".csv", ebs)]
    ∧ rows (cpu_table c (List.concat rs)) ≠ []
    ∧ Forall (λ id, ¬ faults c "AWS/EC2" "CPUUtilization" "InstanceId" id)
             (i_InstanceId <$> List.concat rs).
Proof.
  intros Hrs Hcols. pose proof (has_columns_nonempty _ Hcols) as Hne.
  unfold Script.script.
  rewrite bind_run, (script_instances_ok c rs w Hrs Hcols).
  rewrite bind_run, script_volumes.
  destruct (describe_volumes c) as [e|vols]; [done|].
  rewrite bind_run.
  destruct (script_fetch_cpu c (List.concat rs)
              (extend (extend w [] [] [DescribeInstances]) [] [] [DescribeVolumes]))
    as [(Hall & df & -> & Hf & Hm & Hr & Hd)|(_ & e & w1 & ->)]; [|done].
  rewrite bind_run, (script_ec2_table c (List.concat rs) df); try done; [|by apply Hd].
  case_decide as Hcpu; [done|].
  rewrite bind_run.
  destruct (Script.fetch_iops c (volume_frame vols) _) as [[e|iops] w3] eqn:E3; [done|].
  apply keeps_files_fetch_iops in E3.
  rewrite bind_run.
  destruct (Script.ebs_table (volume_frame vols) iops.1 iops.2 w3) as [[e|df4] w4] eqn:E4;
    [done|].
  apply keeps_files_ebs_table in E4.
  rewrite bind_run, to_csv_run, to_csv_run, extend_extend.
  intros [= <-]. exists df4. split_and!; [|done|done].
  cbn [files extend]. rewrite E4, E3. cbn [files extend]. by rewrite !app_nil_r.
Qed.
End Ec2Claims.

(** Whenever the inventory call answers with at least one instance and
    every one of the seven inventory columns is carried by some instance,
    the class writes an EC2 report with exactly one row per instance, in
    the order of the response, each row carrying the inventory cells of its
    instance; and every run of the notebook that completes has written
    such a report too. *)
Theorem ec2_report_rows_follow_inventory (c : cloud) (rs : list (list instance)) (w : world) :
  describe_instances c = inr rs →
  List.concat rs ≠ [] →
  Forall (has_column instance_record (List.concat rs)) ec2_columns →
  (∃ df w',
     Collector.ec2_part c w = (inr tt, w')
     ∧ files w' = files w ++ [(Collector.ec2_report_name c, df)]
     ∧ follows_inventory (List.concat rs) df)
  ∧ (∀ w', Script.script c w = (inr tt, w') →
       ∃ df ebs,
         files w' = files w ++ [("ec2_report-" +:+ region_name c +:+ ".csv", df);
                                ("ebs_report-" +:+ region_name c +:+ ".csv", ebs)]
         ∧ follows_inventory (List.concat rs) df).
Proof.
  intros Hrs Hne Hcols. split.
  - eexists _, _. split; [by apply collector_ec2_part_ok|]. split; [done|].
    apply ec2_report_follows.
  - intros w' Hrun. destruct (script_success c rs w w' Hrs Hcols Hrun) as (ebs & Hf & _).
    exists (joined_ec2 c (List.concat rs)), ebs. split; [done|]. apply joined_ec2_follows.
Qed.

Lemma ec2_report_rows_follow_inventory_witness :
  describe_instances demo_cloud = inr [[sample_instance "i-1"; sample_instance "i-2"]]
  ∧ List.concat [[sample_instance "i-1"; sample_instance "i-2"]] ≠ []
  ∧ Forall (has_column instance_record
              (List.concat [[sample_instance "i-1"; sample_instance "i-2"]])) ec2_columns
  ∧ ((∃ df w',
        Collector.ec2_part demo_cloud world0 = (inr tt, w')
        ∧ files w' = files world0 ++ [(Collector.ec2_report_name demo_cloud, df)]
        ∧ follows_inventory (List.concat [[sample_instance "i-1"; sample_instance "i-2"]]) df)
     ∧ (∀ w', Script.script demo_cloud world0 = (inr tt, w') →
          ∃ df ebs,
            files w' = files world0 ++
                         [("ec2_report-" +:+ region_name demo_cloud +:+ ".csv", df);
                          ("ebs_report-" +:+ region_name demo_cloud +:+ ".csv", ebs)]
            ∧ follows_inventory
                (List.concat [[sample_instance "i-1"; sample_instance "i-2"]]) df)).
Proof.
  assert (Forall (has_column instance_record
            (List.concat [[sample_instance "i-1"; sample_instance "i-2"]])) ec2_columns) as H.
  { apply Forall_forall. intros col Hcol. left. vm_compute. set_solver. }
  split; [reflexivity|]. split; [done|]. split; [exact H|].
  apply (ec2_report_rows_follow_inventory demo_cloud
           [[sample_instance "i-1"; sample_instance "i-2"]] world0); [reflexivity|done|exact H].
Defined.

(** C9.  The claim fails on a response whose instances all lack one of the
    seven inventory columns (an instance without a public address has no
    PublicIpAddress key): the selection [df[columns]] (line 51 of the
    class, line 42 of the notebook) raises [KeyError] with the missing
    columns before [fillna('')] can fill them.  The class logs the
    exception in [get_ec2_instances], [generate_reports] and [main] and
    re-raises it, the notebook stops; either way the run ends after the one
    inventory call and no report is written, although the response has
    instances. *)
Theorem C9_missing_column_no_report (c : cloud) (rs : list (list instance)) (w : world)
    (col : string) :
  describe_instances c = inr rs →
  List.concat rs ≠ [] →
  col ∈ ec2_columns →
  ¬ has_column instance_record (List.concat rs) col →
  col ∈ missing_columns instance_record (List.concat rs) ec2_columns
  ∧ Collector.main c w =
      (inl (KeyError (missing_columns instance_record (List.concat rs) ec2_columns)),
       extend w
         [(INFO, "Retrieving EC2 instances...");
          (ERROR, "Error retrieving EC2 instances: " +:+
                  exn_str (KeyError
                    (missing_columns instance_record (List.concat rs) ec2_columns)));
          (ERROR, "Error generating reports: " +:+
                  exn_str (KeyError
                    (missing_columns instance_record (List.concat rs) ec2_columns)));
          (ERROR, "Failed to generate reports: " +:+
                  exn_str (KeyError
                    (missing_columns instance_record (List.concat rs) ec2_columns)))]
         [] [DescribeInstances])
  ∧ Script.script c w =
      (inl (KeyError (missing_columns instance_record (List.concat rs) ec2_columns)),
       extend w [] [] [DescribeInstances]).
Proof.
  intros Hrs Hne Hcol Hno. split; [|split].
  - unfold missing_columns. apply list_elem_of_filter. by split.
  - rewrite collector_main_run, bind_run. unfold Collector.ec2_part.
    rewrite bind_run, logger_run, bind_run.
    rewrite (collector_instances_missing c rs _ col Hrs Hne Hcol Hno).
    rewrite !extend_extend. done.
  - unfold Script.script.
    by rewrite bind_run, (script_instances_missing_columns c rs w col Hrs Hcol Hno).
Qed.

Lemma C9_witness_missing_column :
  describe_instances private_cloud = inr [[private_instance "i-1"]; [private_instance "i-2"]]
  ∧ List.length (List.concat [[private_instance "i-1"]; [private_instance "i-2"]]) = 2%nat
  ∧ ¬ has_column instance_record
        (List.concat [[private_instance "i-1"]; [private_instance "i-2"]]) "PublicIpAddress"
  ∧ missing_columns instance_record
      (List.concat [[private_instance "i-1"]; [private_instance "i-2"]]) ec2_columns
    = ["PublicIpAddress"]
  ∧ (Collector.main private_cloud world0).1 = inl (KeyError ["PublicIpAddress"])
  ∧ files (Collector.main private_cloud world0).2 = []
  ∧ calls (Collector.main private_cloud world0).2 = [DescribeInstances]
  ∧ (Script.script private_cloud world0).1 = inl (KeyError ["PublicIpAddress"])
  ∧ files (Script.script private_cloud world0).2 = []
  ∧ calls (Script.script private_cloud world0).2 = [DescribeInstances].
Proof.
  assert (¬ has_column instance_record
              (List.concat [[private_instance "i-1"]; [private_instance "i-2"]])
              "PublicIpAddress") as Hno.
  { unfold has_column. intros H. apply Exists_exists in H as (x & Hx & Hin).
    repeat (apply elem_of_cons in Hx as [->|Hx]); [vm_compute in Hin; set_solver..|].
    by apply elem_of_nil in Hx. }
  assert (missing_columns instance_record
            (List.concat [[private_instance "i-1"]; [private_instance "i-2"]]) ec2_columns
          = ["PublicIpAddress"]) as Hms by (vm_compute; reflexivity).
  assert ("PublicIpAddress" ∈ ec2_columns) as Hcol by by apply (bool_decide_unpack _).
  destruct (C9_missing_column_no_report private_cloud
              [[private_instance "i-1"]; [private_instance "i-2"]] world0 "PublicIpAddress"
              eq_refl ltac:(discriminate) Hcol Hno) as (_ & Hclass & Hnotebook).
  rewrite Hms in Hclass, Hnotebook.
  split; [reflexivity|]. split; [reflexivity|]. split; [exact Hno|]. split; [exact Hms|].
  rewrite Hclass, Hnotebook. repeat split.
Defined.

Section JoinClaim.
Variable c : cloud.
Implicit Types (df : DataFrame) (w : world) (xs : list instance).

Lemma cpu_table_empty xs : rows (cpu_table c xs) = [] ↔ Forall (no_data c) xs.
Proof.
  unfold cpu_table, metric_rows. cbn [rows]. rewrite metric_rows_nil, Forall_forall.
  unfold no_data. split.
  - intros H i Hi. apply H. apply list_elem_of_fmap. eauto.
  - intros H id Hid. apply list_elem_of_fmap in Hid as (i & -> & Hi). by apply H.
Qed.

Lemma joined_ec2_zero xs :
  Forall2 (λ i r, no_data c i → zero_aggregates r) xs (rows (joined_ec2 c xs)).
Proof.
  unfold joined_ec2. cbn [rows]. apply Forall2_fmap_r, Forall_Forall2_diag, Forall_forall.
  intros i _ Hno n Hn. by apply ec2_row_no_data.
Qed.

(** The table of a notebook run whose queries and aggregation succeed. *)
Lemma script_ec2_success xs w1 df w2 out w3 :
  xs ≠ [] →
  Script.fetch_cpu c (instance_frame xs) w1 = (inr df, w2) →
  Script.ec2_table (instance_frame xs) df w2 = (inr out, w3) →
  out = joined_ec2 c xs.
Proof.
  intros Hne Hfetch Htable.
  destruct (script_fetch_cpu c xs w1)
    as [(Hall & df' & Hrun & Hf & Hm & Hr & Hd)|(_ & e & w' & Hrun)];
    rewrite Hrun in Hfetch; [|done].
  injection Hfetch as -> <-.
  rewrite (script_ec2_table c xs df) in Htable; try done; [|by apply Hd].
  case_decide; [done|]. by injection Htable as <- _.
Qed.
End JoinClaim.

(** C1, as amended.  The join is a left join: the class returns one row per
    inventory row, in order, with the inventory cells unchanged.  When some
    instance returned datapoints, every instance without datapoints has zero
    in all four aggregate columns; when no instance returned any datapoint,
    the class returns the inventory frame as it is, without aggregate
    columns.  The table of the notebook, whenever its queries and its
    aggregation succeed, is the same left join with the same zeros. *)
Theorem C1_left_join_zero_fill (c : cloud) (xs : list instance) (w : world) :
  xs ≠ [] →
  (∃ out w',
     Collector.process_ec2_metrics c (instance_frame xs) w = (inr out, w')
     ∧ follows_inventory xs out
     ∧ (Exists (λ i, ¬ no_data c i) xs →
        Forall2 (λ i r, no_data c i → zero_aggregates r) xs (rows out))
     ∧ (Forall (no_data c) xs → out = instance_frame xs))
  ∧ (∀ w1 df w2 out w3,
       Script.fetch_cpu c (instance_frame xs) w1 = (inr df, w2) →
       Script.ec2_table (instance_frame xs) df w2 = (inr out, w3) →
       follows_inventory xs out
       ∧ Forall2 (λ i r, no_data c i → zero_aggregates r) xs (rows out)).
Proof.
  intros Hne. split.
  - eexists _, _. split; [by apply collector_process_ec2|].
    split; [apply ec2_report_follows|]. unfold ec2_report. split.
    + intros Hex. rewrite decide_False; [apply joined_ec2_zero|].
      rewrite cpu_table_empty. intros Hall. apply Exists_exists in Hex as (i & Hi & Hd).
      by apply Hd, (proj1 (Forall_forall _ _) Hall).
    + intros Hall. by rewrite decide_True by by apply cpu_table_empty.
  - intros w1 df w2 out w3 Hfetch Htable.
    rewrite (script_ec2_success c xs w1 df w2 out w3 Hne Hfetch Htable).
    split; [apply joined_ec2_follows|apply joined_ec2_zero].
Qed.

Lemma C1_witness :
  [sample_instance "i-1"; sample_instance "i-2"] ≠ []
  ∧ ((∃ out w',
        Collector.process_ec2_metrics demo_cloud
          (instance_frame [sample_instance "i-1"; sample_instance "i-2"]) world0 = (inr out, w')
        ∧ follows_inventory [sample_instance "i-1"; sample_instance "i-2"] out
        ∧ (Exists (λ i, ¬ no_data demo_cloud i) [sample_instance "i-1"; sample_instance "i-2"] →
           Forall2 (λ i r, no_data demo_cloud i → zero_aggregates r)
                   [sample_instance "i-1"; sample_instance "i-2"] (rows out))
        ∧ (Forall (no_data demo_cloud) [sample_instance "i-1"; sample_instance "i-2"] →
           out = instance_frame [sample_instance "i-1"; sample_instance "i-2"]))
     ∧ (∀ w1 df w2 out w3,
          Script.fetch_cpu demo_cloud
            (instance_frame [sample_instance "i-1"; sample_instance "i-2"]) w1 = (inr df, w2) →
          Script.ec2_table (instance_frame [sample_instance "i-1"; sample_instance "i-2"])
                           df w2 = (inr out, w3) →
          follows_inventory [sample_instance "i-1"; sample_instance "i-2"] out
          ∧ Forall2 (λ i r, no_data demo_cloud i → zero_aggregates r)
                    [sample_instance "i-1"; sample_instance "i-2"] (rows out))).
Proof.
  split; [done|].
  apply (C1_left_join_zero_fill demo_cloud
           [sample_instance "i-1"; sample_instance "i-2"] world0). done.
Defined.

(** C1, as stated, fails: the only instance returned no datapoint, and the
    report of the class has its row but none of the aggregate columns. *)
Lemma C1_counterexample :
  no_data idle_cloud (sample_instance "i-1")
  ∧ (Collector.main idle_cloud world0).1 = inr tt
  ∧ files (Collector.main idle_cloud world0).2 =
      [("ec2_report-us-east-1.csv", instance_frame [sample_instance "i-1"])]
  ∧ Forall no_aggregates (rows (instance_frame [sample_instance "i-1"]))
  ∧ ¬ Forall zero_aggregates (rows (instance_frame [sample_instance "i-1"])).
Proof.
  split; [reflexivity|]. split; [by vm_compute|]. split; [by vm_compute|]. split.
  - repeat constructor. intros n Hn. by apply inventory_row_stats.
  - intros H. apply Forall_cons in H as [H _].
    specialize (H "meanCPU" ltac:(simpl; set_solver)). done.
Qed.

Section RateClaim.
Variable ans : string → list datapoint.
Variable ids : list string.
Variable stats : list (agg * string).
Implicit Types (df : DataFrame) (w : world).

Lemma group_values_rows key val k (a b : DataFrame) :
  rows a = rows b → group_values key val k a = group_values key val k b.
Proof. intros H. unfold group_values. by rewrite H. Qed.

Lemma group_keys_rows key (a b : DataFrame) :
  rows a = rows b → group_keys key a = group_keys key b.
Proof. intros H. unfold group_keys. by rewrite H. Qed.

Lemma aggregated_rates df k :
  "VolumeId" ∉ stats.*2 → NoDup stats.*2 →
  metric_frame "VolumeId" df →
  rows df = metric_rows_of (rates ans) "VolumeId" ids →
  NoDup ids → k ∈ ids → ans k ≠ [] →
  ∃ g r,
    groupby_agg "VolumeId" "Maximum" stats df = inr g
    ∧ df_empty df = false
    ∧ filter (λ r : row, r !! "VolumeId" = Some (Str k)) (rows g) = [r]
    ∧ ∀ a n, (a, n) ∈ stats → r !! n = Some (agg_cell a (d_Maximum <$> rates ans k)).
Proof.
  intros Hkey Hnd Hf Hr Hids Hk Hne.
  assert (rows df ≠ []) as Hrows.
  { rewrite Hr, metric_rows_rates_nil. intros H.
    apply Hne, (proj1 (metric_rows_nil ans "VolumeId" ids) H k Hk). }
  destruct Hf as (Hc1 & Hc2 & Hc3). specialize (Hc3 Hrows).
  rewrite groupby_agg_ok.
  2:{ apply Hc3, elem_of_add_col. by right. }
  2:{ apply Hc3, elem_of_add_col. left. set_solver. }
  eexists _, (group_row "VolumeId" "Maximum" stats df k). split; [reflexivity|].
  split; [by apply (metric_frame_nonempty "VolumeId")|]. split.
  - cbn [rows]. rewrite filter_group_rows by apply NoDup_group_keys.
    rewrite decide_True; [done|].
    rewrite (group_keys_rows _ df (mkDF [] (metric_rows_of (rates ans) "VolumeId" ids))) by done.
    apply metric_group_keys. split; [done|]. unfold rates. by destruct (ans k).
  - intros a n Hin. rewrite (group_row_stat _ _ _ _ _ a n) by done. do 2 f_equal.
    rewrite (group_values_rows _ _ _ df
               (mkDF [] (metric_rows_of (rates ans) "VolumeId" ids))) by done.
    apply metric_group_values_unique; [vm_compute; set_solver|done..].
Qed.
End RateClaim.

(** C5.  In both programs every datapoint value of a volume metric is
    divided by 3600 before the table is grouped: the converted table holds
    the rate of every datapoint, the aggregates of a volume are computed
    from its rates, and the totals 3600 and 7200 give the rates 1 and 2
    with mean 3/2. *)
Theorem C5_rates_before_aggregation (ans : string → list datapoint)
    (ids : list string) (stats : list (agg * string)) (df : DataFrame)
    (k : string) (w : world) :
  stats = read_stats ∨ stats = write_stats →
  metric_frame "VolumeId" df →
  rows df = metric_rows_of ans "VolumeId" ids →
  NoDup ids → k ∈ ids → ans k ≠ [] →
  (∃ rated g r,
     Collector.to_rate df w = (inr rated, w)
     ∧ per_second df = inr rated
     ∧ rows rated = metric_rows_of (rates ans) "VolumeId" ids
     ∧ Collector.aggregate stats rated w = (inr g, w)
     ∧ groupby_agg "VolumeId" "Maximum" stats rated = inr g
     ∧ filter (λ r : row, r !! "VolumeId" = Some (Str k)) (rows g) = [r]
     ∧ ∀ a n, (a, n) ∈ stats →
         r !! n = Some (agg_cell a ((λ d, qdiv (d_Maximum d) (3600 # 1)) <$> ans k)))
  ∧ d_Maximum <$> (rate_dp <$> sample_points [3600; 7200]%Z) = [(1 # 1)%Q; (2 # 1)%Q]
  ∧ agg_cell Mean (d_Maximum <$> (rate_dp <$> sample_points [3600; 7200]%Z)) = Num (3 # 2).
Proof.
  intros Hstats Hf Hr Hids Hk Hne. split; [|by vm_compute].
  assert ("VolumeId" ∉ dp_cols) as Hdim by (vm_compute; set_solver).
  assert (rows df ≠ []) as Hrows.
  { rewrite Hr. intros H. apply Hne, (proj1 (metric_rows_nil ans "VolumeId" ids) H k Hk). }
  destruct (per_second_metric ans "VolumeId" Hdim df ids Hf Hr Hrows) as (rated & Hp & Hf' & Hr').
  destruct (aggregated_rates ans ids stats rated k) as (g & r & Hg & He & Hfil & Hcells);
    try done.
  { destruct Hstats as [-> | ->]; simpl; set_solver. }
  { destruct Hstats as [-> | ->]; simpl; repeat constructor; set_solver. }
  exists rated, g, r. split_and!; try done.
  - unfold Collector.to_rate. rewrite (metric_frame_nonempty _ _ Hf Hrows). cbn [negb].
    unfold lift. by rewrite Hp.
  - unfold Collector.aggregate. rewrite He. cbn [negb]. unfold lift. by rewrite Hg.
  - intros a n Hin. rewrite (Hcells a n Hin). do 2 f_equal.
    unfold rates. rewrite <- list_fmap_compose. done.
Qed.

Lemma C5_witness :
  (read_stats = read_stats ∨ read_stats = write_stats)
  ∧ metric_frame "VolumeId"
      (mkDF (metric_cols "VolumeId")
            (metric_rows_of (read_answers demo_cloud) "VolumeId" ["v-1"; "v-2"]))
  ∧ NoDup ["v-1"; "v-2"] ∧ "v-1" ∈ ["v-1"; "v-2"] ∧ read_answers demo_cloud "v-1" ≠ []
  ∧ ∃ rated g r,
      per_second (mkDF (metric_cols "VolumeId")
                    (metric_rows_of (read_answers demo_cloud) "VolumeId" ["v-1"; "v-2"]))
        = inr rated
      ∧ groupby_agg "VolumeId" "Maximum" read_stats rated = inr g
      ∧ filter (λ r : row, r !! "VolumeId" = Some (Str "v-1")) (rows g) = [r]
      ∧ r !! "meanReadIOPS" = Some (Num (3 # 2))
      ∧ r !! "maxReadIOPS" = Some (Num (2 # 1)).
Proof.
  assert (metric_frame "VolumeId"
            (mkDF (metric_cols "VolumeId")
                  (metric_rows_of (read_answers demo_cloud) "VolumeId" ["v-1"; "v-2"]))) as Hf.
  { split_and!; [done| |done]. cbn [rows]. apply Forall_forall. intros r Hr x Hx.
    apply elem_of_metric_rows in Hr as (id & d & _ & _ & ->). by apply dp_row_full. }
  assert (NoDup ["v-1"; "v-2"]) as Hnd by (repeat constructor; set_solver).
  assert ("v-1" ∈ ["v-1"; "v-2"]) as Hin by set_solver.
  assert (read_answers demo_cloud "v-1" ≠ []) as Hne by done.
  split; [by left|]. split; [exact Hf|]. split; [exact Hnd|]. split; [exact Hin|].
  split; [exact Hne|].
  destruct (C5_rates_before_aggregation (read_answers demo_cloud) ["v-1"; "v-2"] read_stats
              _ "v-1" world0 (or_introl eq_refl) Hf eq_refl Hnd Hin Hne)
    as [(rated & g & r & _ & Hp & _ & _ & Hg & Hfil & Hcells) _].
  exists rated, g, r. split_and!; [done|done|done| |].
  - by rewrite (Hcells Mean "meanReadIOPS") by (simpl; set_solver).
  - by rewrite (Hcells Max "maxReadIOPS") by (simpl; set_solver).
Defined.

Section SumClaim.
Implicit Types (df : DataFrame) (w : world).

(** The class fills before it sums: wherever the four aggregate columns
    exist, the sums of every row are those of the cells of the row. *)
Lemma collector_total_iops_exact df w :
  "maxReadIOPS" ∈ columns df → "maxWriteIOPS" ∈ columns df →
  "meanReadIOPS" ∈ columns df → "meanWriteIOPS" ∈ columns df →
  ∃ df',
    Collector.total_iops df w = (inr df', w)
    ∧ Forall (λ r : row,
        r !! "MaxIOPS" = Some (cell_add (default NaN (r !! "maxReadIOPS"))
                                        (default NaN (r !! "maxWriteIOPS")))
        ∧ r !! "MeanIOPS" = Some (cell_add (default NaN (r !! "meanReadIOPS"))
                                           (default NaN (r !! "meanWriteIOPS"))))
        (rows df').
Proof.
  intros H1 H2 H3 H4. unfold Collector.total_iops. rewrite decide_True by done.
  rewrite bind_run. unfold lift. rewrite set_sum_ok by done.
  rewrite set_sum_ok by (unfold add_columns; cbn [columns]; apply elem_of_add_col; by left).
  eexists. split; [reflexivity|]. unfold add_columns. cbn [rows].
  rewrite <- list_fmap_compose. apply Forall_fmap, Forall_forall. intros r _.
  unfold compose. split.
  - rewrite lookup_insert_ne, lookup_insert_eq, !lookup_insert_ne by done. done.
  - rewrite lookup_insert_eq, !lookup_insert_ne by done. done.
Qed.
End SumClaim.

(** C2.  The notebook sums before it fills (lines 199-201): for the volume
    "v-1", which has writes and no reads, the write maximum is 1 and the
    read maximum is filled with 0, yet MaxIOPS is 0, and so is MeanIOPS.
    The class, on the same responses, has 1 in both. *)
Theorem C2_notebook_sums_before_fill :
  match notebook_combined mixed_cloud with
  | inr df_v3 =>
      cell_at df_v3 0 "VolumeId" = Some (Str "v-1")
      ∧ cell_at df_v3 0 "maxReadIOPS" = Some (Num (0 # 1))
      ∧ cell_at df_v3 0 "maxWriteIOPS" = Some (Num (1 # 1))
      ∧ cell_at df_v3 0 "MaxIOPS" = Some (Num (0 # 1))
      ∧ cell_at df_v3 0 "meanReadIOPS" = Some (Num (0 # 1))
      ∧ cell_at df_v3 0 "meanWriteIOPS" = Some (Num (1 # 1))
      ∧ cell_at df_v3 0 "MeanIOPS" = Some (Num (0 # 1))
  | inl _ => False
  end
  ∧ report_cell (Script.script mixed_cloud world0) "ebs_report-us-east-1.csv" 0 "MaxIOPS"
    = Some (Num (0 # 1))
  ∧ match collector_combined mixed_cloud with
    | inr df_result =>
        cell_at df_result 0 "VolumeId" = Some (Str "v-1")
        ∧ cell_at df_result 0 "maxReadIOPS" = Some (Num (0 # 1))
        ∧ cell_at df_result 0 "maxWriteIOPS" = Some (Num (1 # 1))
        ∧ cell_at df_result 0 "MaxIOPS" = Some (Num (1 # 1))
        ∧ cell_at df_result 0 "MeanIOPS" = Some (Num (1 # 1))
    | inl _ => False
    end.
Proof. vm_compute. repeat split. Qed.

(** C3.  The scenario of the claim, a single volume with no read datapoint
    and the write total 3600: the class raises [KeyError] when it selects
    the report columns, since MeanIOPS and MaxIOPS were never created, and
    writes no EBS report; the notebook raises [KeyError] on the missing
    Maximum column of the empty read table and writes nothing.  Next to a
    volume that has reads, the notebook reports MeanIOPS = MaxIOPS = 0 for
    the volume and the class 1. *)
Theorem C3_write_only_volume :
  (Collector.main write_only_cloud world0).1 = inl (KeyError ["MeanIOPS"; "MaxIOPS"])
  ∧ written (Collector.main write_only_cloud world0) "ebs_report-us-east-1.csv" = None
  ∧ (Script.script write_only_cloud world0).1 = inl (KeyError ["Maximum"])
  ∧ files (Script.script write_only_cloud world0).2 = []
  ∧ report_cell (Script.script mixed_cloud world0) "ebs_report-us-east-1.csv" 0 "VolumeId"
    = Some (Str "v-1")
  ∧ report_cell (Script.script mixed_cloud world0) "ebs_report-us-east-1.csv" 0 "MeanIOPS"
    = Some (Num (0 # 1))
  ∧ report_cell (Script.script mixed_cloud world0) "ebs_report-us-east-1.csv" 0 "MaxIOPS"
    = Some (Num (0 # 1))
  ∧ report_cell (Collector.main mixed_cloud world0) "ebs_report-us-east-1.csv" 0 "MeanIOPS"
    = Some (Num (1 # 1))
  ∧ report_cell (Collector.main mixed_cloud world0) "ebs_report-us-east-1.csv" 0 "MaxIOPS"
    = Some (Num (1 # 1)).
Proof. vm_compute. repeat split. Qed.

(** C4.  For a volume attached first to "i-1" and then to "i-2" the
    notebook reports "i-2", the last attachment; the class reports "i-1",
    the first. *)
Theorem C4_notebook_last_attachment :
  report_cell (Script.script multi_attach_cloud world0) "ebs_report-us-east-1.csv" 0 "VolumeId"
    = Some (Str "v-1")
  ∧ report_cell (Script.script multi_attach_cloud world0) "ebs_report-us-east-1.csv" 0
                "InstanceId" = Some (Str "i-2")
  ∧ report_cell (Collector.main multi_attach_cloud world0) "ebs_report-us-east-1.csv" 0
                "InstanceId" = Some (Str "i-1").
Proof. vm_compute. repeat split. Qed.

Section FaultClaims.
Variable c : cloud.
Implicit Types (df : DataFrame) (w : world).

Lemma collector_ebs_part_fault e w :
  describe_volumes c = inl e →
  Collector.ebs_part c w =
    (inl e,
     extend w [(INFO, "Retrieving EBS volumes...");
               (ERROR, "Error retrieving EBS volumes: " +:+ exn_str e)] [] [DescribeVolumes]).
Proof.
  intros He. unfold Collector.ebs_part.
  rewrite bind_run, logger_run, bind_run.
  by rewrite (collector_volumes_fault c e _ He), extend_extend.
Qed.

Lemma collector_ebs_part_none w :
  describe_volumes c = inr [] →
  Collector.ebs_part c w =
    (inr tt, extend w [(INFO, "Retrieving EBS volumes...")] [] [DescribeVolumes]).
Proof.
  intros He. unfold Collector.ebs_part.
  rewrite bind_run, logger_run, bind_run.
  by rewrite (collector_volumes_ok c [] _ He), extend_extend.
Qed.

(** An empty inventory: no report, no error, one message for the instances. *)
Lemma collector_empty_inventory rs w :
  describe_instances c = inr rs → List.concat rs = [] → describe_volumes c = inr [] →
  Collector.main c w =
    (inr tt,
     extend w [(INFO, "Retrieving EC2 instances...");
               (INFO, "No EC2 instances found in region " +:+ region_name c);
               (INFO, "Retrieving EBS volumes...")] []
            [DescribeInstances; DescribeVolumes]).
Proof.
  intros Hrs He Hv. rewrite collector_main_run, bind_run.
  rewrite (collector_ec2_part_none c rs w Hrs He).
  by rewrite (collector_ebs_part_none _ Hv), extend_extend.
Qed.
End FaultClaims.

(** C7.  A fault of an inventory call is fatal for the class: the same
    exception leaves [main]; it is logged by [get_ec2_instances] (or
    [get_ebs_volumes]), by [generate_reports] and by [main]; the call is
    issued once and no other call follows; no report is written after the
    fault. *)
Theorem C7_inventory_fault_is_fatal (c : cloud) (w : world) (e : exn) :
  (describe_instances c = inl e →
   Collector.main c w =
     (inl e,
      extend w [(INFO, "Retrieving EC2 instances...");
                (ERROR, "Error retrieving EC2 instances: " +:+ exn_str e);
                (ERROR, "Error generating reports: " +:+ exn_str e);
                (ERROR, "Failed to generate reports: " +:+ exn_str e)] []
             [DescribeInstances]))
  ∧ (∀ w1, Collector.ec2_part c w = (inr tt, w1) → describe_volumes c = inl e →
     Collector.main c w =
       (inl e,
        extend w1 [(INFO, "Retrieving EBS volumes...");
                   (ERROR, "Error retrieving EBS volumes: " +:+ exn_str e);
                   (ERROR, "Error generating reports: " +:+ exn_str e);
                   (ERROR, "Failed to generate reports: " +:+ exn_str e)] []
               [DescribeVolumes])).
Proof.
  split.
  - intros He. rewrite collector_main_run, bind_run.
    by rewrite (collector_ec2_part_fault c e w He), extend_extend.
  - intros w1 H1 He. rewrite collector_main_run, bind_run, H1.
    by rewrite (collector_ebs_part_fault c e w1 He), extend_extend.
Qed.

Lemma C7_witness :
  describe_instances instances_down_cloud = inl (ClientError "RequestLimitExceeded")
  ∧ Collector.main instances_down_cloud world0 =
      (inl (ClientError "RequestLimitExceeded"),
       World [(INFO, "Retrieving EC2 instances...");
              (ERROR, "Error retrieving EC2 instances: RequestLimitExceeded");
              (ERROR, "Error generating reports: RequestLimitExceeded");
              (ERROR, "Failed to generate reports: RequestLimitExceeded")] []
             [DescribeInstances])
  ∧ describe_volumes volumes_down_cloud = inl (ClientError "RequestLimitExceeded")
  ∧ (Collector.main volumes_down_cloud world0).1 = inl (ClientError "RequestLimitExceeded")
  ∧ written (Collector.main volumes_down_cloud world0) "ebs_report-us-east-1.csv" = None
  ∧ calls (Collector.main volumes_down_cloud world0).2 =
      [DescribeInstances;
       GetMetricStatistics "AWS/EC2" "CPUUtilization" "InstanceId" "i-1"; DescribeVolumes].
Proof.
  split; [reflexivity|]. split.
  { exact (proj1 (C7_inventory_fault_is_fatal instances_down_cloud world0
                    (ClientError "RequestLimitExceeded")) eq_refl). }
  split; [reflexivity|].
  rewrite (proj2 (C7_inventory_fault_is_fatal volumes_down_cloud world0
                    (ClientError "RequestLimitExceeded"))
             (Collector.ec2_part volumes_down_cloud world0).2);
    [by vm_compute|by vm_compute|reflexivity].
Defined.

(** C8.  The notebook has no guard for an empty inventory: with no
    instance, the selection of the inventory columns (line 42) raises
    [KeyError] and the run ends there, after the one inventory call; with
    instances and no volume, the lookup of the VolumeId column (line 120)
    raises [KeyError].  No report is written in either case. *)
Theorem C8_notebook_empty_inventory (c : cloud) (w : world) (rs : list (list instance)) :
  describe_instances c = inr rs → List.concat rs = [] →
  (∃ missing,
     Script.script c w = (inl (KeyError missing), extend w [] [] [DescribeInstances]))
  ∧ Script.script empty_cloud world0 = (inl (KeyError ec2_columns), World [] [] [DescribeInstances])
  ∧ (Script.script no_volume_cloud world0).1 = inl (KeyError ["VolumeId"])
  ∧ files (Script.script no_volume_cloud world0).2 = [].
Proof.
  intros Hrs He. split; [|by vm_compute].
  destruct (script_instances_missing c rs w Hrs) as [ms Hms].
  { rewrite He. intros H. apply Forall_cons in H as [H _]. by apply Exists_nil in H. }
  exists ms. unfold Script.script. by rewrite bind_run, Hms.
Qed.

Lemma C8_witness :
  describe_instances empty_cloud = inr [] ∧ List.concat (@nil (list instance)) = []
  ∧ ∃ missing,
      Script.script empty_cloud world0 =
        (inl (KeyError missing), extend world0 [] [] [DescribeInstances]).
Proof.
  split; [reflexivity|]. split; [reflexivity|].
  exact (proj1 (C8_notebook_empty_inventory empty_cloud world0 [] eq_refl eq_refl)).
Defined.


Section IsolationClaim.
Variable c : cloud.
Implicit Types (df : DataFrame) (w : world) (xs : list instance).

Lemma fault_logged ns m dim ids id e :
  id ∈ ids → get_metric_statistics c ns m dim id = inl e →
  (ERROR, "Error retrieving CloudWatch metrics for " +:+ dim +:+ " " +:+ id +:+ ": "
          +:+ exn_str e) ∈ fetch_errors c ns m dim ids.
Proof.
  intros Hid He. unfold fetch_errors. apply list_elem_of_bind. exists id.
  rewrite He. split; [left|done].
Qed.

Lemma fault_no_data i :
  faults c "AWS/EC2" "CPUUtilization" "InstanceId" (i_InstanceId i) → no_data c i.
Proof. intros [e He]. unfold no_data, answers. by rewrite He. Qed.

(** The notebook stops at the first metric query that faults. *)
Lemma script_cpu_fault_aborts rs w i :
  describe_instances c = inr rs →
  Forall (has_column instance_record (List.concat rs)) ec2_columns →
  i ∈ List.concat rs →
  faults c "AWS/EC2" "CPUUtilization" "InstanceId" (i_InstanceId i) →
  ∃ e w', Script.script c w = (inl e, w') ∧ files w' = files w.
Proof.
  intros Hrs Hcols Hi Hfault. unfold Script.script.
  rewrite bind_run, (script_instances_ok c rs w Hrs Hcols).
  rewrite bind_run, script_volumes.
  destruct (describe_volumes c) as [e|vols].
  { eexists e, _. split; [reflexivity|]. cbn [files extend]. by rewrite !app_nil_r. }
  rewrite bind_run.
  destruct (Script.fetch_cpu c (instance_frame (List.concat rs)) _) as [[e|df] w1] eqn:E.
  - exists e, w1. split; [done|]. apply keeps_files_fetch_cpu in E. rewrite E.
    cbn [files extend]. by rewrite !app_nil_r.
  - exfalso.
    destruct (script_fetch_cpu c (List.concat rs)
                (extend (extend w [] [] [DescribeInstances]) [] [] [DescribeVolumes]))
      as [(Hall & _)|(_ & e & w' & Hrun)]; [|by rewrite Hrun in E].
    apply (proj1 (Forall_forall _ _) Hall (i_InstanceId i)); [|done].
    apply list_elem_of_fmap. eauto.
Qed.
End IsolationClaim.

Section FaultRows.
Variable c : cloud.
Implicit Types (df : DataFrame) (w : world) (v : volume).

Lemma fault_no_answers ns m dim id :
  faults c ns m dim id → answers c ns m dim id = [].
Proof. intros [e He]. unfold answers. by rewrite He. Qed.

Lemma kept_datapoints ns m dim ids id ds d :
  id ∈ ids → get_metric_statistics c ns m dim id = inr ds → d ∈ ds →
  dp_row dim id d ∈ metric_rows c ns m dim ids.
Proof.
  intros Hid Hds Hd. unfold metric_rows, metric_rows_of. apply list_elem_of_bind.
  exists id. split; [|done]. unfold answers. rewrite Hds.
  apply list_elem_of_fmap. eauto.
Qed.

Lemma no_rates (ans : string → list datapoint) id a :
  ans id = [] → a ∈ [Mean; Max] →
  fill (Num (0 # 1)) (agg_cell a (rate_values ans id)) = Num (0 # 1).
Proof.
  intros He Ha. unfold rate_values. rewrite He.
  repeat (apply elem_of_cons in Ha as [->|Ha]); [done..|by apply elem_of_nil in Ha].
Qed.
End FaultRows.

(** C6, as amended.  In the class, whatever the namespace, the metric and
    the dimension, [get_cloudwatch_metrics] never raises: it queries every
    resource in turn, logs each query that faults, and returns the
    datapoints of every resource that answered, so that only the
    datapoints of the faulted resources are missing.  The run as a whole
    does not abort and writes both reports, provided both inventories are
    not empty and carry the report columns and, faults apart, some volume
    returned read datapoints and some volume returned write datapoints.
    The instance report has the row of every instance in its place; a
    failed instance has zero in its usage fields when some instance
    returned datapoints, and the report has no usage column when none did.
    The volume report has one row per volume; when volume ids are distinct,
    a failed read query or a failed write query of a volume counts as 0 in
    its MeanIOPS and MaxIOPS, which are both 0 when both queries fail. *)
Theorem C6_fault_isolation (c : cloud) (rs : list (list instance)) (vols : list volume)
    (w : world) :
  (∀ ns m dim ids w0,
     ∃ df,
       Collector.get_cloudwatch_metrics c ns m dim (Str <$> ids) w0 =
         (inr df, extend w0 (fetch_errors c ns m dim ids) []
                    (GetMetricStatistics ns m dim <$> ids))
       ∧ rows df = metric_rows c ns m dim ids
       ∧ (∀ id e, id ∈ ids → get_metric_statistics c ns m dim id = inl e →
            (ERROR, "Error retrieving CloudWatch metrics for " +:+ dim +:+ " " +:+ id
                    +:+ ": " +:+ exn_str e) ∈ fetch_errors c ns m dim ids
            ∧ answers c ns m dim id = [])
       ∧ (∀ id ds d, id ∈ ids → get_metric_statistics c ns m dim id = inr ds → d ∈ ds →
            dp_row dim id d ∈ rows df))
  ∧ (describe_instances c = inr rs →
     Forall (has_column instance_record (List.concat rs)) ec2_columns →
     describe_volumes c = inr vols →
     vols ≠ [] →
     has_column volume_record vols "Iops" →
     has_column volume_record vols "Throughput" →
     Exists (λ v, read_answers c (v_VolumeId v) ≠ []) vols →
     Exists (λ v, write_answers c (v_VolumeId v) ≠ []) vols →
     ∃ ec2 ebs,
       Collector.main c w =
         (inr tt,
          extend w
            ([(INFO, "Retrieving EC2 instances...")] ++ cpu_errors c (List.concat rs) ++
             [(INFO, "EC2 report generated successfully");
              (INFO, "Retrieving EBS volumes...")] ++
             read_errors c vols ++ write_errors c vols ++
             [(INFO, "EBS report generated successfully")])
            [(Collector.ec2_report_name c, ec2); (Collector.ebs_report_name c, ebs)]
            (DescribeInstances :: cpu_calls (List.concat rs) ++
             DescribeVolumes :: read_calls vols ++ write_calls vols))
       ∧ follows_inventory (List.concat rs) ec2
       ∧ (∀ i, i ∈ List.concat rs →
            faults c "AWS/EC2" "CPUUtilization" "InstanceId" (i_InstanceId i) → no_data c i)
       ∧ (Exists (λ j, ¬ no_data c j) (List.concat rs) →
          Forall2 (λ j r, no_data c j → zero_aggregates r) (List.concat rs) (rows ec2))
       ∧ (Forall (no_data c) (List.concat rs) → Forall no_aggregates (rows ec2))
       ∧ List.length (rows ebs) = List.length vols
       ∧ (NoDup (v_VolumeId <$> vols) →
          ∀ k v, vols !! k = Some v →
            cell_at ebs k "VolumeId" = Some (Str (v_VolumeId v))
            ∧ (faults c "AWS/EBS" "VolumeReadOps" "VolumeId" (v_VolumeId v) →
               cell_at ebs k "MeanIOPS" =
                 Some (cell_add (Num (0 # 1))
                         (fill (Num (0 # 1))
                            (agg_cell Mean (rate_values (write_answers c) (v_VolumeId v)))))
               ∧ cell_at ebs k "MaxIOPS" =
                   Some (cell_add (Num (0 # 1))
                           (fill (Num (0 # 1))
                              (agg_cell Max (rate_values (write_answers c) (v_VolumeId v))))))
            ∧ (faults c "AWS/EBS" "VolumeWriteOps" "VolumeId" (v_VolumeId v) →
               cell_at ebs k "MeanIOPS" =
                 Some (cell_add
                         (fill (Num (0 # 1))
                            (agg_cell Mean (rate_values (read_answers c) (v_VolumeId v))))
                         (Num (0 # 1)))
               ∧ cell_at ebs k "MaxIOPS" =
                   Some (cell_add
                           (fill (Num (0 # 1))
                              (agg_cell Max (rate_values (read_answers c) (v_VolumeId v))))
                           (Num (0 # 1))))
            ∧ (faults c "AWS/EBS" "VolumeReadOps" "VolumeId" (v_VolumeId v) →
               faults c "AWS/EBS" "VolumeWriteOps" "VolumeId" (v_VolumeId v) →
               cell_at ebs k "MeanIOPS" = Some (Num (0 # 1))
               ∧ cell_at ebs k "MaxIOPS" = Some (Num (0 # 1))))).
Proof.
  split.
  { intros ns m dim ids w0.
    destruct (collector_get_metrics c ns m dim ids w0) as (df & Hrun & _ & Hr).
    exists df. split; [exact Hrun|]. split; [exact Hr|]. split.
    - intros id e Hid He. split; [by apply fault_logged|].
      apply fault_no_answers. by exists e.
    - intros id ds d Hid Hds Hd. rewrite Hr. by eapply kept_datapoints. }
  intros Hrs Hcols Hv Hne Hio Htp Hread Hwrite.
  pose proof (has_columns_nonempty _ Hcols) as Hxs.
  exists (ec2_report c (List.concat rs)), (report_of (collector_table c vols)).
  split.
  { rewrite collector_main_run, bind_run.
    rewrite (collector_ec2_part_ok c rs w Hrs Hxs Hcols).
    rewrite (collector_ebs_part_ok c vols Hne Hio Htp Hread Hwrite _ Hv).
    rewrite extend_extend. f_equal. f_equal; by rewrite <- ?app_assoc. }
  split; [apply ec2_report_follows|].
  split; [intros i _ Hf; by apply fault_no_data|].
  split.
  { intros Hex. unfold ec2_report. rewrite decide_False; [apply joined_ec2_zero|].
    rewrite cpu_table_empty. intros Hall. apply Exists_exists in Hex as (j & Hj & Hd).
    by apply Hd, (proj1 (Forall_forall _ _) Hall). }
  split.
  { intros Hall. unfold ec2_report. rewrite decide_True by by apply cpu_table_empty.
    unfold instance_frame. cbn [rows]. apply Forall_fmap, Forall_forall.
    intros j _ n Hn. by apply inventory_row_stats. }
  split.
  { unfold report_of, collector_table, with_instance_id. cbn [rows].
    by rewrite collector_summed_rows, !length_fmap. }
  intros Hnd k v Hk.
  assert (v ∈ vols) as Hin by by eapply list_elem_of_lookup_2.
  assert ("VolumeId" ∈ final_columns) as H0 by by apply (bool_decide_unpack _).
  assert ("MeanIOPS" ∈ final_columns) as H1 by by apply (bool_decide_unpack _).
  assert ("MaxIOPS" ∈ final_columns) as H2 by by apply (bool_decide_unpack _).
  assert (Mean ∈ [Mean; Max]) as Ha1 by (left).
  assert (Max ∈ [Mean; Max]) as Ha2 by (right; left).
  rewrite (collector_report_cell c vols k v _ Hk H0),
    (collector_report_cell c vols k v _ Hk H1), (collector_report_cell c vols k v _ Hk H2).
  rewrite !lookup_insert_ne by done. rewrite summed_row_id.
  rewrite (summed_row_total c vols Hnd v "MeanIOPS" Mean "meanReadIOPS" "meanWriteIOPS");
    [|done|done|unfold read_stats; set_solver|unfold write_stats; set_solver|left; done].
  rewrite (summed_row_total c vols Hnd v "MaxIOPS" Max "maxReadIOPS" "maxWriteIOPS");
    [|done|done|unfold read_stats; set_solver|unfold write_stats; set_solver|right; done].
  cbn [default].
  split; [reflexivity|]. split; [|split].
  - intros Hf. apply fault_no_answers in Hf.
    rewrite !(no_rates (read_answers c) _ _ Hf) by done. split; reflexivity.
  - intros Hf. apply fault_no_answers in Hf.
    rewrite !(no_rates (write_answers c) _ _ Hf) by done. split; reflexivity.
  - intros Hf1 Hf2. apply fault_no_answers in Hf1, Hf2.
    rewrite !(no_rates (read_answers c) _ _ Hf1), !(no_rates (write_answers c) _ _ Hf2)
      by done.
    split; reflexivity.
Qed.

Lemma C6_witness :
  get_metric_statistics isolated_fault_cloud "AWS/EC2" "CPUUtilization" "InstanceId" "i-1"
    = inl (ClientError "Throttling")
  ∧ get_metric_statistics isolated_fault_cloud "AWS/EBS" "VolumeReadOps" "VolumeId" "v-1"
    = inl (ClientError "Throttling")
  ∧ ∃ ec2 ebs,
      Collector.main isolated_fault_cloud world0 =
        (inr tt,
         extend world0
           ([(INFO, "Retrieving EC2 instances...")] ++
            cpu_errors isolated_fault_cloud
              (List.concat [[sample_instance "i-1"; sample_instance "i-2"]]) ++
            [(INFO, "EC2 report generated successfully");
             (INFO, "Retrieving EBS volumes...")] ++
            read_errors isolated_fault_cloud
              [sample_volume "v-1" [Attachment "i-1" "v-1"]; sample_volume "v-2" []] ++
            write_errors isolated_fault_cloud
              [sample_volume "v-1" [Attachment "i-1" "v-1"]; sample_volume "v-2" []] ++
            [(INFO, "EBS report generated successfully")])
           [(Collector.ec2_report_name isolated_fault_cloud, ec2);
            (Collector.ebs_report_name isolated_fault_cloud, ebs)]
           (DescribeInstances ::
            cpu_calls (List.concat [[sample_instance "i-1"; sample_instance "i-2"]]) ++
            DescribeVolumes ::
            read_calls [sample_volume "v-1" [Attachment "i-1" "v-1"]; sample_volume "v-2" []] ++
            write_calls [sample_volume "v-1" [Attachment "i-1" "v-1"]; sample_volume "v-2" []]))
      ∧ cpu_errors isolated_fault_cloud
          (List.concat [[sample_instance "i-1"; sample_instance "i-2"]])
        = [(ERROR, "Error retrieving CloudWatch metrics for InstanceId i-1: Throttling")]
      ∧ read_errors isolated_fault_cloud
          [sample_volume "v-1" [Attachment "i-1" "v-1"]; sample_volume "v-2" []]
        = [(ERROR, "Error retrieving CloudWatch metrics for VolumeId v-1: Throttling")]
      ∧ List.length (rows ec2) = 2%nat
      ∧ cell_at ec2 0 "InstanceId" = Some (Str "i-1")
      ∧ cell_at ec2 0 "meanCPU" = Some (Num (0 # 1))
      ∧ cell_at ec2 0 "maxCPU" = Some (Num (0 # 1))
      ∧ List.length (rows ebs) = 2%nat
      ∧ cell_at ebs 0 "VolumeId" = Some (Str "v-1")
      ∧ cell_at ebs 0 "MeanIOPS" = Some (Num (1 # 1))
      ∧ cell_at ebs 0 "MaxIOPS" = Some (Num (1 # 1)).
Proof.
  pose (xs := [sample_instance "i-1"; sample_instance "i-2"]).
  pose (vs := [sample_volume "v-1" [Attachment "i-1" "v-1"]; sample_volume "v-2" []]).
  assert (Forall (has_column instance_record (List.concat [xs])) ec2_columns) as Hcols.
  { apply Forall_forall. intros col Hcol. left. vm_compute. set_solver. }
  assert (has_column volume_record vs "Iops") as Hio by (left; vm_compute; set_solver).
  assert (has_column volume_record vs "Throughput") as Htp by (left; vm_compute; set_solver).
  assert (Exists (λ v, read_answers isolated_fault_cloud (v_VolumeId v) ≠ []) vs) as Hread.
  { right. left. intros H. vm_compute in H. discriminate H. }
  assert (Exists (λ v, write_answers isolated_fault_cloud (v_VolumeId v) ≠ []) vs) as Hwrite.
  { left. intros H. vm_compute in H. discriminate H. }
  assert (NoDup (v_VolumeId <$> vs)) as Hnd.
  { apply (bool_decide_unpack _). vm_compute. reflexivity. }
  assert (faults isolated_fault_cloud "AWS/EC2" "CPUUtilization" "InstanceId"
            (i_InstanceId (sample_instance "i-1"))) as Hf1.
  { exists (ClientError "Throttling"). vm_compute. reflexivity. }
  assert (faults isolated_fault_cloud "AWS/EBS" "VolumeReadOps" "VolumeId"
            (v_VolumeId (sample_volume "v-1" [Attachment "i-1" "v-1"]))) as Hf2.
  { exists (ClientError "Throttling"). vm_compute. reflexivity. }
  assert (Exists (λ j, ¬ no_data isolated_fault_cloud j) (List.concat [xs])) as Hdata.
  { right. left. intros H. vm_compute in H. discriminate H. }
  assert (rate_values (write_answers isolated_fault_cloud) "v-1" = [(1 # 1)%Q]) as Hrates.
  { vm_compute. reflexivity. }
  split; [vm_compute; reflexivity|]. split; [vm_compute; reflexivity|].
  destruct (proj2 (C6_fault_isolation isolated_fault_cloud [xs] vs world0)
              eq_refl Hcols eq_refl ltac:(discriminate) Hio Htp Hread Hwrite)
    as (ec2 & ebs & Hmain & [Hlen Hfollow] & Hno & Hzero & _ & Hlen' & Hcells).
  specialize (Hzero Hdata).
  destruct (Hcells Hnd 0%nat (sample_volume "v-1" [Attachment "i-1" "v-1"]) eq_refl)
    as (Hid & Hr & _).
  destruct (Hr Hf2) as [Hmean Hmax].
  change (v_VolumeId (sample_volume "v-1" [Attachment "i-1" "v-1"])) with "v-1"
    in Hid, Hmean, Hmax.
  rewrite Hrates in Hmean, Hmax.
  destruct (Forall2_lookup_l _ _ _ 0%nat (sample_instance "i-1") Hfollow eq_refl)
    as (r & Hr0 & Hsub).
  destruct (Forall2_lookup_l _ _ _ 0%nat (sample_instance "i-1") Hzero eq_refl)
    as (r' & Hr0' & Hz).
  rewrite Hr0 in Hr0'. injection Hr0' as <-.
  specialize (Hz (Hno _ ltac:(left) Hf1)).
  exists ec2, ebs. split; [exact Hmain|].
  split; [vm_compute; reflexivity|]. split; [vm_compute; reflexivity|].
  split; [exact Hlen|].
  split.
  { unfold cell_at. rewrite Hr0. cbn [mbind option_bind].
    eapply lookup_weaken; [|exact Hsub]. apply inventory_row_id. }
  split.
  { unfold cell_at. rewrite Hr0. cbn [mbind option_bind]. apply Hz.
    by apply (bool_decide_unpack _). }
  split.
  { unfold cell_at. rewrite Hr0. cbn [mbind option_bind]. apply Hz.
    by apply (bool_decide_unpack _). }
  split; [exact Hlen'|]. split; [exact Hid|]. split; [exact Hmean|exact Hmax].
Defined.

(** C6, as stated, fails.  The CPU query of the only instance faults: the
    run completes and the report has the row of the instance, but no usage
    field of it is zero, since the report has no usage column.  The read
    query of the only volume faults: the run aborts with [KeyError] and
    writes no volume report.  And in the notebook a faulting query ends
    the run with no report. *)
Lemma C6_counterexample :
  (get_metric_statistics faulty_cloud "AWS/EC2" "CPUUtilization" "InstanceId" "i-1"
     = inl (ClientError "Throttling")
   ∧ (Collector.main faulty_cloud world0).1 = inr tt
   ∧ written (Collector.main faulty_cloud world0) "ec2_report-us-east-1.csv"
     = Some (instance_frame [sample_instance "i-1"])
   ∧ cell_at (instance_frame [sample_instance "i-1"]) 0 "InstanceId" = Some (Str "i-1")
   ∧ cell_at (instance_frame [sample_instance "i-1"]) 0 "meanCPU" = None
   ∧ cell_at (instance_frame [sample_instance "i-1"]) 0 "maxCPU" = None)
  ∧ (get_metric_statistics read_fault_cloud "AWS/EBS" "VolumeReadOps" "VolumeId" "v-1"
       = inl (ClientError "Throttling")
     ∧ (Collector.main read_fault_cloud world0).1 = inl (KeyError ["MeanIOPS"; "MaxIOPS"])
     ∧ written (Collector.main read_fault_cloud world0) "ebs_report-us-east-1.csv" = None)
  ∧ (get_metric_statistics half_faulty_cloud "AWS/EC2" "CPUUtilization" "InstanceId" "i-1"
       = inl (ClientError "Throttling")
     ∧ Script.script half_faulty_cloud world0 =
         (inl (ClientError "Throttling"),
          World [] [] [DescribeInstances; DescribeVolumes;
                       GetMetricStatistics "AWS/EC2" "CPUUtilization" "InstanceId" "i-1"])).
Proof. vm_compute. repeat split. Qed.

Section EquivalenceClaim.
Variable c : cloud.
Implicit Types (df : DataFrame) (w : world) (xs : list instance) (v : volume).

Lemma cpu_table_nonempty xs :
  Exists (λ i, ¬ no_data c i) xs → rows (cpu_table c xs) ≠ [].
Proof.
  intros Hex Hnil. apply Exists_exists in Hex as (i & Hi & Hn). apply Hn.
  apply cpu_table_empty in Hnil. by apply (proj1 (Forall_forall _ _) Hnil).
Qed.

Lemma some_write_of_read (vols : list volume) :
  (∀ v, v ∈ vols → read_answers c (v_VolumeId v) = [] ↔ write_answers c (v_VolumeId v) = []) →
  Exists (λ v, read_answers c (v_VolumeId v) ≠ []) vols →
  Exists (λ v, write_answers c (v_VolumeId v) ≠ []) vols.
Proof.
  intros Hb Hex. apply Exists_exists in Hex as (v & Hv & Hn). apply Exists_exists.
  exists v. split; [done|]. intros Hw. apply Hn. by apply Hb.
Qed.

(** A run of the notebook in which no query faults and both aggregations
    have datapoints to work on. *)
Lemma script_run rs (vols : list volume) w :
  describe_instances c = inr rs →
  Forall (has_column instance_record (List.concat rs)) ec2_columns →
  describe_volumes c = inr vols →
  vols ≠ [] →
  has_column volume_record vols "Iops" →
  has_column volume_record vols "Throughput" →
  Forall (λ i, ¬ faults c "AWS/EC2" "CPUUtilization" "InstanceId" (i_InstanceId i))
         (List.concat rs) →
  Forall (λ v, ¬ faults c "AWS/EBS" "VolumeReadOps" "VolumeId" (v_VolumeId v) ∧
               ¬ faults c "AWS/EBS" "VolumeWriteOps" "VolumeId" (v_VolumeId v)) vols →
  Exists (λ i, ¬ no_data c i) (List.concat rs) →
  Exists (λ v, read_answers c (v_VolumeId v) ≠ []) vols →
  (∀ v, v ∈ vols → read_answers c (v_VolumeId v) = [] ↔ write_answers c (v_VolumeId v) = []) →
  Script.script c w =
    (inr tt,
     extend w [] [("ec2_report-" +:+ region_name c +:+ ".csv", joined_ec2 c (List.concat rs));
                  ("ebs_report-" +:+ region_name c +:+ ".csv", report_of (script_table c vols))]
            (DescribeInstances :: DescribeVolumes :: cpu_calls (List.concat rs)
             ++ iops_calls vols)).
Proof.
  intros Hrs Hcols Hv Hne Hio Hth Hcpu Hebs Hdata Hread Hboth.
  pose proof (has_columns_nonempty _ Hcols) as Hxs.
  pose proof (cpu_table_nonempty _ Hdata) as Hrows.
  pose proof (some_write_of_read _ Hboth Hread) as Hwrite.
  unfold Script.script.
  rewrite bind_run, (script_instances_ok c rs w Hrs Hcols).
  rewrite bind_run, script_volumes, Hv, bind_run.
  destruct (script_fetch_cpu c (List.concat rs)
              (extend (extend w [] [] [DescribeInstances]) [] [] [DescribeVolumes]))
    as [(_ & df & -> & Hf & Hm & Hr & Hd)|(Hex & _)].
  2:{ exfalso. apply Exists_exists in Hex as (id & Hid & Hfault).
      apply list_elem_of_fmap in Hid as (i & -> & Hi).
      by apply (proj1 (Forall_forall _ _) Hcpu i Hi). }
  rewrite bind_run, (script_ec2_table c (List.concat rs) df); try done; [|by apply Hd].
  rewrite decide_False by done. rewrite bind_run.
  destruct (script_fetch_iops c vols
              (extend (extend (extend w [] [] [DescribeInstances]) [] [] [DescribeVolumes])
                      [] [] (cpu_calls (List.concat rs))) Hne Hebs)
    as (dr & dw & -> & Hfr & _ & Hrr & Hfw & _ & Hrw).
  rewrite bind_run. cbn [fst snd].
  rewrite (script_ebs_table c vols); try done.
  rewrite bind_run, to_csv_run, to_csv_run, !extend_extend.
  f_equal. f_equal; rewrite ?app_nil_r; done.
Qed.
End EquivalenceClaim.

(** C10, as amended.  On the same responses the two programs write the same
    two report tables, provided that: both inventories are non-empty and
    have the columns the programs select; no metric query faults; some
    instance has CPU datapoints; some volume has read datapoints, and every
    volume has read datapoints exactly when it has write datapoints; the
    volume ids are distinct and every attachment entry names its own
    volume; and no volume has more than one attachment entry. *)
Theorem C10_same_reports (c : cloud) (rs : list (list instance)) (vols : list volume)
    (w : world) :
  describe_instances c = inr rs →
  Forall (has_column instance_record (List.concat rs)) ec2_columns →
  describe_volumes c = inr vols →
  vols ≠ [] →
  has_column volume_record vols "Iops" →
  has_column volume_record vols "Throughput" →
  Forall (λ i, ¬ faults c "AWS/EC2" "CPUUtilization" "InstanceId" (i_InstanceId i))
         (List.concat rs) →
  Forall (λ v, ¬ faults c "AWS/EBS" "VolumeReadOps" "VolumeId" (v_VolumeId v) ∧
               ¬ faults c "AWS/EBS" "VolumeWriteOps" "VolumeId" (v_VolumeId v)) vols →
  Exists (λ i, ¬ no_data c i) (List.concat rs) →
  Exists (λ v, read_answers c (v_VolumeId v) ≠ []) vols →
  (∀ v, v ∈ vols → read_answers c (v_VolumeId v) = [] ↔ write_answers c (v_VolumeId v) = []) →
  own_attachments vols →
  Forall (λ v, (List.length (v_Attachments v) ≤ 1)%nat) vols →
  ∃ wc ws,
    Collector.main c w = (inr tt, wc)
    ∧ Script.script c w = (inr tt, ws)
    ∧ files wc = files w ++ [("ec2_report-" +:+ region_name c +:+ ".csv",
                              joined_ec2 c (List.concat rs));
                             ("ebs_report-" +:+ region_name c +:+ ".csv",
                              report_of (collector_table c vols))]
    ∧ files ws = files wc.
Proof.
  intros Hrs Hcols Hv Hne Hio Hth Hcpu Hebs Hdata Hread Hboth Hown Hsingle.
  pose proof (has_columns_nonempty _ Hcols) as Hxs.
  pose proof (cpu_table_nonempty c _ Hdata) as Hrows.
  pose proof (some_write_of_read c _ Hboth Hread) as Hwrite.
  eexists _, _. split; [|split; [|split]].
  - rewrite collector_main_run, bind_run.
    rewrite (collector_ec2_part_ok c rs w Hrs Hxs Hcols).
    rewrite (collector_ebs_part_ok c vols); try done.
  - by apply (script_run c rs vols).
  - cbn [files extend]. rewrite <- app_assoc. unfold ec2_report.
    rewrite decide_False by done. reflexivity.
  - cbn [files extend]. rewrite <- app_assoc. unfold ec2_report.
    rewrite decide_False by done.
    rewrite (same_volume_table c vols); done.
Qed.

Lemma C10_witness :
  describe_instances demo_cloud = inr [[sample_instance "i-1"; sample_instance "i-2"]]
  ∧ describe_volumes demo_cloud
    = inr [sample_volume "v-1" [Attachment "i-1" "v-1"]; sample_volume "v-2" []]
  ∧ ¬ no_data demo_cloud (sample_instance "i-1")
  ∧ read_answers demo_cloud "v-1" ≠ []
  ∧ ∃ wc ws,
      Collector.main demo_cloud world0 = (inr tt, wc)
      ∧ Script.script demo_cloud world0 = (inr tt, ws)
      ∧ files wc =
          files world0 ++
          [("ec2_report-" +:+ region_name demo_cloud +:+ ".csv",
            joined_ec2 demo_cloud
              (List.concat [[sample_instance "i-1"; sample_instance "i-2"]]));
           ("ebs_report-" +:+ region_name demo_cloud +:+ ".csv",
            report_of (collector_table demo_cloud
                         [sample_volume "v-1" [Attachment "i-1" "v-1"];
                          sample_volume "v-2" []]))]
      ∧ files ws = files wc.
Proof.
  assert (Forall (has_column instance_record
                    (List.concat [[sample_instance "i-1"; sample_instance "i-2"]]))
            ec2_columns) as Hcols.
  { apply Forall_forall. intros col Hcol. left. vm_compute. set_solver. }
  assert (¬ no_data demo_cloud (sample_instance "i-1")) as Hdata.
  { intros H. vm_compute in H. discriminate H. }
  assert (read_answers demo_cloud "v-1" ≠ []) as Hread.
  { intros H. vm_compute in H. discriminate H. }
  split; [reflexivity|]. split; [reflexivity|]. split; [exact Hdata|]. split; [exact Hread|].
  apply (C10_same_reports demo_cloud [[sample_instance "i-1"; sample_instance "i-2"]]
           [sample_volume "v-1" [Attachment "i-1" "v-1"]; sample_volume "v-2" []] world0).
  - reflexivity.
  - exact Hcols.
  - reflexivity.
  - discriminate.
  - left. vm_compute. set_solver.
  - left. vm_compute. set_solver.
  - repeat constructor; intros [e He]; vm_compute in He; discriminate He.
  - repeat constructor; intros [e He]; vm_compute in He; discriminate He.
  - left. exact Hdata.
  - left. exact Hread.
  - intros v Hv. split; intros H; exfalso;
      repeat (apply elem_of_cons in Hv as [->|Hv]; [vm_compute in H; discriminate H|]);
      by apply elem_of_nil in Hv.
  - split; [apply (bool_decide_unpack _); vm_compute; reflexivity|].
    repeat constructor.
  - repeat constructor.
Defined.

(** C10, as stated, fails.  For a volume with two attachment entries both
    programs write both reports and the volume reports differ in the
    instance id.  For a volume with writes and no reads, next to one that
    has both, they differ in the summed rates.  And for an instance without
    datapoints the class writes the instance report while the notebook
    stops in the aggregation and writes nothing. *)
Lemma C10_counterexample :
  ((Collector.main multi_attach_cloud world0).1 = inr tt
   ∧ (Script.script multi_attach_cloud world0).1 = inr tt
   ∧ report_cell (Collector.main multi_attach_cloud world0) "ebs_report-us-east-1.csv" 0
                 "InstanceId" = Some (Str "i-1")
   ∧ report_cell (Script.script multi_attach_cloud world0) "ebs_report-us-east-1.csv" 0
                 "InstanceId" = Some (Str "i-2"))
  ∧ ((Collector.main mixed_cloud world0).1 = inr tt
     ∧ (Script.script mixed_cloud world0).1 = inr tt
     ∧ report_cell (Collector.main mixed_cloud world0) "ebs_report-us-east-1.csv" 0
                   "MeanIOPS" = Some (Num (1 # 1))
     ∧ report_cell (Script.script mixed_cloud world0) "ebs_report-us-east-1.csv" 0
                   "MeanIOPS" = Some (Num (0 # 1)))
  ∧ ((Collector.main idle_cloud world0).1 = inr tt
     ∧ written (Collector.main idle_cloud world0) "ec2_report-us-east-1.csv"
       = Some (instance_frame [sample_instance "i-1"])
     ∧ (Script.script idle_cloud world0).1 = inl (AttributeError "Maximum")
     ∧ files (Script.script idle_cloud world0).2 = []).
Proof. vm_compute. repeat split. Qed.
